(** * grblHAL driver for the TM4C123: the interrupt-driven timing core

    A shallow embedding of [drivers/TM4C123/driver.c]: step-pulse
    generation, spindle PWM (direct and ramped), software debounce of the
    limit inputs, the probe input, the millisecond tick handler and the
    atomic helpers.  Driver functions are state transformers over a
    [world] holding the module's static variables, the peripheral
    registers they touch and the trace of peripheral calls and upstream
    callbacks they perform. *)

From Stdlib Require Import ZArith List Bool Lia.
From stdpp Require Import base gmap.
Import ListNotations.

Local Open Scope Z_scope.

(** ** Machine integers *)

Definition wrap (bits x : Z) : Z := x mod 2 ^ bits.

Definition uint8 : Z -> Z := wrap 8.
Definition uint32 : Z -> Z := wrap 32.

(** [uint_fast16_t] is [unsigned int] (32 bits) in the ARM EABI C
    libraries this driver is built with. *)
Definition FAST16_BITS : Z := 32.
Definition uint_fast16 : Z -> Z := wrap FAST16_BITS.

(** Conversion to [int32_t]: two's complement. *)
Definition int32 (x : Z) : Z := (x + 2 ^ 31) mod 2 ^ 32 - 2 ^ 31.

(** C truth value of an integer. *)
Definition nonzero (x : Z) : bool := negb (x =? 0).

(** ** Configuration: [driver.h] macros, [settings], [spindle_pwm]

    [driver.h] and the core's [settings] are not among the sources at
    hand: the macros and fields the driver reads are the fields of
    [driver_config], fixed while the functions below run. *)

(** [#if STEP_OUTMODE == GPIO_MAP] selects the lookup table, any other
    value is the shift count. *)
Inductive outmode : Type :=
| GPIO_MAP
| GPIO_SHIFT (n : Z).

Record settings_t : Type := {
  step_invert : Z;                 (* settings.steppers.step_invert.mask *)
  dir_invert : Z;                  (* settings.dir_invert.mask *)
  limits_invert : Z;               (* settings.limits.invert.value *)
  spindle_invert_on : bool;        (* settings.spindle.invert.on *)
  spindle_invert_pwm : bool;       (* settings.spindle.invert.pwm *)
  disable_with_zero_speed : bool   (* settings.spindle.disable_with_zero_speed *)
}.

Record spindle_pwm_t : Type := {
  period : Z;
  off_value : Z;
  min_value : Z;
  always_on : bool
}.

Class driver_config : Type := {
  STEP_PORT : Z;
  HWSTEP_MASK : Z;
  X_STEP_PIN : Z;
  Y_STEP_PIN : Z;
  Z_STEP_PIN : Z;
  STEP_OUTMODE : outmode;
  DIRECTION_PORT : Z;
  HWDIRECTION_MASK : Z;
  X_DIRECTION_PIN : Z;
  Y_DIRECTION_PIN : Z;
  Z_DIRECTION_PIN : Z;
  DIRECTION_OUTMODE : outmode;
  LIMIT_PORT : Z;
  HWLIMIT_MASK : Z;
  X_LIMIT_PIN : Z;
  Y_LIMIT_PIN : Z;
  Z_LIMIT_PIN : Z;
  PROBE_PORT : Z;
  PROBE_PIN : Z;
  SPINDLE_ENABLE_PORT : Z;
  SPINDLE_ENABLE_PIN : Z;
  settings : settings_t;
  spindle_pwm : spindle_pwm_t
}.

(** TivaWare [driverlib/timer.h] interrupt flags. *)
Definition TIMER_TIMA_TIMEOUT : Z := 1.
Definition TIMER_TIMA_MATCH : Z := 16.

Definition SPINDLE_RAMP_STEP_INCR : Z := 20.
Definition SPINDLE_RAMP_STEP_TIME : Z := 2.

Definition NULL : Z := 0.

(** ** Module state and peripherals *)

Record pwm_ramp_t : Type := mkRamp {
  ms_cfg : Z;        (* volatile uint32_t ms_cfg *)
  ramp_ms : Z;       (* volatile uint32_t, the ramp's own tick counter (pwm_ramp.delay.ms) *)
  pwm_current : Z;   (* int32_t *)
  pwm_target : Z;    (* int32_t *)
  pwm_step : Z       (* int32_t *)
}.

Record delay_t : Type := mkDelay {
  ms : Z;            (* uint32_t *)
  callback : Z       (* void ( *callback)(void), NULL when absent *)
}.

(** One half (TIMER_A) of a general purpose timer module. *)
Record gptm : Type := mkTimer {
  enabled : bool;
  load : Z;
  value : Z;          (* running count *)
  matchv : Z;
  prescale : Z;
  prescale_match : Z;
  level : bool;       (* PWM output level inverted *)
  mis : Z             (* masked interrupt status *)
}.

Inductive timer_base : Type :=
| PULSE_TIMER_BASE
| DEBOUNCE_TIMER_BASE
| SPINDLE_PWM_TIMER_BASE.

(** Peripheral calls and upstream callbacks, in program order.  A
    callback is upstream code: its invocation is recorded, what it does
    is outside the driver. *)
Inductive event : Type :=
| EGPIOPinWrite (port pins val : Z)
| EGPIOIntClear (port flags : Z)
| ETimerEnable (t : timer_base)
| ETimerDisable (t : timer_base)
| ETimerLoadSet (t : timer_base) (v : Z)
| ETimerMatchSet (t : timer_base) (v : Z)
| ETimerPrescaleSet (t : timer_base) (v : Z)
| ETimerPrescaleMatchSet (t : timer_base) (v : Z)
| ETimerControlLevel (t : timer_base) (invert : bool)
| ETimerIntClear (t : timer_base) (flags : Z)
| ESysTickEnable
| ESysTickDisable
| EIntMasterDisable
| EIntMasterEnable
| Elimit_interrupt_callback (state : Z)
| Edelay_callback (fn : Z).

Record world : Type := mkWorld {
  pwmEnabled : bool;
  probeState : bool;
  next_step_outbits : Z;
  delay : delay_t;
  probe_invert : Z;
  pwm_ramp : pwm_ramp_t;
  gpio_data : gmap Z Z;      (* GPIO data register of each port *)
  gpio_mis : gmap Z Z;       (* GPIO masked interrupt status of each port *)
  pulse_timer : gptm;
  debounce_timer : gptm;
  pwm_timer : gptm;
  systick : bool;            (* SysTick counter enabled *)
  int_master : bool;         (* processor interrupts enabled *)
  trace : list event
}.

Definition set_pwmEnabled (v : bool) (w : world) : world :=
  mkWorld v (probeState w) (next_step_outbits w) (delay w) (probe_invert w) (pwm_ramp w)
    (gpio_data w) (gpio_mis w) (pulse_timer w) (debounce_timer w) (pwm_timer w)
    (systick w) (int_master w) (trace w).

Definition set_probeState (v : bool) (w : world) : world :=
  mkWorld (pwmEnabled w) v (next_step_outbits w) (delay w) (probe_invert w) (pwm_ramp w)
    (gpio_data w) (gpio_mis w) (pulse_timer w) (debounce_timer w) (pwm_timer w)
    (systick w) (int_master w) (trace w).

Definition set_next_step_outbits (v : Z) (w : world) : world :=
  mkWorld (pwmEnabled w) (probeState w) v (delay w) (probe_invert w) (pwm_ramp w)
    (gpio_data w) (gpio_mis w) (pulse_timer w) (debounce_timer w) (pwm_timer w)
    (systick w) (int_master w) (trace w).

Definition set_delay (v : delay_t) (w : world) : world :=
  mkWorld (pwmEnabled w) (probeState w) (next_step_outbits w) v (probe_invert w) (pwm_ramp w)
    (gpio_data w) (gpio_mis w) (pulse_timer w) (debounce_timer w) (pwm_timer w)
    (systick w) (int_master w) (trace w).

Definition set_probe_invert (v : Z) (w : world) : world :=
  mkWorld (pwmEnabled w) (probeState w) (next_step_outbits w) (delay w) v (pwm_ramp w)
    (gpio_data w) (gpio_mis w) (pulse_timer w) (debounce_timer w) (pwm_timer w)
    (systick w) (int_master w) (trace w).

Definition set_pwm_ramp (v : pwm_ramp_t) (w : world) : world :=
  mkWorld (pwmEnabled w) (probeState w) (next_step_outbits w) (delay w) (probe_invert w) v
    (gpio_data w) (gpio_mis w) (pulse_timer w) (debounce_timer w) (pwm_timer w)
    (systick w) (int_master w) (trace w).

Definition set_gpio_data (v : gmap Z Z) (w : world) : world :=
  mkWorld (pwmEnabled w) (probeState w) (next_step_outbits w) (delay w) (probe_invert w) (pwm_ramp w)
    v (gpio_mis w) (pulse_timer w) (debounce_timer w) (pwm_timer w)
    (systick w) (int_master w) (trace w).

Definition set_gpio_mis (v : gmap Z Z) (w : world) : world :=
  mkWorld (pwmEnabled w) (probeState w) (next_step_outbits w) (delay w) (probe_invert w) (pwm_ramp w)
    (gpio_data w) v (pulse_timer w) (debounce_timer w) (pwm_timer w)
    (systick w) (int_master w) (trace w).

Definition set_systick (v : bool) (w : world) : world :=
  mkWorld (pwmEnabled w) (probeState w) (next_step_outbits w) (delay w) (probe_invert w) (pwm_ramp w)
    (gpio_data w) (gpio_mis w) (pulse_timer w) (debounce_timer w) (pwm_timer w)
    v (int_master w) (trace w).

Definition set_int_master (v : bool) (w : world) : world :=
  mkWorld (pwmEnabled w) (probeState w) (next_step_outbits w) (delay w) (probe_invert w) (pwm_ramp w)
    (gpio_data w) (gpio_mis w) (pulse_timer w) (debounce_timer w) (pwm_timer w)
    (systick w) v (trace w).

Definition set_trace (v : list event) (w : world) : world :=
  mkWorld (pwmEnabled w) (probeState w) (next_step_outbits w) (delay w) (probe_invert w) (pwm_ramp w)
    (gpio_data w) (gpio_mis w) (pulse_timer w) (debounce_timer w) (pwm_timer w)
    (systick w) (int_master w) v.

Definition emit (e : event) (w : world) : world := set_trace (trace w ++ [e]) w.

Definition timer (t : timer_base) (w : world) : gptm :=
  match t with
  | PULSE_TIMER_BASE => pulse_timer w
  | DEBOUNCE_TIMER_BASE => debounce_timer w
  | SPINDLE_PWM_TIMER_BASE => pwm_timer w
  end.

Definition set_timer (t : timer_base) (v : gptm) (w : world) : world :=
  match t with
  | PULSE_TIMER_BASE =>
      mkWorld (pwmEnabled w) (probeState w) (next_step_outbits w) (delay w) (probe_invert w)
        (pwm_ramp w) (gpio_data w) (gpio_mis w) v (debounce_timer w) (pwm_timer w)
        (systick w) (int_master w) (trace w)
  | DEBOUNCE_TIMER_BASE =>
      mkWorld (pwmEnabled w) (probeState w) (next_step_outbits w) (delay w) (probe_invert w)
        (pwm_ramp w) (gpio_data w) (gpio_mis w) (pulse_timer w) v (pwm_timer w)
        (systick w) (int_master w) (trace w)
  | SPINDLE_PWM_TIMER_BASE =>
      mkWorld (pwmEnabled w) (probeState w) (next_step_outbits w) (delay w) (probe_invert w)
        (pwm_ramp w) (gpio_data w) (gpio_mis w) (pulse_timer w) (debounce_timer w) v
        (systick w) (int_master w) (trace w)
  end.

(** The world without its trace: registers and static variables only. *)
Definition registers (w : world) : world := set_trace [] w.

(** ** The peripheral library (TivaWare driverlib) *)

Definition port_read (m : gmap Z Z) (port : Z) : Z := default 0 (m !! port).

(** [GPIOPinRead(port, pins)]: the data register masked by the 8-bit [pins]. *)
Definition GPIOPinRead (port pins : Z) (w : world) : Z :=
  Z.land (port_read (gpio_data w) port) (uint8 pins).

(** [GPIOPinWrite(port, pins, val)]: only the bits of the 8-bit [pins]
    take the corresponding bits of [val]. *)
Definition masked_write (old pins val : Z) : Z :=
  Z.lor (Z.land old (Z.lnot (uint8 pins))) (Z.land (uint8 val) (uint8 pins)).

Definition GPIOPinWrite (port pins val : Z) (w : world) : world :=
  emit (EGPIOPinWrite port pins val)
    (set_gpio_data (<[port := masked_write (port_read (gpio_data w) port) pins val]> (gpio_data w)) w).

Definition GPIOIntStatus (port : Z) (w : world) : Z := port_read (gpio_mis w) port.

Definition GPIOIntClear (port flags : Z) (w : world) : world :=
  emit (EGPIOIntClear port flags)
    (set_gpio_mis (<[port := Z.land (port_read (gpio_mis w) port) (Z.lnot flags)]> (gpio_mis w)) w).

Definition TimerEnable (t : timer_base) (w : world) : world :=
  let r := timer t w in
  emit (ETimerEnable t)
    (set_timer t (mkTimer true (load r) (value r) (matchv r) (prescale r) (prescale_match r) (level r) (mis r)) w).

Definition TimerDisable (t : timer_base) (w : world) : world :=
  let r := timer t w in
  emit (ETimerDisable t)
    (set_timer t (mkTimer false (load r) (value r) (matchv r) (prescale r) (prescale_match r) (level r) (mis r)) w).

(** Writing the interval load register of a down-counting timer also
    restarts the count from the new value. *)
Definition TimerLoadSet (t : timer_base) (v : Z) (w : world) : world :=
  let r := timer t w in
  emit (ETimerLoadSet t v)
    (set_timer t (mkTimer (enabled r) (uint32 v) (uint32 v) (matchv r) (prescale r) (prescale_match r) (level r) (mis r)) w).

Definition TimerMatchSet (t : timer_base) (v : Z) (w : world) : world :=
  let r := timer t w in
  emit (ETimerMatchSet t v)
    (set_timer t (mkTimer (enabled r) (load r) (value r) (uint32 v) (prescale r) (prescale_match r) (level r) (mis r)) w).

Definition TimerPrescaleSet (t : timer_base) (v : Z) (w : world) : world :=
  let r := timer t w in
  emit (ETimerPrescaleSet t v)
    (set_timer t (mkTimer (enabled r) (load r) (value r) (matchv r) (uint32 v) (prescale_match r) (level r) (mis r)) w).

Definition TimerPrescaleMatchSet (t : timer_base) (v : Z) (w : world) : world :=
  let r := timer t w in
  emit (ETimerPrescaleMatchSet t v)
    (set_timer t (mkTimer (enabled r) (load r) (value r) (matchv r) (prescale r) (uint32 v) (level r) (mis r)) w).

Definition TimerControlLevel (t : timer_base) (invert : bool) (w : world) : world :=
  let r := timer t w in
  emit (ETimerControlLevel t invert)
    (set_timer t (mkTimer (enabled r) (load r) (value r) (matchv r) (prescale r) (prescale_match r) invert (mis r)) w).

(** [TimerIntStatus(base, true)]: the masked interrupt status. *)
Definition TimerIntStatus (t : timer_base) (w : world) : Z := mis (timer t w).

Definition TimerIntClear (t : timer_base) (flags : Z) (w : world) : world :=
  let r := timer t w in
  emit (ETimerIntClear t flags)
    (set_timer t (mkTimer (enabled r) (load r) (value r) (matchv r) (prescale r) (prescale_match r) (level r)
                    (Z.land (mis r) (Z.lnot flags))) w).

Definition SysTickEnable (w : world) : world := emit ESysTickEnable (set_systick true w).
Definition SysTickDisable (w : world) : world := emit ESysTickDisable (set_systick false w).
Definition IntMasterDisable (w : world) : world := emit EIntMasterDisable (set_int_master false w).
Definition IntMasterEnable (w : world) : world := emit EIntMasterEnable (set_int_master true w).

(** ** The driver *)

Record stepper_t : Type := mkStepper {
  new_block : bool;
  dir_outbits : Z;     (* axes_signals_t, bit0 -> X, bit1 -> Y, bit2 -> Z *)
  step_outbits : Z
}.

(** [l[i]] for the eight-entry output maps; a signals value indexes
    within them, outside the C is undefined and the model reads 0. *)
Definition table (l : list Z) (i : Z) : Z := nth (Z.to_nat i) l 0.

(** [c ? 1 : 0] placed at bit [i] of a signals bitfield. *)
Definition bitfield (i : Z) (c : bool) : Z := if c then Z.shiftl 1 i else 0.

Section Driver.

Context {cfg : driver_config}.

Definition c_step_outmap : list Z :=
  map uint8
    [0; X_STEP_PIN; Y_STEP_PIN; Z.lor X_STEP_PIN Y_STEP_PIN; Z_STEP_PIN;
     Z.lor X_STEP_PIN Z_STEP_PIN; Z.lor Y_STEP_PIN Z_STEP_PIN;
     Z.lor (Z.lor X_STEP_PIN Y_STEP_PIN) Z_STEP_PIN].

Definition c_dir_outmap : list Z :=
  map uint8
    [0; X_DIRECTION_PIN; Y_DIRECTION_PIN; Z.lor X_DIRECTION_PIN Y_DIRECTION_PIN; Z_DIRECTION_PIN;
     Z.lor X_DIRECTION_PIN Z_DIRECTION_PIN; Z.lor Y_DIRECTION_PIN Z_DIRECTION_PIN;
     Z.lor (Z.lor X_DIRECTION_PIN Y_DIRECTION_PIN) Z_DIRECTION_PIN].

(** The tables [settings_changed] fills in:
    [step_outmap[i] = c_step_outmap[i] ^ c_step_outmap[step_invert.mask]]. *)
Definition step_outmap : list Z :=
  map (fun c => Z.lxor c (table c_step_outmap (step_invert settings))) c_step_outmap.

Definition dir_outmap : list Z :=
  map (fun c => Z.lxor c (table c_dir_outmap (dir_invert settings))) c_dir_outmap.

(** The value [set_step_outputs] hands to [GPIOPinWrite], by [STEP_OUTMODE]. *)
Definition step_pattern (step_outbits : Z) : Z :=
  match STEP_OUTMODE with
  | GPIO_MAP => table step_outmap step_outbits
  | GPIO_SHIFT n => Z.shiftl (Z.lxor step_outbits (step_invert settings)) n
  end.

Definition dir_pattern (dir_outbits : Z) : Z :=
  match DIRECTION_OUTMODE with
  | GPIO_MAP => table dir_outmap dir_outbits
  | GPIO_SHIFT n => Z.shiftl (Z.lxor dir_outbits (dir_invert settings)) n
  end.

Definition set_step_outputs (step_outbits : Z) (w : world) : world :=
  GPIOPinWrite STEP_PORT HWSTEP_MASK (step_pattern step_outbits) w.

Definition set_dir_outputs (dir_outbits : Z) (w : world) : world :=
  GPIOPinWrite DIRECTION_PORT HWDIRECTION_MASK (dir_pattern dir_outbits) w.

(** [SPINDLE_SYNC_ENABLE] is not defined: the plain branch is compiled. *)
Definition stepperPulseStart (stepper : stepper_t) (w : world) : stepper_t * world :=
  let '(stepper, w) :=
    if new_block stepper
    then (mkStepper false (dir_outbits stepper) (step_outbits stepper),
          set_dir_outputs (dir_outbits stepper) w)
    else (stepper, w) in
  if nonzero (step_outbits stepper)
  then (stepper, TimerEnable PULSE_TIMER_BASE (set_step_outputs (step_outbits stepper) w))
  else (stepper, w).

Definition stepperPulseStartDelayed (stepper : stepper_t) (w : world) : stepper_t * world :=
  let '(stepper, w) :=
    if new_block stepper
    then (mkStepper false (dir_outbits stepper) (step_outbits stepper),
          set_dir_outputs (dir_outbits stepper) w)
    else (stepper, w) in
  if nonzero (step_outbits stepper)
  then (stepper, TimerEnable PULSE_TIMER_BASE (set_next_step_outbits (step_outbits stepper) w))
  else (stepper, w).

Definition stepper_pulse_isr (w : world) : world :=
  let w := TimerIntClear PULSE_TIMER_BASE TIMER_TIMA_TIMEOUT w in
  set_step_outputs 0 w.

Definition stepper_pulse_isr_delayed (w : world) : world :=
  let iflags := TimerIntStatus PULSE_TIMER_BASE w in
  let w := TimerIntClear PULSE_TIMER_BASE iflags w in
  set_step_outputs (if nonzero (Z.land iflags TIMER_TIMA_MATCH) then next_step_outbits w else 0) w.

(** The local [signals] is not initialised in the source; the bits above
    [z] are taken as clear. *)
Definition limitsGetState (w : world) : Z :=
  let flags := GPIOPinRead LIMIT_PORT HWLIMIT_MASK w in
  let signals :=
    Z.lor (Z.lor (bitfield 0 (nonzero (Z.land flags X_LIMIT_PIN)))
                 (bitfield 1 (nonzero (Z.land flags Y_LIMIT_PIN))))
          (bitfield 2 (nonzero (Z.land flags Z_LIMIT_PIN))) in
  if nonzero (limits_invert settings)
  then Z.lxor signals (limits_invert settings)
  else signals.

Definition probeGetState (w : world) : bool :=
  nonzero (Z.lxor (uint8 (GPIOPinRead PROBE_PORT PROBE_PIN w)) (probe_invert w)).

Definition spindle_off (w : world) : world :=
  GPIOPinWrite SPINDLE_ENABLE_PORT SPINDLE_ENABLE_PIN
    (if spindle_invert_on settings then SPINDLE_ENABLE_PIN else 0) w.

Definition spindle_on (w : world) : world :=
  GPIOPinWrite SPINDLE_ENABLE_PORT SPINDLE_ENABLE_PIN
    (if spindle_invert_on settings then 0 else SPINDLE_ENABLE_PIN) w.

Definition software_debounce_isr (w : world) : world :=
  let w := TimerIntClear DEBOUNCE_TIMER_BASE TIMER_TIMA_TIMEOUT w in
  let state := limitsGetState w in
  if nonzero state then emit (Elimit_interrupt_callback state) w else w.

Definition limit_isr (w : world) : world :=
  let iflags := GPIOIntStatus LIMIT_PORT w in
  let w := GPIOIntClear LIMIT_PORT iflags w in
  if nonzero (Z.land iflags HWLIMIT_MASK)
  then emit (Elimit_interrupt_callback (limitsGetState w)) w
  else if nonzero (Z.land iflags PROBE_PIN)
       then set_probeState (nonzero (probe_invert w)) w
       else w.

Definition limit_isr_debounced (w : world) : world :=
  let iflags := GPIOIntStatus LIMIT_PORT w in
  let w := GPIOIntClear LIMIT_PORT iflags w in
  if nonzero (Z.land iflags HWLIMIT_MASK)
  then
    let w := TimerLoadSet DEBOUNCE_TIMER_BASE 32000 w in
    TimerEnable DEBOUNCE_TIMER_BASE w
  else if nonzero (Z.land iflags PROBE_PIN)
       then set_probeState (nonzero (probe_invert w)) w
       else w.

(** The atomic helpers act on the word [ptr] points to: they take its
    content and give back its new content. *)
Definition bitsSetAtomic (cell bits : Z) (w : world) : Z * world :=
  let w := IntMasterDisable w in
  let cell := Z.lor cell bits in
  let w := IntMasterEnable w in
  (cell, w).

(** Result: the returned [prev], the new content of [*ptr], the world. *)
Definition bitsClearAtomic (cell bits : Z) (w : world) : Z * Z * world :=
  let w := IntMasterDisable w in
  let prev := cell in
  let cell := Z.land cell (uint_fast16 (Z.lnot bits)) in
  let w := IntMasterEnable w in
  (prev, cell, w).

Definition valueSetAtomic (cell value : Z) (w : world) : Z * Z * world :=
  let w := IntMasterDisable w in
  let prev := cell in
  let cell := value in
  let w := IntMasterEnable w in
  (prev, cell, w).

End Driver.

(** ** Variable spindle and the tick handler, [#if PWM_RAMPED] *)

Module Ramped.
Section Driver.

Context {cfg : driver_config}.

Definition spindle_set_speed (pwm_value : Z) (w : world) : Z * world :=
  if pwm_value =? off_value spindle_pwm then
    let r := pwm_ramp w in
    let w := set_pwm_ramp (mkRamp (ms_cfg r) (ramp_ms r) (pwm_current r) 0 (pwm_step r)) w in
    let r := pwm_ramp w in
    let w := set_pwm_ramp
               (mkRamp (ms_cfg r) (ramp_ms r) (pwm_current r) (pwm_target r) (- SPINDLE_RAMP_STEP_INCR)) w in
    let r := pwm_ramp w in
    let w := set_pwm_ramp (mkRamp (ms_cfg r) 0 (pwm_current r) (pwm_target r) (pwm_step r)) w in
    let r := pwm_ramp w in
    let w := set_pwm_ramp
               (mkRamp SPINDLE_RAMP_STEP_TIME (ramp_ms r) (pwm_current r) (pwm_target r) (pwm_step r)) w in
    (pwm_value, SysTickEnable w)
  else
    let w :=
      if negb (pwmEnabled w) then
        let w := spindle_on w in
        let w := set_pwmEnabled true w in
        let r := pwm_ramp w in
        let w := set_pwm_ramp
                   (mkRamp (ms_cfg r) 0 (int32 (min_value spindle_pwm)) (pwm_target r) (pwm_step r)) w in
        let w := TimerMatchSet SPINDLE_PWM_TIMER_BASE
                   (period spindle_pwm - pwm_current (pwm_ramp w) + 15) w in
        let w := TimerLoadSet SPINDLE_PWM_TIMER_BASE (period spindle_pwm) w in
        TimerEnable SPINDLE_PWM_TIMER_BASE w
      else w in
    let r := pwm_ramp w in
    let target := int32 pwm_value in
    let step := if target <? pwm_current r
                then - SPINDLE_RAMP_STEP_INCR else SPINDLE_RAMP_STEP_INCR in
    let w := set_pwm_ramp (mkRamp SPINDLE_RAMP_STEP_TIME (ramp_ms r) (pwm_current r) target step) w in
    let w := TimerControlLevel SPINDLE_PWM_TIMER_BASE false w in
    (pwm_value, SysTickEnable w).

(** The ramp part of the tick handler, entered when [ms_cfg] is set. *)
Definition ramp_step (w : world) : world :=
  let r := pwm_ramp w in
  let count := uint32 (ramp_ms r + 1) in
  if count =? ms_cfg r then
    let current := int32 (pwm_current r + pwm_step r) in
    let '(current, w) :=
      if pwm_step r <? 0 then
        let current := if current <? pwm_target r then pwm_target r else current in
        if current =? 0 then
          let w := if disable_with_zero_speed settings then spindle_off w else w in
          let w := TimerLoadSet SPINDLE_PWM_TIMER_BASE (period spindle_pwm + 20000) w in
          let w := TimerDisable SPINDLE_PWM_TIMER_BASE w in
          let w := if pwmEnabled w
                   then TimerControlLevel SPINDLE_PWM_TIMER_BASE true w else w in
          (current, set_pwmEnabled false w)
        else
          (current, TimerMatchSet SPINDLE_PWM_TIMER_BASE (period spindle_pwm - current) w)
      else
        let current := if current >? pwm_target r then pwm_target r else current in
        (current, TimerMatchSet SPINDLE_PWM_TIMER_BASE (period spindle_pwm - current) w) in
    set_pwm_ramp
      (mkRamp (if current =? pwm_target r then 0 else ms_cfg r) 0 current (pwm_target r) (pwm_step r)) w
  else
    set_pwm_ramp (mkRamp (ms_cfg r) count (pwm_current r) (pwm_target r) (pwm_step r)) w.

(** [if(delay.ms && !(--delay.ms) && delay.callback)] *)
Definition delay_step (w : world) : world :=
  let d := delay w in
  if nonzero (ms d) then
    let left := uint32 (ms d - 1) in
    let w := set_delay (mkDelay left (callback d)) w in
    if negb (nonzero left) && nonzero (callback d) then
      let w := emit (Edelay_callback (callback d)) w in
      set_delay (mkDelay (ms (delay w)) 0) w
    else w
  else w.

Definition systick_isr (w : world) : world :=
  let w := if nonzero (ms_cfg (pwm_ramp w)) then ramp_step w else w in
  let w := delay_step w in
  if negb (nonzero (ms (delay w)) || nonzero (ms_cfg (pwm_ramp w)))
  then SysTickDisable w
  else w.

End Driver.
End Ramped.

Module Direct.
Section Driver.

Context {cfg : driver_config}.

Definition spindle_set_speed (pwm_value : Z) (w : world) : world :=
  if pwm_value =? off_value spindle_pwm then
    let w := set_pwmEnabled false w in
    let w := if disable_with_zero_speed settings then spindle_off w else w in
    if always_on spindle_pwm then
      let w := TimerPrescaleMatchSet SPINDLE_PWM_TIMER_BASE (Z.shiftr (off_value spindle_pwm) 16) w in
      let w := TimerMatchSet SPINDLE_PWM_TIMER_BASE (Z.land (off_value spindle_pwm) 65535) w in
      let w := TimerControlLevel SPINDLE_PWM_TIMER_BASE (negb (spindle_invert_pwm settings)) w in
      TimerEnable SPINDLE_PWM_TIMER_BASE w
    else
      let pwm := uint_fast16 (period spindle_pwm + 20000) in
      let w := TimerPrescaleSet SPINDLE_PWM_TIMER_BASE (Z.shiftr pwm 16) w in
      let w := TimerLoadSet SPINDLE_PWM_TIMER_BASE (Z.land pwm 65535) w in
      let w := if negb (pwmEnabled w) then TimerEnable SPINDLE_PWM_TIMER_BASE w else w in
      let w := TimerControlLevel SPINDLE_PWM_TIMER_BASE (negb (spindle_invert_pwm settings)) w in
      TimerDisable SPINDLE_PWM_TIMER_BASE w
  else
    let w := TimerPrescaleMatchSet SPINDLE_PWM_TIMER_BASE (Z.shiftr pwm_value 16) w in
    let w := TimerMatchSet SPINDLE_PWM_TIMER_BASE (Z.land pwm_value 65535) w in
    if negb (pwmEnabled w) then
      let w := spindle_on w in
      let w := set_pwmEnabled true w in
      let w := TimerPrescaleSet SPINDLE_PWM_TIMER_BASE (Z.shiftr (period spindle_pwm) 16) w in
      let w := TimerLoadSet SPINDLE_PWM_TIMER_BASE (Z.land (period spindle_pwm) 65535) w in
      let w := TimerControlLevel SPINDLE_PWM_TIMER_BASE (negb (spindle_invert_pwm settings)) w in
      TimerEnable SPINDLE_PWM_TIMER_BASE w
    else w.

Definition systick_isr (w : world) : world :=
  let d := delay w in
  let left := uint32 (ms d - 1) in
  let w := set_delay (mkDelay left (callback d)) w in
  if negb (nonzero left) then
    let w := SysTickDisable w in
    if nonzero (callback (delay w)) then
      let w := emit (Edelay_callback (callback (delay w))) w in
      set_delay (mkDelay (ms (delay w)) NULL) w
    else w
  else w.

End Driver.
End Direct.

(** ** The tick source and [driver_delay_ms] *)

(** Which of the two builds is compiled. *)
Inductive build : Type :=
| PWM_RAMPED
| PWM_DIRECT.

Section Scheduler.

Context {cfg : driver_config}.

Definition systick_isr (b : build) : world -> world :=
  match b with
  | PWM_RAMPED => Ramped.systick_isr
  | PWM_DIRECT => Direct.systick_isr
  end.

(** One period (1 ms) of the SysTick counter: the handler runs when the
    counter is enabled. *)
Definition systick_tick (b : build) (w : world) : world :=
  if systick w then systick_isr b w else w.

Fixpoint systick_ticks (b : build) (n : nat) (w : world) : world :=
  match n with
  | O => w
  | S n => systick_ticks b n (systick_tick b w)
  end.

(** [while(delay.ms);] with the tick interrupt pre-empting the loop; each
    unit of [fuel] lets one tick period pass. *)
Fixpoint busy_wait (b : build) (fuel : nat) (w : world) : option world :=
  if nonzero (ms (delay w)) then
    match fuel with
    | O => None
    | S fuel => busy_wait b fuel (systick_tick b w)
    end
  else Some w.

Definition driver_delay_ms (b : build) (fuel : nat) (n_ms fn : Z) (w : world) : option world :=
  let w := if nonzero (callback (delay w))
           then emit (Edelay_callback (callback (delay w))) w else w in
  if nonzero n_ms then
    let w := set_delay (mkDelay n_ms (callback (delay w))) w in
    let w := SysTickEnable w in
    let w := set_delay (mkDelay (ms (delay w)) fn) w in
    if negb (nonzero fn) then busy_wait b fuel w else Some w
  else
    let w := if nonzero (ms (delay w)) then set_delay (mkDelay 1 NULL) w else w in
    Some (if nonzero fn then emit (Edelay_callback fn) w else w).

(** ** The debounce timer and the limit inputs *)

(** One count (1 us at prescale 79) of the one-shot debounce timer: at the
    end of the count the timer stops, raises its time-out interrupt and
    [software_debounce_isr], registered for it, runs. *)
Definition debounce_count (w : world) : world :=
  let r := debounce_timer w in
  if enabled r then
    if value r <=? 1 then
      software_debounce_isr
        (set_timer DEBOUNCE_TIMER_BASE
           (mkTimer false (load r) (load r) (matchv r) (prescale r) (prescale_match r) (level r)
              (Z.lor (mis r) TIMER_TIMA_TIMEOUT)) w)
    else
      set_timer DEBOUNCE_TIMER_BASE
        (mkTimer true (load r) (value r - 1) (matchv r) (prescale r) (prescale_match r) (level r)
           (mis r)) w
  else w.

Fixpoint debounce_counts (n : nat) (w : world) : world :=
  match n with
  | O => w
  | S n => debounce_counts n (debounce_count w)
  end.

(** The pins of [LIMIT_PORT] take the levels [pins]; the edges detected
    latch [iflags] in the port's interrupt status and the limit handler
    registered with software debounce runs. *)
Definition limit_edge (pins iflags : Z) (w : world) : world :=
  let w := set_gpio_data (<[LIMIT_PORT := pins]> (gpio_data w)) w in
  let w := set_gpio_mis
             (<[LIMIT_PORT := Z.lor (port_read (gpio_mis w) LIMIT_PORT) iflags]> (gpio_mis w)) w in
  limit_isr_debounced w.

(** A burst: each edge is followed by a gap of [gap] timer counts. *)
Fixpoint burst (edges : list (Z * Z * nat)) (w : world) : world :=
  match edges with
  | [] => w
  | (pins, iflags, gap) :: edges => burst edges (debounce_counts gap (limit_edge pins iflags w))
  end.

(** Upstream limit notifications in a trace. *)
Fixpoint notifications (tr : list event) : list Z :=
  match tr with
  | [] => []
  | Elimit_interrupt_callback state :: tr => state :: notifications tr
  | _ :: tr => notifications tr
  end.

(** Invocations of the delay callback [fn] in a trace. *)
Fixpoint invocations (fn : Z) (tr : list event) : nat :=
  match tr with
  | [] => O
  | Edelay_callback g :: tr => ((if (g =? fn)%Z then 1 else 0) + invocations fn tr)%nat
  | _ :: tr => invocations fn tr
  end.

End Scheduler.

(** ** The stepper side as a sequence of events *)

Inductive pulse_mode : Type :=
| Immediate       (* pulse_delay_microseconds = 0 *)
| Delayed.

(** A step command from the executor, or the pulse timer raising the
    interrupt flags [flags]. *)
Inductive stepper_event : Type :=
| Command (c : stepper_t)
| PulseInterrupt (flags : Z).

Section Stepper.

Context {cfg : driver_config}.

(** [hal.stepper_pulse_start] and the pulse timer handler as
    [settings_changed] registers them. *)
Definition stepper_pulse_start (m : pulse_mode) : stepper_t -> world -> stepper_t * world :=
  match m with
  | Immediate => stepperPulseStart
  | Delayed => stepperPulseStartDelayed
  end.

Definition pulse_handler (m : pulse_mode) : world -> world :=
  match m with
  | Immediate => stepper_pulse_isr
  | Delayed => stepper_pulse_isr_delayed
  end.

Definition raise_pulse_interrupt (flags : Z) (w : world) : world :=
  let r := pulse_timer w in
  set_timer PULSE_TIMER_BASE
    (mkTimer (enabled r) (load r) (value r) (matchv r) (prescale r) (prescale_match r) (level r)
       (Z.lor (mis r) flags)) w.

Definition stepper_step (m : pulse_mode) (e : stepper_event) (w : world) : world :=
  match e with
  | Command c => snd (stepper_pulse_start m c w)
  | PulseInterrupt flags => pulse_handler m (raise_pulse_interrupt flags w)
  end.

Fixpoint stepper_run (m : pulse_mode) (es : list stepper_event) (w : world) : world :=
  match es with
  | [] => w
  | e :: es => stepper_run m es (stepper_step m e w)
  end.

Definition within_block (e : stepper_event) : Prop :=
  match e with
  | Command c => new_block c = false
  | PulseInterrupt _ => True
  end.

(** The levels of the step and direction output pins. *)
Definition step_pins (w : world) : Z := GPIOPinRead STEP_PORT HWSTEP_MASK w.
Definition dir_pins (w : world) : Z := GPIOPinRead DIRECTION_PORT HWDIRECTION_MASK w.

(** The step and direction pins share no pin of a port. *)
Definition outputs_disjoint : Prop :=
  STEP_PORT <> DIRECTION_PORT \/ Z.land (uint8 HWSTEP_MASK) (uint8 HWDIRECTION_MASK) = 0.

(** The peripheral calls of the pulse part of a step command. *)
Definition pulse_events (m : pulse_mode) (c : stepper_t) : list event :=
  if nonzero (step_outbits c) then
    match m with
    | Immediate =>
        [EGPIOPinWrite STEP_PORT HWSTEP_MASK (step_pattern (step_outbits c));
         ETimerEnable PULSE_TIMER_BASE]
    | Delayed => [ETimerEnable PULSE_TIMER_BASE]
    end
  else [].

Definition dir_events (c : stepper_t) : list event :=
  if new_block c
  then [EGPIOPinWrite DIRECTION_PORT HWDIRECTION_MASK (dir_pattern (dir_outbits c))]
  else [].

End Stepper.

(** ** A concrete board and start state *)

Definition example_settings : settings_t :=
  {| step_invert := 0; dir_invert := 0; limits_invert := 0;
     spindle_invert_on := false; spindle_invert_pwm := false;
     disable_with_zero_speed := true |}.

Definition example_spindle_pwm : spindle_pwm_t :=
  {| period := 8000; off_value := 0; min_value := 80; always_on := false |}.

Definition example_config : driver_config :=
  {| STEP_PORT := 1073770496; HWSTEP_MASK := 14;
     X_STEP_PIN := 2; Y_STEP_PIN := 4; Z_STEP_PIN := 8; STEP_OUTMODE := GPIO_MAP;
     DIRECTION_PORT := 1073770496; HWDIRECTION_MASK := 112;
     X_DIRECTION_PIN := 16; Y_DIRECTION_PIN := 32; Z_DIRECTION_PIN := 64;
     DIRECTION_OUTMODE := GPIO_SHIFT 4;
     LIMIT_PORT := 1073758208; HWLIMIT_MASK := 7;
     X_LIMIT_PIN := 1; Y_LIMIT_PIN := 2; Z_LIMIT_PIN := 4;
     PROBE_PORT := 1073758208; PROBE_PIN := 32;
     SPINDLE_ENABLE_PORT := 1073774592; SPINDLE_ENABLE_PIN := 2;
     settings := example_settings; spindle_pwm := example_spindle_pwm |}.

Definition timer_reset : gptm := mkTimer false 0 0 0 0 0 false 0.

(** The static initialisers of the module, peripherals at reset. *)
Definition world_reset : world :=
  mkWorld false false 0 (mkDelay 1 NULL) 0 (mkRamp 0 0 0 0 0)
    ∅ ∅ timer_reset timer_reset timer_reset false true [].

(** ** Notions the properties are stated with *)

(** The debounce window in timer counts. *)
Definition window : nat := Z.to_nat 32000.

(** The delay countdown in a world: [k] ms left, callback [fn] stored. *)
Definition counting (k fn : Z) (w : world) : Prop :=
  ms (delay w) = k /\ callback (delay w) = fn /\ systick w = true.

(** The countdown is over and no callback is stored. *)
Definition expired (b : build) (w : world) : Prop :=
  ms (delay w) = 0 /\ callback (delay w) = NULL /\ (b = PWM_DIRECT -> systick w = false).

(** What [delay_step] leaves in [delay], and whether it calls back. *)
Definition delay_fires (d : delay_t) : bool :=
  nonzero (ms d) && negb (nonzero (uint32 (ms d - 1))) && nonzero (callback d).

Definition delay_next (d : delay_t) : delay_t :=
  if nonzero (ms d)
  then mkDelay (uint32 (ms d - 1)) (if delay_fires d then 0 else callback d)
  else d.

(** A PWM value from which one ramp step cannot leave [int32_t]. *)
Definition pwm_range (x : Z) : Prop := - 2 ^ 31 + 20 <= x < 2 ^ 31 - 20.

(** The steps [spindle_set_speed] may pick for a ramp from [c0] to [t]. *)
Definition ramp_dir (c0 t step : Z) : Prop :=
  (t < c0 -> step = - SPINDLE_RAMP_STEP_INCR)
  /\ (c0 < t -> step = SPINDLE_RAMP_STEP_INCR)
  /\ (step = - SPINDLE_RAMP_STEP_INCR \/ step = SPINDLE_RAMP_STEP_INCR).

(** Where a ramp from [c0] to [t] stands after [k] ramp steps. *)
Definition ramp_value (c0 t k : Z) : Z :=
  if t <? c0
  then Z.max t (c0 - SPINDLE_RAMP_STEP_INCR * k)
  else Z.min t (c0 + SPINDLE_RAMP_STEP_INCR * k).

(** The cadence [ms_cfg] after [k] ramp steps: cleared by the step that
    lands on the target. *)
Definition ramp_cfg (c0 t k : Z) : Z :=
  if (0 <? k) && (ramp_value c0 t k =? t) then 0 else SPINDLE_RAMP_STEP_TIME.

(** The world [k] ramp steps into a ramp from [c0] to [t], between steps. *)
Definition ramp_at (c0 t step : Z) (k : nat) (w : world) : Prop :=
  pwm_ramp w =
    mkRamp (ramp_cfg c0 t (Z.of_nat k)) 0 (ramp_value c0 t (Z.of_nat k)) t step
  /\ (ms_cfg (pwm_ramp w) <> 0 -> systick w = true).

(** The same world one tick later, half way to the next ramp step. *)
Definition ramp_half (c0 t step : Z) (k : nat) (w : world) : Prop :=
  pwm_ramp w = mkRamp SPINDLE_RAMP_STEP_TIME 1 (ramp_value c0 t (Z.of_nat k)) t step
  /\ ramp_cfg c0 t (Z.of_nat k) = SPINDLE_RAMP_STEP_TIME
  /\ systick w = true.

(** The probe pin is high and its rising edge is pending on the port it
    shares with the limit pins; [probe_invert] is 0 and [probeState] holds
    [true] from before. *)
Definition probe_edge_world : world :=
  set_probeState true
    (set_gpio_mis {[ 1073758208 := 32 ]}
       (set_gpio_data {[ 1073758208 := 32 ]} world_reset)).

(** The probe input configured active low ([probe_invert] is the pin's
    mask): the pin is low and its falling edge is pending. *)
Definition probe_release_world : world :=
  set_probe_invert 32
    (set_gpio_mis {[ 1073758208 := 32 ]}
       (set_gpio_data {[ 1073758208 := 0 ]} world_reset)).

(** ** Coolant, spindle state, probe and limit set-up

    The remaining pin-level functions of the driver.  Their pins and the
    settings they read are the fields of [io_config]. *)

(** [coolant_state_t]: the two named bits and the rest of [value]. *)
Record coolant_state_t : Type := mkCoolant {
  flood : bool;
  mist : bool;
  coolant_rest : Z
}.

(** [spindle_state_t]: the bits the driver names. *)
Record spindle_state_t : Type := mkSpindle {
  on : bool;
  ccw : bool;
  pwm : bool;
  at_speed : bool
}.

(** [a.value ^= b.mask], bit by bit. *)
Definition xor_coolant (a b : coolant_state_t) : coolant_state_t :=
  mkCoolant (xorb (flood a) (flood b)) (xorb (mist a) (mist b))
            (Z.lxor (coolant_rest a) (coolant_rest b)).

Definition xor_spindle (a b : spindle_state_t) : spindle_state_t :=
  mkSpindle (xorb (on a) (on b)) (xorb (ccw a) (ccw b)) (xorb (pwm a) (pwm b))
            (xorb (at_speed a) (at_speed b)).

Class io_config : Type := {
  COOLANT_FLOOD_PORT : Z;
  COOLANT_FLOOD_PIN : Z;
  COOLANT_MIST_PORT : Z;
  COOLANT_MIST_PIN : Z;
  SPINDLE_DIRECTION_PORT : Z;
  SPINDLE_DIRECTION_PIN : Z;
  coolant_invert : coolant_state_t;   (* settings.coolant_invert *)
  spindle_invert_ccw : bool;          (* settings.spindle.invert.ccw *)
  spindle_dir_cap : bool;             (* hal.driver_cap.spindle_dir *)
  invert_probe_pin : bool;            (* settings.flags.invert_probe_pin *)
  hard_limits_enabled : bool          (* settings.limits.flags.hard_enabled *)
}.

(** The interrupt set-up of the GPIO ports: the interrupt mask and, for
    the edge-triggered pins, which of them trigger on the falling edge. *)
Record gpio_irq : Type := mkIrq {
  irq_mask : gmap Z Z;
  irq_falling : gmap Z Z
}.

Definition GPIOIntEnable (port flags : Z) (q : gpio_irq) : gpio_irq :=
  mkIrq (<[port := Z.lor (port_read (irq_mask q) port) flags]> (irq_mask q)) (irq_falling q).

Definition GPIOIntDisable (port flags : Z) (q : gpio_irq) : gpio_irq :=
  mkIrq (<[port := Z.land (port_read (irq_mask q) port) (Z.lnot flags)]> (irq_mask q))
        (irq_falling q).

(** [GPIOIntTypeSet(port, pins, GPIO_FALLING_EDGE or GPIO_RISING_EDGE)]. *)
Definition GPIOIntTypeSet (port pins : Z) (falling : bool) (q : gpio_irq) : gpio_irq :=
  mkIrq (irq_mask q)
        (<[port := if falling
                   then Z.lor (port_read (irq_falling q) port) (uint8 pins)
                   else Z.land (port_read (irq_falling q) port) (Z.lnot (uint8 pins))]>
           (irq_falling q)).

Section Peripherals.

Context {cfg : driver_config} {io : io_config}.

Definition coolantSetState (mode : coolant_state_t) (w : world) : world :=
  let mode := xor_coolant mode coolant_invert in
  let w := GPIOPinWrite COOLANT_FLOOD_PORT COOLANT_FLOOD_PIN
             (if flood mode then COOLANT_FLOOD_PIN else 0) w in
  GPIOPinWrite COOLANT_MIST_PORT COOLANT_MIST_PIN
    (if mist mode then COOLANT_MIST_PIN else 0) w.

Definition coolantGetState (w : world) : coolant_state_t :=
  let state :=
    mkCoolant (nonzero (GPIOPinRead COOLANT_FLOOD_PORT COOLANT_FLOOD_PIN w))
              (nonzero (GPIOPinRead COOLANT_MIST_PORT COOLANT_MIST_PIN w)) 0 in
  xor_coolant state coolant_invert.

Definition spindle_dir (ccw : bool) (w : world) : world :=
  GPIOPinWrite SPINDLE_DIRECTION_PORT SPINDLE_DIRECTION_PIN
    (if xorb ccw spindle_invert_ccw then SPINDLE_DIRECTION_PIN else 0) w.

(** [spindleSetState(state, rpm)]; [rpm] is not used. *)
Definition spindleSetState (state : spindle_state_t) (w : world) : world :=
  if negb (on state) then spindle_off w
  else
    let w := spindle_dir (ccw state) w in
    spindle_on w.

(** [settings.spindle.invert] as far as the driver's bits go; what else
    the mask holds cancels in the two exclusive-ors of [spindleGetState]. *)
Definition spindle_invert : spindle_state_t :=
  mkSpindle (spindle_invert_on settings) spindle_invert_ccw (spindle_invert_pwm settings) false.

Definition spindleGetState (b : build) (w : world) : spindle_state_t :=
  let state := mkSpindle false false false false in
  let state :=
    mkSpindle (nonzero (GPIOPinRead SPINDLE_ENABLE_PORT SPINDLE_ENABLE_PIN w))
              (ccw state) (pwm state) (at_speed state) in
  let state :=
    if spindle_dir_cap
    then mkSpindle (on state)
                   (nonzero (GPIOPinRead SPINDLE_DIRECTION_PORT SPINDLE_DIRECTION_PIN w))
                   (pwm state) (at_speed state)
    else state in
  let state := xor_spindle state spindle_invert in
  let state :=
    if pwmEnabled w
    then mkSpindle (on state || pwmEnabled w) (ccw state) (pwm state) (at_speed state)
    else state in
  let state := xor_spindle state spindle_invert in
  match b with
  | PWM_RAMPED =>
      mkSpindle (on state) (ccw state) (pwm state)
                (pwm_current (pwm_ramp w) =? pwm_target (pwm_ramp w))
  | PWM_DIRECT => state
  end.


(** [limitsEnable(on, homing)], built without the Trinamic drivers. *)
Definition limitsEnable (on homing : bool) (q : gpio_irq) : gpio_irq :=
  if on && hard_limits_enabled
  then GPIOIntEnable LIMIT_PORT HWLIMIT_MASK q
  else GPIOIntDisable LIMIT_PORT HWLIMIT_MASK q.

(** In the last statement of the source [!=] binds before [^]: the pin
    read is exclusive-or'ed with the truth value of [probe_invert != 0]. *)
Definition probeConfigure (is_probe_away : bool) (s : world * gpio_irq) : world * gpio_irq :=
  let '(w, q) := s in
  let w := set_probe_invert (if invert_probe_pin then 0 else uint8 PROBE_PIN) w in
  let w := if is_probe_away
           then set_probe_invert (uint8 (Z.lxor (probe_invert w) PROBE_PIN)) w
           else w in
  let q := GPIOIntTypeSet PROBE_PORT PROBE_PIN (nonzero (probe_invert w)) q in
  let q := GPIOIntEnable PROBE_PORT PROBE_PIN q in
  let w := set_probeState
             (nonzero (Z.lxor (uint8 (GPIOPinRead PROBE_PORT PROBE_PIN w))
                              (if nonzero (probe_invert w) then 1 else 0))) w in
  (w, q).

End Peripherals.

Definition example_io : io_config :=
  {| COOLANT_FLOOD_PORT := 1073762304; COOLANT_FLOOD_PIN := 64;
     COOLANT_MIST_PORT := 1073770496; COOLANT_MIST_PIN := 128;
     SPINDLE_DIRECTION_PORT := 1073774592; SPINDLE_DIRECTION_PIN := 4;
     coolant_invert := mkCoolant true false 0;
     spindle_invert_ccw := false; spindle_dir_cap := true;
     invert_probe_pin := false; hard_limits_enabled := true |}.

Definition irq_reset : gpio_irq := mkIrq ∅ ∅.

(** The shape of [c_step_outmap] and [c_dir_outmap]: entry [i] holds the
    pins of the axes whose bit is set in [i]. *)
Definition axis_map (x y z : Z) : list Z :=
  map uint8 [0; x; y; Z.lor x y; z; Z.lor x z; Z.lor y z; Z.lor (Z.lor x y) z].

Section PinAssumptions.

Context {cfg : driver_config} {io : io_config}.

(** The two coolant outputs are pins and share none. *)
Definition coolant_pins_ok : Prop :=
  uint8 COOLANT_FLOOD_PIN <> 0 /\ uint8 COOLANT_MIST_PIN <> 0
  /\ (COOLANT_FLOOD_PORT <> COOLANT_MIST_PORT
      \/ Z.land (uint8 COOLANT_FLOOD_PIN) (uint8 COOLANT_MIST_PIN) = 0).

(** The spindle enable and direction outputs are pins and share none. *)
Definition spindle_pins_ok : Prop :=
  uint8 SPINDLE_ENABLE_PIN <> 0 /\ uint8 SPINDLE_DIRECTION_PIN <> 0
  /\ (SPINDLE_DIRECTION_PORT <> SPINDLE_ENABLE_PORT
      \/ Z.land (uint8 SPINDLE_DIRECTION_PIN) (uint8 SPINDLE_ENABLE_PIN) = 0).

End PinAssumptions.

(** A second board: every output inverted, lookup tables for both the
    step and the direction outputs. *)
Definition inverted_settings : settings_t :=
  {| step_invert := 5; dir_invert := 2; limits_invert := 5;
     spindle_invert_on := true; spindle_invert_pwm := true;
     disable_with_zero_speed := false |}.

Definition inverted_config : driver_config :=
  {| STEP_PORT := 1073770496; HWSTEP_MASK := 14;
     X_STEP_PIN := 2; Y_STEP_PIN := 4; Z_STEP_PIN := 8; STEP_OUTMODE := GPIO_MAP;
     DIRECTION_PORT := 1073770496; HWDIRECTION_MASK := 112;
     X_DIRECTION_PIN := 16; Y_DIRECTION_PIN := 32; Z_DIRECTION_PIN := 64;
     DIRECTION_OUTMODE := GPIO_MAP;
     LIMIT_PORT := 1073758208; HWLIMIT_MASK := 7;
     X_LIMIT_PIN := 1; Y_LIMIT_PIN := 2; Z_LIMIT_PIN := 4;
     PROBE_PORT := 1073758208; PROBE_PIN := 32;
     SPINDLE_ENABLE_PORT := 1073774592; SPINDLE_ENABLE_PIN := 2;
     settings := inverted_settings;
     spindle_pwm := {| period := 8000; off_value := 0; min_value := 80; always_on := true |} |}.


(** What drives the spindle: the enable flag, the PWM timer and the pins. *)
Definition spindle_hw (w : world) : bool * gptm * gmap Z Z :=
  (pwmEnabled w, pwm_timer w, gpio_data w).

(** * Properties *)

(** ** Bit-level facts about masked writes *)

Lemma uint8_nonneg x : 0 <= uint8 x.
Proof. unfold uint8, wrap. apply Z.mod_pos_bound. lia. Qed.

Lemma masked_write_read old pins val :
  Z.land (masked_write old pins val) (uint8 pins) = Z.land (uint8 val) (uint8 pins).
Proof.
  unfold masked_write. apply Z.bits_inj'. intros n Hn.
  rewrite !Z.land_spec, Z.lor_spec, !Z.land_spec, Z.lnot_spec by assumption.
  destruct (Z.testbit old n), (Z.testbit (uint8 pins) n), (Z.testbit (uint8 val) n); reflexivity.
Qed.

Lemma masked_write_frame old pins val other :
  Z.land (uint8 pins) other = 0 ->
  Z.land (masked_write old pins val) other = Z.land old other.
Proof.
  intros Hdis. unfold masked_write. apply Z.bits_inj'. intros n Hn.
  assert (Hb : Z.testbit (Z.land (uint8 pins) other) n = false)
    by (rewrite Hdis; apply Z.bits_0).
  rewrite Z.land_spec in Hb.
  rewrite !Z.land_spec, Z.lor_spec, !Z.land_spec, Z.lnot_spec by assumption.
  destruct (Z.testbit old n), (Z.testbit (uint8 pins) n), (Z.testbit (uint8 val) n),
    (Z.testbit other n); simpl in *; congruence.
Qed.

Lemma masked_write_idem old pins val :
  masked_write (masked_write old pins val) pins val = masked_write old pins val.
Proof.
  unfold masked_write. apply Z.bits_inj'. intros n Hn.
  rewrite !Z.lor_spec, !Z.land_spec, !Z.lor_spec, !Z.land_spec, !Z.lnot_spec by assumption.
  destruct (Z.testbit old n), (Z.testbit (uint8 pins) n), (Z.testbit (uint8 val) n); reflexivity.
Qed.

Lemma port_read_insert (m : gmap Z Z) p v : port_read (<[p := v]> m) p = v.
Proof. unfold port_read. by rewrite lookup_insert_eq. Qed.

Lemma port_read_insert_ne (m : gmap Z Z) p q v : p <> q -> port_read (<[p := v]> m) q = port_read m q.
Proof. intros H. unfold port_read. by rewrite lookup_insert_ne. Qed.

Lemma GPIOPinRead_write port pins val w :
  GPIOPinRead port pins (GPIOPinWrite port pins val w) = Z.land (uint8 val) (uint8 pins).
Proof.
  unfold GPIOPinRead, GPIOPinWrite; simpl.
  rewrite port_read_insert. apply masked_write_read.
Qed.

Lemma GPIOPinRead_write_other port pins port' pins' val w :
  port' <> port \/ Z.land (uint8 pins') (uint8 pins) = 0 ->
  GPIOPinRead port pins (GPIOPinWrite port' pins' val w) = GPIOPinRead port pins w.
Proof.
  intros H. unfold GPIOPinRead, GPIOPinWrite; simpl.
  destruct (Z.eq_dec port' port) as [->|Hne].
  - destruct H as [H|H]; [congruence|].
    rewrite port_read_insert. by apply masked_write_frame.
  - by rewrite port_read_insert_ne.
Qed.

Lemma GPIOPinRead_same_data port pins w1 w2 :
  gpio_data w1 = gpio_data w2 -> GPIOPinRead port pins w1 = GPIOPinRead port pins w2.
Proof. unfold GPIOPinRead. by intros ->. Qed.

Lemma nonzero_true x : nonzero x = true <-> x <> 0.
Proof. unfold nonzero. destruct (Z.eqb_spec x 0); simpl; split; congruence. Qed.

Lemma nonzero_false x : nonzero x = false <-> x = 0.
Proof. unfold nonzero. destruct (Z.eqb_spec x 0); simpl; split; congruence. Qed.

(** ** Step pulses and direction outputs *)

Section StepperFacts.

Context {cfg : driver_config}.

Lemma dir_pins_set_dir d w :
  dir_pins (set_dir_outputs d w) = Z.land (uint8 (dir_pattern d)) (uint8 HWDIRECTION_MASK).
Proof. apply GPIOPinRead_write. Qed.

Lemma dir_pins_set_step v w :
  outputs_disjoint -> dir_pins (set_step_outputs v w) = dir_pins w.
Proof. intros H. by apply GPIOPinRead_write_other. Qed.

Lemma step_pins_set_step v w :
  step_pins (set_step_outputs v w) = Z.land (uint8 (step_pattern v)) (uint8 HWSTEP_MASK).
Proof. apply GPIOPinRead_write. Qed.

Lemma step_pins_set_dir d w :
  outputs_disjoint -> step_pins (set_dir_outputs d w) = step_pins w.
Proof.
  intros [H|H]; apply GPIOPinRead_write_other; [left; congruence|right].
  by rewrite Z.land_comm.
Qed.

Lemma dir_pins_TimerEnable t w : dir_pins (TimerEnable t w) = dir_pins w.
Proof. apply GPIOPinRead_same_data. by destruct t. Qed.

Lemma dir_pins_set_next v w : dir_pins (set_next_step_outbits v w) = dir_pins w.
Proof. reflexivity. Qed.

Lemma dir_pins_TimerIntClear t f w : dir_pins (TimerIntClear t f w) = dir_pins w.
Proof. apply GPIOPinRead_same_data. by destruct t. Qed.

Lemma step_pins_TimerEnable t w : step_pins (TimerEnable t w) = step_pins w.
Proof. apply GPIOPinRead_same_data. by destruct t. Qed.

Lemma step_pins_TimerIntClear t f w : step_pins (TimerIntClear t f w) = step_pins w.
Proof. apply GPIOPinRead_same_data. by destruct t. Qed.

Lemma pulse_start_trace m c w :
  trace (snd (stepper_pulse_start m c w)) = trace w ++ dir_events c ++ pulse_events m c.
Proof.
  unfold dir_events, pulse_events.
  destruct m, c as [[] d s]; simpl;
    unfold stepperPulseStart, stepperPulseStartDelayed; simpl;
    destruct (nonzero s); simpl; rewrite <- ?app_assoc, ?app_nil_r; reflexivity.
Qed.

Lemma pulse_start_dir_pins m c w :
  outputs_disjoint ->
  dir_pins (snd (stepper_pulse_start m c w)) =
  if new_block c
  then Z.land (uint8 (dir_pattern (dir_outbits c))) (uint8 HWDIRECTION_MASK)
  else dir_pins w.
Proof.
  intros Hd.
  destruct m, c as [[] d s]; simpl;
    unfold stepperPulseStart, stepperPulseStartDelayed; simpl;
    destruct (nonzero s); simpl;
    rewrite ?dir_pins_TimerEnable, ?dir_pins_set_next, ?dir_pins_set_step by assumption;
    rewrite ?dir_pins_set_dir; reflexivity.
Qed.

Lemma pulse_handler_dir_pins m w :
  outputs_disjoint -> dir_pins (pulse_handler m w) = dir_pins w.
Proof.
  intros Hd. destruct m; simpl;
    unfold stepper_pulse_isr, stepper_pulse_isr_delayed;
    rewrite dir_pins_set_step by assumption; by rewrite dir_pins_TimerIntClear.
Qed.

Lemma stepper_step_dir_pins m e w :
  outputs_disjoint -> within_block e -> dir_pins (stepper_step m e w) = dir_pins w.
Proof.
  intros Hd Hb. destruct e as [c|flags]; simpl in *.
  - rewrite pulse_start_dir_pins by assumption. by rewrite Hb.
  - by rewrite pulse_handler_dir_pins.
Qed.

Lemma stepper_run_dir_pins m es :
  outputs_disjoint -> Forall within_block es ->
  forall w, dir_pins (stepper_run m es w) = dir_pins w.
Proof.
  intros Hd Hall. induction Hall as [|e es He _ IH]; intros w; simpl.
  - reflexivity.
  - rewrite IH. by apply stepper_step_dir_pins.
Qed.

Lemma pulse_start_clears_new_block m c w :
  fst (stepper_pulse_start m c w) = mkStepper false (dir_outbits c) (step_outbits c).
Proof.
  destruct m, c as [[] d s]; simpl;
    unfold stepperPulseStart, stepperPulseStartDelayed; simpl;
    destruct (nonzero s); reflexivity.
Qed.

(** C1: a step command handed to [stepperPulseStart] or
    [stepperPulseStartDelayed] performs the direction write
    [GPIOPinWrite(DIRECTION_PORT, HWDIRECTION_MASK, ..)] for its
    [dir_outbits] if and only if its [new_block] flag is set, and the flag
    is clear in the command it leaves behind, so the command handed in
    again writes no direction.  When step and direction pins are disjoint,
    the direction pins then show the pattern of [dir_outbits] after a
    [new_block] command and are unchanged after any other, and no sequence
    of commands without [new_block], interleaved with pulse interrupts,
    changes them. *)
Theorem direction_written_iff_new_block (m : pulse_mode) (c : stepper_t) (w : world) :
  let c' := fst (stepper_pulse_start m c w) in
  let w' := snd (stepper_pulse_start m c w) in
  trace w' = trace w ++ dir_events c ++ pulse_events m c
  /\ (dir_events c =
        [EGPIOPinWrite DIRECTION_PORT HWDIRECTION_MASK (dir_pattern (dir_outbits c))]
      <-> new_block c = true)
  /\ (dir_events c = [] <-> new_block c = false)
  /\ new_block c' = false
  /\ dir_events c' = []
  /\ (outputs_disjoint ->
      dir_pins w' =
      (if new_block c
       then Z.land (uint8 (dir_pattern (dir_outbits c))) (uint8 HWDIRECTION_MASK)
       else dir_pins w)
      /\ forall es w0, Forall within_block es -> dir_pins (stepper_run m es w0) = dir_pins w0).
Proof.
  cbv zeta. rewrite pulse_start_clears_new_block. repeat split.
  - apply pulse_start_trace.
  - unfold dir_events. destruct (new_block c); congruence.
  - unfold dir_events. by intros ->.
  - unfold dir_events. destruct (new_block c); congruence.
  - unfold dir_events. by intros ->.
  - by apply pulse_start_dir_pins.
  - intros es w0 Hall. by apply stepper_run_dir_pins.
Qed.

Lemma step_pattern_idle : step_invert settings = 0 -> step_pattern 0 = 0.
Proof.
  intros Hinv. unfold step_pattern. destruct STEP_OUTMODE.
  - unfold step_outmap, c_step_outmap, table. rewrite Hinv. reflexivity.
  - rewrite Hinv. apply Z.shiftl_0_l.
Qed.

Lemma match_flag_raised x : Z.land (Z.lor x TIMER_TIMA_MATCH) TIMER_TIMA_MATCH <> 0.
Proof.
  intros H. assert (Hb : Z.testbit (Z.land (Z.lor x TIMER_TIMA_MATCH) TIMER_TIMA_MATCH) 4 = false)
    by (rewrite H; apply Z.bits_0).
  rewrite Z.land_spec, Z.lor_spec in Hb. unfold TIMER_TIMA_MATCH in Hb. simpl in Hb.
  rewrite orb_true_r in Hb. discriminate.
Qed.

Lemma isr_delayed_trace w :
  trace (stepper_pulse_isr_delayed w) =
  trace w ++
  [ETimerIntClear PULSE_TIMER_BASE (TimerIntStatus PULSE_TIMER_BASE w);
   EGPIOPinWrite STEP_PORT HWSTEP_MASK
     (step_pattern (if nonzero (Z.land (TimerIntStatus PULSE_TIMER_BASE w) TIMER_TIMA_MATCH)
                    then next_step_outbits w else 0))].
Proof.
  unfold stepper_pulse_isr_delayed, set_step_outputs, GPIOPinWrite, TimerIntClear, emit; simpl.
  by rewrite <- app_assoc.
Qed.

Lemma isr_delayed_step_pins w :
  step_pins (stepper_pulse_isr_delayed w) =
  Z.land (uint8 (step_pattern
                   (if nonzero (Z.land (TimerIntStatus PULSE_TIMER_BASE w) TIMER_TIMA_MATCH)
                    then next_step_outbits w else 0)))
         (uint8 HWSTEP_MASK).
Proof. unfold stepper_pulse_isr_delayed. by rewrite step_pins_set_step. Qed.

Lemma isr_delayed_flags_cleared w :
  TimerIntStatus PULSE_TIMER_BASE (stepper_pulse_isr_delayed w) = 0.
Proof.
  unfold stepper_pulse_isr_delayed, TimerIntStatus; simpl. apply Z.land_lnot_diag.
Qed.

(** C4: in delayed-pulse mode [stepperPulseStartDelayed], given a
    non-empty step pattern, stores it in [next_step_outbits] and enables
    the pulse timer without a write to the step port.  The handler
    [stepper_pulse_isr_delayed] reads the timer's interrupt status first,
    clears exactly the flags it read, and then writes the step port: with
    the buffered pattern when the match flag is among them, with the empty
    pattern otherwise (a time-out), which is all pins low when no step
    inversion is configured. *)
Theorem delayed_pulse_buffered_then_applied (c : stepper_t) (w : world) :
  step_outbits c <> 0 ->
  let w1 := snd (stepperPulseStartDelayed c w) in
  (next_step_outbits w1 = step_outbits c
   /\ trace w1 = trace w ++ dir_events c ++ [ETimerEnable PULSE_TIMER_BASE]
   /\ enabled (pulse_timer w1) = true
   /\ (outputs_disjoint -> step_pins w1 = step_pins w))
  /\ (forall w2 : world,
        let iflags := TimerIntStatus PULSE_TIMER_BASE w2 in
        let w3 := stepper_pulse_isr_delayed w2 in
        trace w3 =
          trace w2 ++
          [ETimerIntClear PULSE_TIMER_BASE iflags;
           EGPIOPinWrite STEP_PORT HWSTEP_MASK
             (step_pattern (if nonzero (Z.land iflags TIMER_TIMA_MATCH)
                            then next_step_outbits w2 else 0))]
        /\ TimerIntStatus PULSE_TIMER_BASE w3 = 0
        /\ (Z.land iflags TIMER_TIMA_MATCH <> 0 ->
            step_pins w3 = Z.land (uint8 (step_pattern (next_step_outbits w2))) (uint8 HWSTEP_MASK))
        /\ (Z.land iflags TIMER_TIMA_MATCH = 0 ->
            step_pins w3 = Z.land (uint8 (step_pattern 0)) (uint8 HWSTEP_MASK))
        /\ (iflags = TIMER_TIMA_TIMEOUT -> step_invert settings = 0 -> step_pins w3 = 0))
  /\ step_pins (stepper_run Delayed [Command c; PulseInterrupt TIMER_TIMA_MATCH] w) =
       Z.land (uint8 (step_pattern (step_outbits c))) (uint8 HWSTEP_MASK)
  /\ step_pins (stepper_run Delayed
                  [Command c; PulseInterrupt TIMER_TIMA_MATCH; PulseInterrupt TIMER_TIMA_TIMEOUT] w) =
       Z.land (uint8 (step_pattern 0)) (uint8 HWSTEP_MASK).
Proof.
  intros Hs. apply nonzero_true in Hs. cbv zeta.
  assert (Hw1 : snd (stepperPulseStartDelayed c w) =
                TimerEnable PULSE_TIMER_BASE
                  (set_next_step_outbits (step_outbits c)
                     (if new_block c then set_dir_outputs (dir_outbits c) w else w))).
  { unfold stepperPulseStartDelayed. destruct c as [[] d s]; simpl in *; by rewrite Hs. }
  split; [|split; [|split]].
  - rewrite Hw1. repeat split.
    + pose proof (pulse_start_trace Delayed c w) as Ht. simpl in Ht.
      rewrite Hw1 in Ht. rewrite Ht. unfold pulse_events. by rewrite Hs.
    + intros Hd. rewrite step_pins_TimerEnable.
      change (step_pins (set_next_step_outbits ?v ?x)) with (step_pins x).
      destruct (new_block c); [by apply step_pins_set_dir|reflexivity].
  - intros w2. split; [apply isr_delayed_trace|].
    split; [apply isr_delayed_flags_cleared|].
    rewrite isr_delayed_step_pins. repeat split.
    + intros Hm. apply nonzero_true in Hm. by rewrite Hm.
    + intros Hm. apply nonzero_false in Hm. by rewrite Hm.
    + intros Hf Hinv. rewrite Hf. simpl. by rewrite step_pattern_idle.
  - simpl. rewrite isr_delayed_step_pins. rewrite Hw1.
    unfold TimerIntStatus; simpl.
    pose proof (match_flag_raised
                  (mis (pulse_timer (if new_block c then set_dir_outputs (dir_outbits c) w else w))))
      as Hm.
    apply nonzero_true in Hm. by rewrite Hm.
  - simpl. rewrite isr_delayed_step_pins.
    unfold TimerIntStatus at 1; simpl.
    rewrite Z.land_lnot_diag. reflexivity.
Qed.

(** C5: a step command whose [step_outbits] is empty makes
    [stepperPulseStart] and [stepperPulseStartDelayed] do nothing but the
    direction write of a [new_block] command: no step write and no
    [TimerEnable] appear in the trace, the pulse timer and the buffered
    [next_step_outbits] are as before, the step pins keep their levels,
    and without [new_block] the whole state is unchanged.  The functions
    have no error result. *)
Theorem empty_step_bits_no_pulse (m : pulse_mode) (c : stepper_t) (w : world) :
  step_outbits c = 0 ->
  let w' := snd (stepper_pulse_start m c w) in
  w' = (if new_block c then set_dir_outputs (dir_outbits c) w else w)
  /\ trace w' = trace w ++ dir_events c
  /\ pulse_timer w' = pulse_timer w
  /\ next_step_outbits w' = next_step_outbits w
  /\ (new_block c = false -> w' = w)
  /\ (outputs_disjoint -> step_pins w' = step_pins w).
Proof.
  intros Hs. cbv zeta.
  assert (Hw : snd (stepper_pulse_start m c w) =
               if new_block c then set_dir_outputs (dir_outbits c) w else w).
  { destruct m, c as [[] d s]; simpl in *; subst s; reflexivity. }
  rewrite Hw. repeat split.
  - unfold dir_events. destruct (new_block c); simpl; [reflexivity|by rewrite app_nil_r].
  - by destruct (new_block c).
  - by destruct (new_block c).
  - by intros ->.
  - intros Hd. destruct (new_block c); [by apply step_pins_set_dir|reflexivity].
Qed.

End StepperFacts.

(** ** Atomic helpers *)

Lemma testbit_above_range x n i : 0 <= x < 2 ^ n -> 0 <= n <= i -> Z.testbit x i = false.
Proof.
  intros Hx Hi. rewrite <- (Z.mod_small x (2 ^ n)) by assumption.
  by apply Z.mod_pow2_bits_high.
Qed.

Lemma range_of_bits x n :
  0 <= n -> (forall i, n <= i -> Z.testbit x i = false) -> 0 <= x < 2 ^ n.
Proof.
  intros Hn Hhigh.
  assert (Hx : x mod 2 ^ n = x).
  { apply Z.bits_inj'. intros i Hi.
    destruct (Z_lt_le_dec i n) as [Hlt|Hge].
    - by apply Z.mod_pow2_bits_low.
    - rewrite Z.mod_pow2_bits_high by lia. symmetry. by apply Hhigh. }
  rewrite <- Hx. apply Z.mod_pos_bound. by apply Z.pow_pos_nonneg.
Qed.

Section AtomicFacts.

Context {cfg : driver_config}.

(** C10: on words of [uint_fast16_t], [bitsSetAtomic] leaves in [*ptr]
    exactly the old bits together with the bits of the mask,
    [bitsClearAtomic] leaves exactly the old bits outside the mask and
    returns the old content, and [valueSetAtomic] stores the value and
    returns the old content; each runs between [IntMasterDisable] and
    [IntMasterEnable] and performs no other peripheral call. *)
Theorem atomic_helpers_exact (cell bits v : Z) (w : world) :
  0 <= cell < 2 ^ FAST16_BITS ->
  0 <= bits < 2 ^ FAST16_BITS ->
  (forall i, 0 <= i ->
     Z.testbit (fst (bitsSetAtomic cell bits w)) i = Z.testbit cell i || Z.testbit bits i)
  /\ (fst (fst (bitsClearAtomic cell bits w)) = cell
      /\ forall i, 0 <= i ->
           Z.testbit (snd (fst (bitsClearAtomic cell bits w))) i =
           Z.testbit cell i && negb (Z.testbit bits i))
  /\ (fst (fst (valueSetAtomic cell v w)) = cell
      /\ snd (fst (valueSetAtomic cell v w)) = v)
  /\ (0 <= fst (bitsSetAtomic cell bits w) < 2 ^ FAST16_BITS
      /\ 0 <= snd (fst (bitsClearAtomic cell bits w)) < 2 ^ FAST16_BITS)
  /\ (trace (snd (bitsSetAtomic cell bits w)) = trace w ++ [EIntMasterDisable; EIntMasterEnable]
      /\ trace (snd (bitsClearAtomic cell bits w)) = trace w ++ [EIntMasterDisable; EIntMasterEnable]
      /\ trace (snd (valueSetAtomic cell v w)) = trace w ++ [EIntMasterDisable; EIntMasterEnable]).
Proof.
  intros Hc Hb.
  assert (Hn : 0 <= FAST16_BITS) by (unfold FAST16_BITS; lia).
  assert (Hclr : forall i, 0 <= i ->
            Z.testbit (Z.land cell (uint_fast16 (Z.lnot bits))) i =
            Z.testbit cell i && negb (Z.testbit bits i)).
  { intros i Hi. rewrite Z.land_spec. unfold uint_fast16, wrap.
    destruct (Z_lt_le_dec i FAST16_BITS) as [Hlt|Hge].
    - rewrite Z.mod_pow2_bits_low by assumption. by rewrite Z.lnot_spec.
    - by rewrite (testbit_above_range cell FAST16_BITS i). }
  simpl. split; [|split; [|split; [|split; [split|]]]].
  - intros i Hi. by rewrite Z.lor_spec.
  - split; [reflexivity|exact Hclr].
  - split; reflexivity.
  - apply range_of_bits; [assumption|]. intros i Hi.
    rewrite Z.lor_spec, (testbit_above_range cell FAST16_BITS i),
      (testbit_above_range bits FAST16_BITS i) by lia.
    reflexivity.
  - apply range_of_bits; [assumption|]. intros i Hi.
    rewrite Hclr, (testbit_above_range cell FAST16_BITS i) by lia.
    reflexivity.
  - unfold emit; simpl. by rewrite <- app_assoc.
Qed.

End AtomicFacts.

(** ** Probe input *)

Section ProbeFacts.

Context {cfg : driver_config}.

Lemma limit_isr_probe_cache w :
  probeState (limit_isr w) =
  if nonzero (Z.land (GPIOIntStatus LIMIT_PORT w) HWLIMIT_MASK) then probeState w
  else if nonzero (Z.land (GPIOIntStatus LIMIT_PORT w) PROBE_PIN) then nonzero (probe_invert w)
       else probeState w.
Proof.
  unfold limit_isr.
  destruct (nonzero (Z.land (GPIOIntStatus LIMIT_PORT w) HWLIMIT_MASK)); [reflexivity|].
  destruct (nonzero (Z.land (GPIOIntStatus LIMIT_PORT w) PROBE_PIN)); reflexivity.
Qed.

Lemma limit_isr_debounced_probe_cache w :
  probeState (limit_isr_debounced w) =
  if nonzero (Z.land (GPIOIntStatus LIMIT_PORT w) HWLIMIT_MASK) then probeState w
  else if nonzero (Z.land (GPIOIntStatus LIMIT_PORT w) PROBE_PIN) then nonzero (probe_invert w)
       else probeState w.
Proof.
  unfold limit_isr_debounced.
  destruct (nonzero (Z.land (GPIOIntStatus LIMIT_PORT w) HWLIMIT_MASK)); [reflexivity|].
  destruct (nonzero (Z.land (GPIOIntStatus LIMIT_PORT w) PROBE_PIN)); reflexivity.
Qed.

Lemma limit_handlers_keep_data w :
  (gpio_data (limit_isr w) = gpio_data w /\ probe_invert (limit_isr w) = probe_invert w)
  /\ (gpio_data (limit_isr_debounced w) = gpio_data w
      /\ probe_invert (limit_isr_debounced w) = probe_invert w).
Proof.
  unfold limit_isr, limit_isr_debounced.
  destruct (nonzero (Z.land (GPIOIntStatus LIMIT_PORT w) HWLIMIT_MASK)),
    (nonzero (Z.land (GPIOIntStatus LIMIT_PORT w) PROBE_PIN)); repeat split.
Qed.

(** C6, as the code has it: [probeGetState] reads the probe pin on every
    call and answers whether its level, exclusive-or [probe_invert], is
    non-zero.  The cached [probeState] has no part in the answer: two
    worlds with the same pin levels and [probe_invert] get the same
    answer whatever they cache, and running a limit handler, which may
    write the cache, leaves the answer as it was. *)
Theorem probe_state_is_polled (w : world) :
  probeGetState w = nonzero (Z.lxor (uint8 (GPIOPinRead PROBE_PORT PROBE_PIN w)) (probe_invert w))
  /\ (forall cached : bool, probeGetState (set_probeState cached w) = probeGetState w)
  /\ (forall w2 : world,
        gpio_data w2 = gpio_data w -> probe_invert w2 = probe_invert w ->
        probeGetState w2 = probeGetState w)
  /\ probeGetState (limit_isr w) = probeGetState w
  /\ probeGetState (limit_isr_debounced w) = probeGetState w.
Proof.
  assert (Hsame : forall w2 : world,
             gpio_data w2 = gpio_data w -> probe_invert w2 = probe_invert w ->
             probeGetState w2 = probeGetState w).
  { intros w2 Hd Hi. unfold probeGetState, GPIOPinRead. by rewrite Hd, Hi. }
  destruct (limit_handlers_keep_data w) as [[H1 H2] [H3 H4]].
  split; [reflexivity|]. split; [reflexivity|]. split; [exact Hsame|].
  split; by apply Hsame.
Qed.

End ProbeFacts.

(** C6 fails as stated.  On [probe_edge_world] the handler leaves [false]
    in the cache while [probeGetState] answers [true].  On
    [probe_release_world] the handler caches [true] at the falling edge;
    when the pin has gone back high with no further interrupt the cache
    still holds [true] and [probeGetState] answers [false]: it follows
    the pin, not the cache. *)
Lemma probe_query_not_cached :
  let w := limit_isr (cfg := example_config) probe_edge_world in
  let w1 := limit_isr (cfg := example_config) probe_release_world in
  let w2 := set_gpio_data {[ 1073758208 := 32 ]} w1 in
  (probeState w = false /\ probeGetState (cfg := example_config) w = true)
  /\ (probeState w1 = true /\ probeGetState (cfg := example_config) w1 = true)
  /\ (probeState w2 = true /\ probeGetState (cfg := example_config) w2 = false).
Proof. vm_compute. repeat split. Qed.

(** ** The tick handler *)

Lemma invocations_app g tr1 tr2 :
  invocations g (tr1 ++ tr2) = (invocations g tr1 + invocations g tr2)%nat.
Proof.
  induction tr1 as [|e tr1 IH]; simpl; [reflexivity|].
  destruct e; try assumption. rewrite IH. lia.
Qed.

Ltac case_ifs :=
  repeat match goal with
         | |- context [if ?c then _ else _] => destruct c eqn:?; simpl
         end.

Section TickFacts.

Context {cfg : driver_config}.

Lemma ramp_step_frame w :
  delay (Ramped.ramp_step w) = delay w
  /\ systick (Ramped.ramp_step w) = systick w
  /\ forall g, invocations g (trace (Ramped.ramp_step w)) = invocations g (trace w).
Proof.
  unfold Ramped.ramp_step, spindle_off. case_ifs; repeat split; try reflexivity; intros g;
    rewrite ?invocations_app; simpl; lia.
Qed.

Lemma delay_step_frame w :
  pwm_ramp (Ramped.delay_step w) = pwm_ramp w /\ systick (Ramped.delay_step w) = systick w.
Proof. unfold Ramped.delay_step. case_ifs; split; reflexivity. Qed.

Lemma ramped_isr_disables w :
  let w' := Ramped.systick_isr w in
  ms (delay w') = 0 -> ms_cfg (pwm_ramp w') = 0 -> systick w' = false.
Proof.
  cbv zeta. unfold Ramped.systick_isr.
  set (w2 := Ramped.delay_step _).
  destruct (negb (nonzero (ms (delay w2)) || nonzero (ms_cfg (pwm_ramp w2)))) eqn:E.
  - reflexivity.
  - intros H1 H2. rewrite H1, H2 in E. discriminate.
Qed.

Lemma direct_isr_disables w :
  let w' := Direct.systick_isr w in
  ms (delay w') = 0 -> systick w' = false.
Proof.
  cbv zeta. unfold Direct.systick_isr. simpl.
  destruct (nonzero (uint32 (ms (delay w) - 1))) eqn:E; simpl.
  - intros H. apply nonzero_true in E. contradiction.
  - destruct (nonzero (callback (delay w))); reflexivity.
Qed.

Lemma ticks_while_disabled b n w : systick w = false -> systick_ticks b n w = w.
Proof.
  intros H. induction n as [|n IH]; simpl; [reflexivity|].
  unfold systick_tick. rewrite H. exact IH.
Qed.

Lemma ramped_set_speed_enables v w : systick (snd (Ramped.spindle_set_speed v w)) = true.
Proof. unfold Ramped.spindle_set_speed. case_ifs; reflexivity. Qed.

(** C9: when the tick handler returns with the delay countdown at zero
    and, in the ramped build, the ramp cadence [ms_cfg] at zero, it has
    called [SysTickDisable]: the tick source is then off, so if it is
    still on some work is pending.  With the tick source off no tick is
    consumed, until [spindle_set_speed] (ramped build) or
    [driver_delay_ms] with a non-zero time enables it again. *)
Theorem systick_self_disables (b : build) (w : world) :
  let w' := systick_isr b w in
  (ms (delay w') = 0 -> (b = PWM_RAMPED -> ms_cfg (pwm_ramp w') = 0) -> systick w' = false)
  /\ (systick w' = true ->
      ms (delay w') <> 0 \/ (b = PWM_RAMPED /\ ms_cfg (pwm_ramp w') <> 0))
  /\ (forall n w0, systick w0 = false -> systick_ticks b n w0 = w0)
  /\ (forall v w0, systick (snd (Ramped.spindle_set_speed v w0)) = true)
  /\ (forall fuel n_ms fn w0 w1,
        n_ms <> 0 -> fn <> NULL ->
        driver_delay_ms b fuel n_ms fn w0 = Some w1 -> systick w1 = true).
Proof.
  cbv zeta.
  assert (Hoff : ms (delay (systick_isr b w)) = 0 ->
                 (b = PWM_RAMPED -> ms_cfg (pwm_ramp (systick_isr b w)) = 0) ->
                 systick (systick_isr b w) = false).
  { destruct b; simpl; intros H1 H2.
    - apply ramped_isr_disables; auto.
    - by apply direct_isr_disables. }
  split; [exact Hoff|]. split; [|split; [|split]].
  - intros Hon.
    destruct (Z.eq_dec (ms (delay (systick_isr b w))) 0) as [H0|H0]; [|by left].
    right. destruct b.
    + split; [reflexivity|]. intros Hc. rewrite Hoff in Hon; [discriminate|assumption|auto].
    + rewrite Hoff in Hon; [discriminate|assumption|discriminate].
  - intros n w0. apply ticks_while_disabled.
  - apply ramped_set_speed_enables.
  - intros fuel n_ms fn w0 w1 Hn Hf. unfold driver_delay_ms.
    apply nonzero_true in Hn. apply nonzero_true in Hf. rewrite Hn, Hf. simpl.
    intros [= <-]. reflexivity.
Qed.

Lemma uint32_small x : 0 <= x < 2 ^ 32 -> uint32 x = x.
Proof. intros H. unfold uint32, wrap. by apply Z.mod_small. Qed.

Lemma delay_step_delay w : delay (Ramped.delay_step w) = delay_next (delay w).
Proof.
  unfold Ramped.delay_step, delay_next, delay_fires.
  destruct (nonzero (ms (delay w))); [|reflexivity]. simpl.
  destruct (negb (nonzero (uint32 (ms (delay w) - 1))) && nonzero (callback (delay w)));
    reflexivity.
Qed.

Lemma delay_step_invocations g w :
  invocations g (trace (Ramped.delay_step w)) =
  (invocations g (trace w) +
   if delay_fires (delay w) then (if (callback (delay w) =? g)%Z then 1 else 0) else 0)%nat.
Proof.
  unfold Ramped.delay_step, delay_fires.
  destruct (nonzero (ms (delay w))); simpl; [|lia].
  destruct (negb (nonzero (uint32 (ms (delay w) - 1))) && nonzero (callback (delay w)));
    simpl; rewrite ?invocations_app; simpl; lia.
Qed.

Lemma ramped_isr_delay w : delay (Ramped.systick_isr w) = delay_next (delay w).
Proof.
  unfold Ramped.systick_isr.
  set (w1 := if nonzero (ms_cfg (pwm_ramp w)) then Ramped.ramp_step w else w).
  assert (Hd : delay w1 = delay w).
  { unfold w1. destruct (nonzero _); [apply ramp_step_frame|reflexivity]. }
  rewrite <- Hd, <- delay_step_delay.
  destruct (negb _); reflexivity.
Qed.

Lemma ramped_isr_invocations g w :
  invocations g (trace (Ramped.systick_isr w)) =
  (invocations g (trace w) +
   if delay_fires (delay w) then (if (callback (delay w) =? g)%Z then 1 else 0) else 0)%nat.
Proof.
  unfold Ramped.systick_isr.
  set (w1 := if nonzero (ms_cfg (pwm_ramp w)) then Ramped.ramp_step w else w).
  assert (Hd : delay w1 = delay w).
  { unfold w1. destruct (nonzero _); [apply ramp_step_frame|reflexivity]. }
  assert (Ht : invocations g (trace w1) = invocations g (trace w)).
  { unfold w1. destruct (nonzero _); [apply ramp_step_frame|reflexivity]. }
  rewrite <- Hd, <- Ht, <- delay_step_invocations.
  destruct (negb _); simpl; rewrite ?invocations_app; simpl; lia.
Qed.

Lemma ramped_isr_systick w :
  systick w = true ->
  systick (Ramped.systick_isr w) =
  nonzero (ms (delay (Ramped.systick_isr w))) || nonzero (ms_cfg (pwm_ramp (Ramped.systick_isr w))).
Proof.
  intros Hon. unfold Ramped.systick_isr.
  set (w1 := if nonzero (ms_cfg (pwm_ramp w)) then Ramped.ramp_step w else w).
  assert (Hs : systick w1 = true).
  { unfold w1. destruct (nonzero _); [|assumption]. by destruct (ramp_step_frame w) as (_ & -> & _). }
  destruct (delay_step_frame w1) as [_ Hs2]. rewrite Hs in Hs2.
  destruct (nonzero (ms (delay (Ramped.delay_step w1))) ||
            nonzero (ms_cfg (pwm_ramp (Ramped.delay_step w1)))) eqn:E; simpl.
  - by rewrite E.
  - by rewrite E.
Qed.

Lemma tick_counting b k fn w :
  1 < k < 2 ^ 32 -> counting k fn w ->
  counting (k - 1) fn (systick_tick b w)
  /\ forall g, invocations g (trace (systick_tick b w)) = invocations g (trace w).
Proof.
  intros Hk (Hms & Hcb & Hon). unfold systick_tick, counting. rewrite Hon.
  assert (Hnz : nonzero k = true) by (apply nonzero_true; lia).
  assert (Hleft : nonzero (uint32 (k - 1)) = true)
    by (rewrite uint32_small by lia; apply nonzero_true; lia).
  assert (Hfire : delay_fires (delay w) = false)
    by (unfold delay_fires; rewrite Hms, Hnz, Hleft; reflexivity).
  destruct b; simpl.
  - rewrite ramped_isr_systick by assumption. rewrite ramped_isr_delay.
    unfold delay_next. rewrite Hfire, Hms, Hcb, Hnz. simpl. rewrite Hleft. simpl.
    rewrite uint32_small by lia. repeat split.
    intros g. rewrite ramped_isr_invocations, Hfire. lia.
  - unfold Direct.systick_isr. simpl. rewrite Hms, Hcb, Hleft. simpl.
    rewrite uint32_small by lia. repeat split; assumption.
Qed.

Lemma tick_expires b fn w :
  fn <> NULL -> counting 1 fn w ->
  expired b (systick_tick b w)
  /\ forall g, invocations g (trace (systick_tick b w)) =
               (invocations g (trace w) + if (fn =? g)%Z then 1 else 0)%nat.
Proof.
  intros Hfn (Hms & Hcb & Hon). unfold systick_tick, expired. rewrite Hon.
  apply nonzero_true in Hfn.
  assert (Hfire : delay_fires (delay w) = true)
    by (unfold delay_fires; rewrite Hms, Hcb, Hfn; reflexivity).
  destruct b; simpl.
  - rewrite ramped_isr_delay. unfold delay_next. rewrite Hfire, Hms. simpl.
    repeat split; [discriminate|].
    intros g. by rewrite ramped_isr_invocations, Hfire, Hcb.
  - unfold Direct.systick_isr. simpl. rewrite Hms, Hcb. simpl. rewrite Hfn. simpl.
    repeat split. intros g. rewrite !invocations_app. simpl. destruct (fn =? g)%Z; lia.
Qed.

Lemma tick_expired b w :
  expired b w ->
  expired b (systick_tick b w)
  /\ forall g, invocations g (trace (systick_tick b w)) = invocations g (trace w).
Proof.
  intros (Hms & Hcb & Hoff). unfold systick_tick, expired.
  assert (Hfire : delay_fires (delay w) = false)
    by (unfold delay_fires; rewrite Hms; reflexivity).
  destruct b; simpl.
  - destruct (systick w); [|repeat split; auto; discriminate].
    rewrite ramped_isr_delay. unfold delay_next. rewrite Hms. simpl.
    repeat split; try assumption; try discriminate.
    intros g. rewrite ramped_isr_invocations, Hfire. lia.
  - rewrite Hoff by reflexivity. repeat split; auto.
Qed.

Lemma ticks_expired b n : forall w,
  expired b w ->
  expired b (systick_ticks b n w)
  /\ forall g, invocations g (trace (systick_ticks b n w)) = invocations g (trace w).
Proof.
  induction n as [|n IH]; intros w He; simpl; [by split|].
  destruct (tick_expired b w He) as [He' Hi].
  destruct (IH _ He') as [He'' Hi']. split; [assumption|].
  intros g. by rewrite Hi', Hi.
Qed.

Lemma ticks_counting b fn n : forall k w,
  Z.of_nat n < k < 2 ^ 32 -> counting k fn w ->
  counting (k - Z.of_nat n) fn (systick_ticks b n w)
  /\ forall g, invocations g (trace (systick_ticks b n w)) = invocations g (trace w).
Proof.
  induction n as [|n IH]; intros k w Hk Hc; simpl systick_ticks.
  - replace (k - Z.of_nat 0) with k by lia. by split.
  - destruct (tick_counting b k fn w) as [Hc' Hi]; [lia|assumption|].
    destruct (IH (k - 1) (systick_tick b w)) as [Hc'' Hi']; [lia|assumption|].
    replace (k - Z.of_nat (S n)) with (k - 1 - Z.of_nat n) by lia.
    split; [assumption|]. intros g. by rewrite Hi', Hi.
Qed.

Lemma ticks_to_expiry b fn n w :
  fn <> NULL -> (0 < n)%nat -> Z.of_nat n < 2 ^ 32 -> counting (Z.of_nat n) fn w ->
  expired b (systick_ticks b n w)
  /\ forall g, invocations g (trace (systick_ticks b n w)) =
               (invocations g (trace w) + if (fn =? g)%Z then 1 else 0)%nat.
Proof.
  intros Hfn Hn Hlt Hc. destruct n as [|n]; [lia|].
  assert (Hsplit : forall a w0, systick_ticks b (a + 1) w0 = systick_tick b (systick_ticks b a w0)).
  { induction a as [|a IHa]; intros w0; simpl; [reflexivity|]. by rewrite IHa. }
  replace (S n) with (n + 1)%nat by lia. rewrite Hsplit.
  destruct (ticks_counting b fn n (Z.of_nat (S n)) w) as [Hc' Hi]; [lia|assumption|].
  replace (Z.of_nat (S n) - Z.of_nat n) with 1 in Hc' by lia.
  destruct (tick_expires b fn _ Hfn Hc') as [He Hi'].
  split; [assumption|]. intros g. by rewrite Hi', Hi.
Qed.

Lemma tick_last b fn w : counting 1 fn w -> ms (delay (systick_tick b w)) = 0.
Proof.
  intros (Hms & Hcb & Hon). unfold systick_tick. rewrite Hon. destruct b; simpl.
  - rewrite ramped_isr_delay. unfold delay_next. rewrite Hms. reflexivity.
  - unfold Direct.systick_isr. simpl. rewrite Hms. simpl.
    destruct (nonzero (callback (delay w))); reflexivity.
Qed.

Lemma busy_wait_done b fuel w : ms (delay w) = 0 -> busy_wait b fuel w = Some w.
Proof. intros H. destruct fuel; simpl; rewrite H; reflexivity. Qed.

Lemma ticks_reach_zero b fn : forall m k w,
  0 < k < 2 ^ 32 -> counting k fn w -> Z.to_nat k = S m ->
  ms (delay (systick_ticks b (S m) w)) = 0.
Proof.
  induction m as [|m IHm]; intros k w Hk Hc E.
  - simpl. apply (tick_last b fn). by replace 1 with k by lia.
  - simpl. destruct (tick_counting b k fn w) as [Hc' _]; [lia|assumption|].
    apply (IHm (k - 1)); [lia|assumption|lia].
Qed.

Lemma busy_wait_spec b fn : forall fuel k w,
  0 < k < 2 ^ 32 -> counting k fn w ->
  busy_wait b fuel w =
    (if (Z.to_nat k <=? fuel)%nat then Some (systick_ticks b (Z.to_nat k) w) else None).
Proof.
  induction fuel as [|fuel IH]; intros k w Hk Hc.
  - assert (Hnz : nonzero (ms (delay w)) = true)
      by (destruct Hc as (-> & _); apply nonzero_true; lia).
    simpl. rewrite Hnz.
    destruct (Z.to_nat k) as [|m] eqn:E; [lia|reflexivity].
  - assert (Hnz : nonzero (ms (delay w)) = true)
      by (destruct Hc as (-> & _); apply nonzero_true; lia).
    simpl busy_wait. rewrite Hnz.
    destruct (Z.eq_dec k 1) as [->|Hk1].
    + pose proof (tick_last b fn w Hc) as H0.
      rewrite busy_wait_done by assumption. reflexivity.
    + destruct (tick_counting b k fn w) as [Hc' _]; [lia|assumption|].
      rewrite (IH (k - 1) _ ltac:(lia) Hc').
      replace (Z.to_nat k) with (S (Z.to_nat (k - 1))) by lia.
      reflexivity.
Qed.

(** C8: [driver_delay_ms] with a time between 1 and 2^32 - 1.  Without a
    callback the call returns only after as many tick periods as the
    time asked for, with the countdown at zero.  With a callback it
    returns without waiting, having stored the time and the callback and
    enabled the tick source; the tick handler then leaves the callback
    alone on every tick before the last, invokes it on the tick that
    brings the countdown to zero and clears it, and never invokes it
    again. *)
Theorem delay_request_behaviour (b : build) (n_ms fn : Z) (w : world) :
  0 < n_ms < 2 ^ 32 ->
  let n := Z.to_nat n_ms in
  let pending :=
    if nonzero (callback (delay w)) then [Edelay_callback (callback (delay w))] else [] in
  (fn = NULL ->
     (forall fuel, (fuel < n)%nat -> driver_delay_ms b fuel n_ms fn w = None)
     /\ (forall fuel, (n <= fuel)%nat ->
           exists w1, driver_delay_ms b fuel n_ms fn w = Some w1 /\ ms (delay w1) = 0))
  /\ (fn <> NULL ->
      forall fuel, exists w1,
        driver_delay_ms b fuel n_ms fn w = Some w1
        /\ trace w1 = trace w ++ pending ++ [ESysTickEnable]
        /\ counting n_ms fn w1
        /\ (forall k, (k < n)%nat ->
              invocations fn (trace (systick_ticks b k w1)) = invocations fn (trace w1)
              /\ callback (delay (systick_ticks b k w1)) = fn)
        /\ (forall k, (n <= k)%nat ->
              invocations fn (trace (systick_ticks b k w1)) = S (invocations fn (trace w1))
              /\ callback (delay (systick_ticks b k w1)) = NULL
              /\ ms (delay (systick_ticks b k w1)) = 0)).
Proof.
  intros Hn. cbv zeta.
  assert (Hnz : nonzero n_ms = true) by (apply nonzero_true; lia).
  split.
  - intros ->. unfold driver_delay_ms. rewrite Hnz. simpl.
    set (w0 := if nonzero (callback (delay w))
               then emit (Edelay_callback (callback (delay w))) w else w).
    set (w1 := set_delay _ (SysTickEnable _)).
    assert (Hc : counting n_ms NULL w1) by (repeat split).
    split.
    + intros fuel Hf. rewrite (busy_wait_spec b NULL fuel n_ms w1 Hn Hc).
      destruct (Nat.leb_spec (Z.to_nat n_ms) fuel); [lia|reflexivity].
    + intros fuel Hf. rewrite (busy_wait_spec b NULL fuel n_ms w1 Hn Hc).
      destruct (Nat.leb_spec (Z.to_nat n_ms) fuel); [|lia].
      eexists. split; [reflexivity|].
      destruct (Z.to_nat n_ms) as [|m] eqn:E; [lia|].
      by apply (ticks_reach_zero b NULL m n_ms).
  - intros Hfn fuel. unfold driver_delay_ms. rewrite Hnz.
    assert (Hf : nonzero fn = true) by (by apply nonzero_true).
    rewrite Hf. simpl. eexists. split; [reflexivity|].
    set (w1 := set_delay _ (SysTickEnable _)).
    assert (Hc : counting n_ms fn w1) by (repeat split).
    split; [|split; [exact Hc|split]].
    + unfold w1. simpl. destruct (nonzero (callback (delay w))); simpl;
        rewrite <- ?app_assoc; reflexivity.
    + intros k Hk.
      destruct (ticks_counting b fn k n_ms w1) as [(_ & Hcb & _) Hi]; [lia|assumption|].
      split; [apply Hi|exact Hcb].
    + intros k Hk.
      assert (Hsplit : forall a c w0,
                 systick_ticks b (a + c) w0 = systick_ticks b c (systick_ticks b a w0)).
      { induction a as [|a IHa]; intros c w0; simpl; [reflexivity|]. by rewrite IHa. }
      replace k with (Z.to_nat n_ms + (k - Z.to_nat n_ms))%nat by lia. rewrite Hsplit.
      destruct (ticks_to_expiry b fn (Z.to_nat n_ms) w1) as [He Hi]; [assumption|lia|lia| |].
      { by rewrite Z2Nat.id by lia. }
      destruct (ticks_expired b (k - Z.to_nat n_ms) _ He) as [(Hms & Hcb & _) Hi'].
      rewrite Hi', Hi, Z.eqb_refl. repeat split; [lia|assumption..].
Qed.

(** ** The spindle ramp *)

Lemma int32_small x : - 2 ^ 31 <= x < 2 ^ 31 -> int32 x = x.
Proof. intros H. unfold int32. rewrite Z.mod_small by lia. lia. Qed.

Lemma systick_ticks_add b : forall a c w,
  systick_ticks b (a + c) w = systick_ticks b c (systick_ticks b a w).
Proof. induction a as [|a IHa]; intros c w; simpl; [reflexivity|]. by rewrite IHa. Qed.

Lemma ramped_isr_ramp w :
  pwm_ramp (Ramped.systick_isr w) =
  pwm_ramp (if nonzero (ms_cfg (pwm_ramp w)) then Ramped.ramp_step w else w).
Proof.
  unfold Ramped.systick_isr.
  set (w1 := if nonzero (ms_cfg (pwm_ramp w)) then Ramped.ramp_step w else w).
  destruct (delay_step_frame w1) as [<- _].
  destruct (negb _); reflexivity.
Qed.

Lemma ramp_step_counts w cur t step :
  pwm_ramp w = mkRamp SPINDLE_RAMP_STEP_TIME 0 cur t step ->
  pwm_ramp (Ramped.ramp_step w) = mkRamp SPINDLE_RAMP_STEP_TIME 1 cur t step.
Proof. intros H. unfold Ramped.ramp_step. rewrite H. reflexivity. Qed.

Lemma ramp_step_moves w cur t step :
  pwm_ramp w = mkRamp SPINDLE_RAMP_STEP_TIME 1 cur t step ->
  - 2 ^ 31 <= cur + step < 2 ^ 31 ->
  let new := if step <? 0 then Z.max t (cur + step) else Z.min t (cur + step) in
  pwm_ramp (Ramped.ramp_step w) =
  mkRamp (if new =? t then 0 else SPINDLE_RAMP_STEP_TIME) 0 new t step.
Proof.
  intros H Hr. cbv zeta. unfold Ramped.ramp_step. rewrite H. simpl.
  rewrite int32_small by assumption.
  destruct (step <? 0) eqn:Hs.
  - destruct (Z.ltb_spec (cur + step) t).
    + rewrite Z.max_l by lia. destruct (t =? 0); reflexivity.
    + rewrite Z.max_r by lia. destruct (cur + step =? 0); reflexivity.
  - destruct (Z.gtb_spec (cur + step) t).
    + rewrite Z.min_l by lia. reflexivity.
    + rewrite Z.min_r by lia. reflexivity.
Qed.

Lemma tick_ramp_counts w cur t step :
  systick w = true ->
  pwm_ramp w = mkRamp SPINDLE_RAMP_STEP_TIME 0 cur t step ->
  pwm_ramp (systick_tick PWM_RAMPED w) = mkRamp SPINDLE_RAMP_STEP_TIME 1 cur t step
  /\ systick (systick_tick PWM_RAMPED w) = true.
Proof.
  intros Hon H. unfold systick_tick. rewrite Hon. simpl.
  assert (Hr : pwm_ramp (Ramped.systick_isr w) = mkRamp SPINDLE_RAMP_STEP_TIME 1 cur t step).
  { rewrite ramped_isr_ramp, H. simpl. by apply ramp_step_counts. }
  split; [assumption|].
  rewrite ramped_isr_systick, Hr by assumption. simpl. apply orb_true_r.
Qed.

Lemma tick_ramp_moves w cur t step :
  systick w = true ->
  pwm_ramp w = mkRamp SPINDLE_RAMP_STEP_TIME 1 cur t step ->
  - 2 ^ 31 <= cur + step < 2 ^ 31 ->
  let new := if step <? 0 then Z.max t (cur + step) else Z.min t (cur + step) in
  pwm_ramp (systick_tick PWM_RAMPED w) =
    mkRamp (if new =? t then 0 else SPINDLE_RAMP_STEP_TIME) 0 new t step
  /\ (new <> t -> systick (systick_tick PWM_RAMPED w) = true).
Proof.
  intros Hon H Hr. cbv zeta. unfold systick_tick. rewrite Hon. simpl.
  set (new := if step <? 0 then Z.max t (cur + step) else Z.min t (cur + step)).
  assert (Hp : pwm_ramp (Ramped.systick_isr w) =
               mkRamp (if new =? t then 0 else SPINDLE_RAMP_STEP_TIME) 0 new t step).
  { rewrite ramped_isr_ramp, H. simpl. by apply ramp_step_moves. }
  split; [assumption|]. intros Hne.
  rewrite ramped_isr_systick, Hp by assumption. simpl.
  destruct (Z.eqb_spec new t); [contradiction|]. apply orb_true_r.
Qed.

Lemma tick_ramp_halted w :
  ms_cfg (pwm_ramp w) = 0 -> pwm_ramp (systick_tick PWM_RAMPED w) = pwm_ramp w.
Proof.
  intros H. unfold systick_tick. destruct (systick w); [|reflexivity]. simpl.
  rewrite ramped_isr_ramp, H. reflexivity.
Qed.

Lemma ramp_value_next c0 t step k :
  0 <= k -> ramp_dir c0 t step ->
  ramp_cfg c0 t k = SPINDLE_RAMP_STEP_TIME ->
  (if step <? 0 then Z.max t (ramp_value c0 t k + step) else Z.min t (ramp_value c0 t k + step))
  = ramp_value c0 t (k + 1).
Proof.
  unfold ramp_dir, ramp_cfg, ramp_value, SPINDLE_RAMP_STEP_INCR, SPINDLE_RAMP_STEP_TIME.
  intros Hk (Hdn & Hup & Hstep) Hrun.
  assert (Hk0 : k = 0 \/
                (if t <? c0 then Z.max t (c0 - 20 * k) else Z.min t (c0 + 20 * k)) <> t).
  { destruct (Z.ltb_spec 0 k); [|left; lia]. right. intros Heq.
    rewrite Heq, Z.eqb_refl in Hrun. simpl in Hrun. lia. }
  clear Hrun.
  destruct (Z.ltb_spec t c0).
  - rewrite Hdn by assumption. simpl. lia.
  - destruct Hstep as [->| ->]; simpl; lia.
Qed.

Lemma ramp_value_range c0 t k :
  0 <= k -> Z.min c0 t <= ramp_value c0 t k <= Z.max c0 t.
Proof.
  unfold ramp_value, SPINDLE_RAMP_STEP_INCR. intros Hk. destruct (Z.ltb_spec t c0); lia.
Qed.

Lemma ramp_at_half c0 t step k w :
  ramp_cfg c0 t (Z.of_nat k) = SPINDLE_RAMP_STEP_TIME ->
  ramp_at c0 t step k w -> ramp_half c0 t step k (systick_tick PWM_RAMPED w).
Proof.
  intros Hrun [Hr Hon]. rewrite Hrun in Hr.
  assert (Hs : systick w = true) by (apply Hon; rewrite Hr; discriminate).
  destruct (tick_ramp_counts w _ _ _ Hs Hr) as [Hr1 Hs1].
  by repeat split.
Qed.

Lemma ramp_half_next c0 t step k w :
  pwm_range c0 -> pwm_range t -> ramp_dir c0 t step ->
  ramp_half c0 t step k w -> ramp_at c0 t step (S k) (systick_tick PWM_RAMPED w).
Proof.
  intros Hc Ht Hdir (Hr & Hrun & Hs).
  pose proof (ramp_value_range c0 t (Z.of_nat k) ltac:(lia)) as Hrange.
  assert (Hbound : - 2 ^ 31 <= ramp_value c0 t (Z.of_nat k) + step < 2 ^ 31).
  { unfold pwm_range, ramp_dir, SPINDLE_RAMP_STEP_INCR in *.
    destruct Hdir as (_ & _ & [->| ->]); lia. }
  destruct (tick_ramp_moves _ _ _ _ Hs Hr Hbound) as [Hr2 Hs2].
  rewrite (ramp_value_next c0 t step (Z.of_nat k)) in Hr2, Hs2 by (assumption || lia).
  replace (Z.of_nat k + 1) with (Z.of_nat (S k)) in Hr2, Hs2 by lia.
  assert (Hcfg : ramp_cfg c0 t (Z.of_nat (S k)) =
                 if ramp_value c0 t (Z.of_nat (S k)) =? t then 0 else SPINDLE_RAMP_STEP_TIME).
  { unfold ramp_cfg. replace (0 <? Z.of_nat (S k)) with true by (symmetry; apply Z.ltb_lt; lia).
    reflexivity. }
  split; [by rewrite Hcfg|].
  rewrite Hr2. simpl. intros Hne. apply Hs2. intros Heq.
  rewrite Heq, Z.eqb_refl in Hne. by apply Hne.
Qed.

Lemma ramp_at_halted c0 t step k w :
  ramp_cfg c0 t (Z.of_nat k) = 0 ->
  ramp_at c0 t step k w -> ramp_at c0 t step (S k) (systick_tick PWM_RAMPED w).
Proof.
  intros Hhalt [Hr Hon].
  assert (H1 : pwm_ramp (systick_tick PWM_RAMPED w) = pwm_ramp w)
    by (apply tick_ramp_halted; rewrite Hr, Hhalt; reflexivity).
  assert (Hv : 0 < Z.of_nat k /\ ramp_value c0 t (Z.of_nat k) = t).
  { unfold ramp_cfg, SPINDLE_RAMP_STEP_TIME in Hhalt.
    destruct (Z.ltb_spec 0 (Z.of_nat k)), (Z.eqb_spec (ramp_value c0 t (Z.of_nat k)) t);
      simpl in Hhalt; lia. }
  destruct Hv as [Hk Hv].
  assert (Hv' : ramp_value c0 t (Z.of_nat (S k)) = t).
  { revert Hv. unfold ramp_value, SPINDLE_RAMP_STEP_INCR. destruct (Z.ltb_spec t c0); lia. }
  assert (Hc' : ramp_cfg c0 t (Z.of_nat (S k)) = 0).
  { unfold ramp_cfg. rewrite Hv', Z.eqb_refl.
    replace (0 <? Z.of_nat (S k)) with true by (symmetry; apply Z.ltb_lt; lia). reflexivity. }
  split.
  - rewrite H1, Hr, Hc', Hv', Hhalt, Hv. reflexivity.
  - rewrite H1, Hr, Hhalt. simpl. congruence.
Qed.

Lemma ramp_cfg_cases c0 t k :
  ramp_cfg c0 t k = 0 \/ ramp_cfg c0 t k = SPINDLE_RAMP_STEP_TIME.
Proof. unfold ramp_cfg. destruct (_ && _); auto. Qed.

Lemma ramp_at_step c0 t step k w :
  pwm_range c0 -> pwm_range t -> ramp_dir c0 t step ->
  ramp_at c0 t step k w ->
  ramp_at c0 t step (S k) (systick_tick PWM_RAMPED (systick_tick PWM_RAMPED w)).
Proof.
  intros Hc Ht Hdir H.
  destruct (ramp_cfg_cases c0 t (Z.of_nat k)) as [Hhalt|Hrun].
  - pose proof (ramp_at_halted _ _ _ _ _ Hhalt H) as [Hr1 Hon1].
    destruct H as [Hr Hon].
    assert (H1 : pwm_ramp (systick_tick PWM_RAMPED w) = pwm_ramp w)
      by (apply tick_ramp_halted; rewrite Hr, Hhalt; reflexivity).
    assert (H2 : pwm_ramp (systick_tick PWM_RAMPED (systick_tick PWM_RAMPED w)) =
                 pwm_ramp (systick_tick PWM_RAMPED w))
      by (apply tick_ramp_halted; rewrite H1, Hr, Hhalt; reflexivity).
    split; [by rewrite H2|].
    rewrite H2, H1, Hr, Hhalt. simpl. congruence.
  - apply ramp_half_next; try assumption. by apply ramp_at_half.
Qed.

Lemma ramp_at_ticks c0 t step :
  pwm_range c0 -> pwm_range t -> ramp_dir c0 t step ->
  forall k w j, ramp_at c0 t step j w ->
  ramp_at c0 t step (j + k) (systick_ticks PWM_RAMPED (2 * k) w).
Proof.
  intros Hc Ht Hdir k. induction k as [|k IH]; intros w j H.
  - by replace (j + 0)%nat with j by lia.
  - replace (2 * S k)%nat with (2 + 2 * k)%nat by lia. rewrite systick_ticks_add.
    replace (j + S k)%nat with (S j + k)%nat by lia.
    apply IH. simpl. by apply ramp_at_step.
Qed.

Lemma set_speed_starts_ramp v w :
  0 <= v < 2 ^ 31 - 20 ->
  0 <= ramp_ms (pwm_ramp w) < SPINDLE_RAMP_STEP_TIME ->
  let w1 := snd (Ramped.spindle_set_speed v w) in
  let c0 := pwm_current (pwm_ramp w1) in
  let t := pwm_target (pwm_ramp w1) in
  0 <= c0 ->
  exists rm step,
    pwm_ramp w1 = mkRamp SPINDLE_RAMP_STEP_TIME rm c0 t step
    /\ (rm = 0 \/ rm = 1)
    /\ ramp_dir c0 t step
    /\ t = (if v =? off_value spindle_pwm then 0 else v)
    /\ systick w1 = true.
Proof.
  intros Hv Hrm. cbv zeta. unfold Ramped.spindle_set_speed, SPINDLE_RAMP_STEP_TIME in *.
  assert (Hi : int32 v = v) by (apply int32_small; lia).
  destruct (v =? off_value spindle_pwm).
  - simpl. intros Hc0. exists 0, (- SPINDLE_RAMP_STEP_INCR).
    repeat split; auto; unfold SPINDLE_RAMP_STEP_INCR; lia.
  - destruct (pwmEnabled w); simpl; rewrite Hi; intros Hc0.
    + exists (ramp_ms (pwm_ramp w)),
        (if v <? pwm_current (pwm_ramp w)
         then - SPINDLE_RAMP_STEP_INCR else SPINDLE_RAMP_STEP_INCR).
      repeat split; try lia;
        destruct (Z.ltb_spec v (pwm_current (pwm_ramp w))); auto; lia.
    + exists 0,
        (if v <? int32 (min_value spindle_pwm)
         then - SPINDLE_RAMP_STEP_INCR else SPINDLE_RAMP_STEP_INCR).
      repeat split; auto;
        destruct (Z.ltb_spec v (int32 (min_value spindle_pwm))); auto; lia.
Qed.

Lemma ramp_after_steps c0 t step rm w1 :
  pwm_range c0 -> pwm_range t -> ramp_dir c0 t step ->
  pwm_ramp w1 = mkRamp SPINDLE_RAMP_STEP_TIME rm c0 t step ->
  rm = 0 \/ rm = 1 -> systick w1 = true ->
  forall k : nat,
    let r := pwm_ramp (systick_ticks PWM_RAMPED (2 * k - Z.to_nat rm) w1) in
    pwm_current r = ramp_value c0 t (Z.of_nat k)
    /\ ms_cfg r = ramp_cfg c0 t (Z.of_nat k).
Proof.
  intros Hc Ht Hdir Hr Hrm Hs k. cbv zeta.
  assert (Hv0 : ramp_value c0 t (Z.of_nat 0) = c0).
  { unfold ramp_value, SPINDLE_RAMP_STEP_INCR. simpl. destruct (Z.ltb_spec t c0); lia. }
  assert (Hc0 : ramp_cfg c0 t (Z.of_nat 0) = SPINDLE_RAMP_STEP_TIME) by reflexivity.
  destruct Hrm as [-> | ->].
  - assert (H0 : ramp_at c0 t step 0 w1).
    { split; [by rewrite Hv0, Hc0|auto]. }
    replace (2 * k - Z.to_nat 0)%nat with (2 * k)%nat by lia.
    destruct (ramp_at_ticks c0 t step Hc Ht Hdir k w1 0%nat H0) as [Hk _].
    change (0 + k)%nat with k in Hk. rewrite Hk. by split.
  - destruct k as [|k].
    + simpl. rewrite Hr. simpl. by rewrite Hv0.
    + assert (H1 : ramp_at c0 t step 1 (systick_tick PWM_RAMPED w1)).
      { apply ramp_half_next; try assumption. split; [by rewrite Hv0|by split]. }
      replace (2 * S k - Z.to_nat 1)%nat with (1 + 2 * k)%nat by lia.
      rewrite systick_ticks_add.
      change (systick_ticks PWM_RAMPED 1 w1) with (systick_tick PWM_RAMPED w1).
      destruct (ramp_at_ticks c0 t step Hc Ht Hdir k _ 1%nat H1) as [Hk _].
      change (1 + k)%nat with (S k) in Hk.
      rewrite Hk. by split.
Qed.

(** C2: in the ramped build, [spindle_set_speed] starts a ramp from
    [c0 = pwm_current] to the target [t] (0 for the off value), and ramp
    step [k] is the tick handler run in which the ramp's counter reaches
    [ms_cfg] for the [k]-th time.  With [n = ceil(|t - c0| / 20)]: before
    ramp step [n] the current value is [c0] plus [k] steps, differs from
    [t] and the ramp runs; at ramp step [n] it equals [t]; it never lies
    outside the interval between [c0] and [t]; and from ramp step [n] on
    (from the first ramp step when [c0 = t]) the value stays at [t] with
    [ms_cfg] cleared. *)
Theorem ramp_converges (v : Z) (w : world) :
  0 <= v < 2 ^ 31 - 20 ->
  0 <= ramp_ms (pwm_ramp w) < SPINDLE_RAMP_STEP_TIME ->
  let w1 := snd (Ramped.spindle_set_speed v w) in
  let c0 := pwm_current (pwm_ramp w1) in
  let t := pwm_target (pwm_ramp w1) in
  0 <= c0 < 2 ^ 31 - 20 ->
  let n := Z.to_nat ((Z.abs (t - c0) + SPINDLE_RAMP_STEP_INCR - 1) / SPINDLE_RAMP_STEP_INCR) in
  let after (k : nat) :=
    pwm_ramp (systick_ticks PWM_RAMPED (2 * k - Z.to_nat (ramp_ms (pwm_ramp w1))) w1) in
  t = (if v =? off_value spindle_pwm then 0 else v)
  /\ (forall k, (k < n)%nat ->
        pwm_current (after k) = c0 + Z.of_nat k * pwm_step (pwm_ramp w1)
        /\ pwm_current (after k) <> t
        /\ ms_cfg (after k) = SPINDLE_RAMP_STEP_TIME)
  /\ pwm_current (after n) = t
  /\ (forall k, Z.min c0 t <= pwm_current (after k) <= Z.max c0 t)
  /\ (forall k, (Nat.max n 1 <= k)%nat -> pwm_current (after k) = t /\ ms_cfg (after k) = 0).
Proof.
  intros Hv Hrm. cbv zeta. intros Hc0.
  destruct (set_speed_starts_ramp v w Hv Hrm) as (rm & step & Hr & Hrm' & Hdir & Ht & Hs);
    [lia|].
  set (w1 := snd (Ramped.spindle_set_speed v w)) in *.
  set (c0 := pwm_current (pwm_ramp w1)) in *.
  set (t := pwm_target (pwm_ramp w1)) in *.
  assert (Htr : 0 <= t < 2 ^ 31 - 20) by (rewrite Ht; destruct (v =? _); lia).
  assert (Hafter : forall k : nat,
             let r := pwm_ramp (systick_ticks PWM_RAMPED (2 * k - Z.to_nat rm) w1) in
             pwm_current r = ramp_value c0 t (Z.of_nat k)
             /\ ms_cfg r = ramp_cfg c0 t (Z.of_nat k)).
  { apply (ramp_after_steps c0 t step rm w1); try assumption; unfold pwm_range; lia. }
  cbv zeta in Hafter.
  assert (Hrm1 : ramp_ms (pwm_ramp w1) = rm) by (rewrite Hr; reflexivity).
  assert (Hst : pwm_step (pwm_ramp w1) = step) by (rewrite Hr; reflexivity).
  rewrite Hrm1, Hst.
  split; [exact Ht|].
  unfold ramp_dir, SPINDLE_RAMP_STEP_INCR in Hdir. destruct Hdir as (Hdn & Hup & Hstep).
  split; [|split; [|split]].
  - intros k Hk. destruct (Hafter k) as [-> ->].
    unfold ramp_cfg, ramp_value, SPINDLE_RAMP_STEP_INCR, SPINDLE_RAMP_STEP_TIME in *.
    assert (Hq : Z.of_nat k < (Z.abs (t - c0) + 20 - 1) / 20) by lia.
    assert (Hd : 20 * Z.of_nat k < Z.abs (t - c0)).
    { revert Hq. generalize (Z.of_nat k). intros z Hq. Z.div_mod_to_equations. lia. }
    destruct (Z.ltb_spec t c0).
    + rewrite Hdn by assumption.
      assert (Hne : Z.max t (c0 - 20 * Z.of_nat k) <> t) by lia.
      apply Z.eqb_neq in Hne. rewrite Hne, andb_false_r. apply Z.eqb_neq in Hne. lia.
    + rewrite Hup by lia.
      assert (Hne : Z.min t (c0 + 20 * Z.of_nat k) <> t) by lia.
      apply Z.eqb_neq in Hne. rewrite Hne, andb_false_r. apply Z.eqb_neq in Hne. lia.
  - destruct (Hafter (Z.to_nat ((Z.abs (t - c0) + SPINDLE_RAMP_STEP_INCR - 1) /
                                SPINDLE_RAMP_STEP_INCR))) as [-> _].
    unfold ramp_value, SPINDLE_RAMP_STEP_INCR.
    assert (Hq : 0 <= (Z.abs (t - c0) + 20 - 1) / 20) by (apply Z.div_pos; lia).
    rewrite Z2Nat.id by assumption.
    assert (Hd : Z.abs (t - c0) <= 20 * ((Z.abs (t - c0) + 20 - 1) / 20))
      by (Z.div_mod_to_equations; lia).
    destruct (Z.ltb_spec t c0); lia.
  - intros k. destruct (Hafter k) as [-> _]. apply ramp_value_range. lia.
  - intros k Hk. destruct (Hafter k) as [-> ->].
    assert (Hq : 0 <= (Z.abs (t - c0) + 20 - 1) / 20) by (apply Z.div_pos; lia).
    assert (Hd : Z.abs (t - c0) <= 20 * Z.of_nat k).
    { assert (Hkq : (Z.abs (t - c0) + 20 - 1) / 20 <= Z.of_nat k)
        by (unfold SPINDLE_RAMP_STEP_INCR in Hk; lia).
      revert Hkq. generalize (Z.of_nat k). intros z Hkq. Z.div_mod_to_equations. lia. }
    assert (Hval : ramp_value c0 t (Z.of_nat k) = t).
    { unfold ramp_value, SPINDLE_RAMP_STEP_INCR. destruct (Z.ltb_spec t c0); lia. }
    split; [exact Hval|].
    unfold ramp_cfg. rewrite Hval, Z.eqb_refl.
    replace (0 <? Z.of_nat k) with true by (symmetry; apply Z.ltb_lt; lia). reflexivity.
Qed.

(** ** Switching the spindle off twice *)

Lemma GPIOPinWrite_twice port pins val w :
  gpio_data (GPIOPinWrite port pins val (GPIOPinWrite port pins val w)) =
  gpio_data (GPIOPinWrite port pins val w).
Proof.
  unfold GPIOPinWrite; simpl.
  by rewrite port_read_insert, masked_write_idem, insert_insert_eq.
Qed.

Lemma ramped_off_starts w :
  snd (Ramped.spindle_set_speed (off_value spindle_pwm) w) =
  SysTickEnable
    (set_pwm_ramp
       (mkRamp SPINDLE_RAMP_STEP_TIME 0 (pwm_current (pwm_ramp w)) 0 (- SPINDLE_RAMP_STEP_INCR)) w).
Proof. unfold Ramped.spindle_set_speed. rewrite Z.eqb_refl. reflexivity. Qed.

(** C7: [spindle_set_speed(spindle_pwm.off_value)] called twice in a row
    leaves, after the second call, the registers and static variables the
    first call left: in the ramped build the second call only calls
    [SysTickEnable] again, in the direct build it repeats the peripheral
    calls of the first with the same values. *)
Theorem spindle_off_twice_idempotent (w : world) :
  let off := off_value spindle_pwm in
  (let w1 := snd (Ramped.spindle_set_speed off w) in
   let w2 := snd (Ramped.spindle_set_speed off w1) in
   registers w2 = registers w1
   /\ trace w2 = trace w1 ++ [ESysTickEnable])
  /\ (let w1 := Direct.spindle_set_speed off w in
      let w2 := Direct.spindle_set_speed off w1 in
      registers w2 = registers w1
      /\ exists calls, trace w1 = trace w ++ calls /\ trace w2 = trace w1 ++ calls).
Proof.
  cbv zeta. split.
  - rewrite !ramped_off_starts. destruct w. split; reflexivity.
  - destruct w as [pe ps nx dl pi rp gd gm pt dt wt st im tr].
    unfold Direct.spindle_set_speed. rewrite Z.eqb_refl.
    destruct (disable_with_zero_speed settings), (always_on spindle_pwm); cbn;
      rewrite ?Z.eqb_refl; cbn.
    all: split;
      [ unfold registers, set_trace; simpl; f_equal;
        rewrite ?port_read_insert, ?masked_write_idem, ?insert_insert_eq; reflexivity
      | eexists; split; rewrite <- ?app_assoc; simpl; reflexivity ].
Qed.

End TickFacts.

(** ** Software debounce of the limit inputs *)

Lemma notifications_app tr1 tr2 :
  notifications (tr1 ++ tr2) = notifications tr1 ++ notifications tr2.
Proof.
  induction tr1 as [|e tr1 IH]; simpl; [reflexivity|].
  destruct e; try assumption. by rewrite IH.
Qed.

Lemma land_lor_nonzero a b m : Z.land b m <> 0 -> Z.land (Z.lor a b) m <> 0.
Proof.
  intros H Hz. rewrite Z.land_lor_distr_l in Hz. apply Z.lor_eq_0_iff in Hz. tauto.
Qed.

Section DebounceFacts.

Context {cfg : driver_config}.

Lemma debounce_counts_add : forall a c w,
  debounce_counts (a + c) w = debounce_counts c (debounce_counts a w).
Proof. induction a as [|a IHa]; intros c w; simpl; [reflexivity|]. by rewrite IHa. Qed.

Lemma limitsGetState_same_data w1 w2 :
  gpio_data w1 = gpio_data w2 -> limitsGetState w1 = limitsGetState w2.
Proof. intros H. unfold limitsGetState, GPIOPinRead. by rewrite H. Qed.

Lemma limit_edge_arms pins iflags w :
  Z.land iflags HWLIMIT_MASK <> 0 ->
  let w' := limit_edge pins iflags w in
  enabled (debounce_timer w') = true
  /\ value (debounce_timer w') = 32000
  /\ notifications (trace w') = notifications (trace w)
  /\ port_read (gpio_data w') LIMIT_PORT = pins
  /\ trace w' =
       trace w ++
       [EGPIOIntClear LIMIT_PORT (Z.lor (port_read (gpio_mis w) LIMIT_PORT) iflags);
        ETimerLoadSet DEBOUNCE_TIMER_BASE 32000; ETimerEnable DEBOUNCE_TIMER_BASE].
Proof.
  intros Hf. cbv zeta. unfold limit_edge, limit_isr_debounced, GPIOIntStatus. simpl.
  rewrite port_read_insert.
  pose proof (land_lor_nonzero (port_read (gpio_mis w) LIMIT_PORT) _ _ Hf) as Hnz.
  apply nonzero_true in Hnz. rewrite Hnz. simpl.
  rewrite port_read_insert, <- !app_assoc, !notifications_app. simpl.
  rewrite app_nil_r. repeat split; reflexivity.
Qed.

Lemma counts_running : forall k w v,
  enabled (debounce_timer w) = true -> value (debounce_timer w) = v -> Z.of_nat k < v ->
  let w' := debounce_counts k w in
  enabled (debounce_timer w') = true
  /\ value (debounce_timer w') = v - Z.of_nat k
  /\ trace w' = trace w
  /\ gpio_data w' = gpio_data w.
Proof.
  induction k as [|k IH]; intros w v He Hv Hk; cbv zeta.
  - simpl. repeat split; [assumption|lia].
  - simpl debounce_counts.
    assert (Hstep : debounce_count w =
                    set_timer DEBOUNCE_TIMER_BASE
                      (mkTimer true (load (debounce_timer w)) (v - 1)
                         (matchv (debounce_timer w)) (prescale (debounce_timer w))
                         (prescale_match (debounce_timer w)) (level (debounce_timer w))
                         (mis (debounce_timer w))) w).
    { unfold debounce_count. rewrite He, Hv.
      destruct (Z.leb_spec v 1); [lia|reflexivity]. }
    rewrite Hstep.
    destruct (IH (set_timer DEBOUNCE_TIMER_BASE
                    (mkTimer true (load (debounce_timer w)) (v - 1)
                       (matchv (debounce_timer w)) (prescale (debounce_timer w))
                       (prescale_match (debounce_timer w)) (level (debounce_timer w))
                       (mis (debounce_timer w))) w) (v - 1))
      as (H1 & H2 & H3 & H4); [reflexivity|reflexivity|lia|].
    repeat split; [assumption|lia|assumption|assumption].
Qed.

Lemma count_fires w :
  enabled (debounce_timer w) = true -> value (debounce_timer w) = 1 ->
  let w' := debounce_count w in
  enabled (debounce_timer w') = false
  /\ notifications (trace w') =
       notifications (trace w) ++
       (if nonzero (limitsGetState w) then [limitsGetState w] else []).
Proof.
  intros He Hv. cbv zeta. unfold debounce_count. rewrite He, Hv. simpl.
  unfold software_debounce_isr.
  set (w1 := TimerIntClear _ _ _).
  assert (Hst : limitsGetState w1 = limitsGetState w) by (by apply limitsGetState_same_data).
  rewrite Hst. destruct (nonzero (limitsGetState w)); simpl.
  - split; [reflexivity|]. rewrite !notifications_app. simpl. by rewrite app_nil_r.
  - split; [reflexivity|]. rewrite !notifications_app. simpl. by rewrite !app_nil_r.
Qed.

Lemma counts_stopped : forall k w,
  enabled (debounce_timer w) = false -> debounce_counts k w = w.
Proof.
  induction k as [|k IH]; intros w He; simpl; [reflexivity|].
  unfold debounce_count. rewrite He. by apply IH.
Qed.

Lemma burst_quiet : forall edges w,
  Forall (fun e : Z * Z * nat =>
            Z.land (snd (fst e)) HWLIMIT_MASK <> 0 /\ (snd e < window)%nat) edges ->
  notifications (trace (burst edges w)) = notifications (trace w).
Proof.
  induction edges as [|[[pins iflags] gap] edges IH]; intros w Hall; simpl; [reflexivity|].
  inversion Hall as [|? ? [Hf Hg] Hall']; subst. simpl in Hf, Hg.
  rewrite IH by assumption.
  destruct (limit_edge_arms pins iflags w Hf) as (He & Hv & Hn & _).
  destruct (counts_running gap _ 32000 He Hv) as (_ & _ & -> & _);
    [unfold window in Hg; lia|].
  exact Hn.
Qed.

(** C3, as the code has it: with software debounce, every limit edge
    loads the debounce timer with 32000 counts (32 ms) and enables it,
    whether or not it is running.  After a burst whose edges each come
    less than 32 ms after the one before, nothing has been reported
    upstream until 32 ms after the last edge; the handler that runs then
    samples the limit inputs and reports them once if their state is
    non-zero and not at all otherwise; the timer is then stopped and
    nothing more is reported. *)
Theorem debounce_window_restarts (w : world) (edges : list (Z * Z * nat)) (pins iflags : Z) :
  Forall (fun e : Z * Z * nat =>
            Z.land (snd (fst e)) HWLIMIT_MASK <> 0 /\ (snd e < window)%nat) edges ->
  Z.land iflags HWLIMIT_MASK <> 0 ->
  let w1 := limit_edge pins iflags (burst edges w) in
  let report := if nonzero (limitsGetState w1) then [limitsGetState w1] else [] in
  enabled (debounce_timer w1) = true
  /\ value (debounce_timer w1) = 32000
  /\ (forall k, (k < window)%nat ->
        notifications (trace (debounce_counts k w1)) = notifications (trace w))
  /\ (forall k, (window <= k)%nat ->
        notifications (trace (debounce_counts k w1)) = notifications (trace w) ++ report
        /\ enabled (debounce_timer (debounce_counts k w1)) = false).
Proof.
  intros Hall Hf. cbv zeta.
  destruct (limit_edge_arms pins iflags (burst edges w) Hf) as (He & Hv & Hn & _).
  rewrite burst_quiet in Hn by assumption.
  set (w1 := limit_edge pins iflags (burst edges w)) in *.
  split; [exact He|]. split; [exact Hv|]. split.
  - intros k Hk.
    destruct (counts_running k w1 32000 He Hv) as (_ & _ & -> & _);
      [unfold window in Hk; lia|exact Hn].
  - intros k Hk.
    replace k with (Z.to_nat 31999 + (1 + (k - window)))%nat by (unfold window in *; lia).
    rewrite debounce_counts_add.
    destruct (counts_running (Z.to_nat 31999) w1 32000 He Hv) as (He' & Hv' & Ht' & Hd'); [lia|].
    set (w2 := debounce_counts (Z.to_nat 31999) w1) in *.
    rewrite debounce_counts_add.
    change (debounce_counts 1 w2) with (debounce_count w2).
    destruct (count_fires w2 He') as [Hoff Hnote]; [lia|].
    rewrite counts_stopped by assumption.
    rewrite Hnote, Ht', Hn, (limitsGetState_same_data w2 w1 Hd').
    by split.
Qed.

End DebounceFacts.

(** Two limit edges 5 ms apart on a board at reset, the X limit input
    held asserted: the second edge restarts the 32 ms count, so nothing
    is reported 32 ms after the first edge; the report comes 32 ms after
    the second.  When the second edge releases the input nothing is
    reported at all. *)
Lemma debounce_second_edge_restarts :
  let first := limit_edge (cfg := example_config) 1 1 world_reset in
  let second := limit_edge (cfg := example_config) 1 1
                  (debounce_counts (cfg := example_config) (Z.to_nat 5000) first) in
  let released := limit_edge (cfg := example_config) 0 1
                    (debounce_counts (cfg := example_config) (Z.to_nat 5000) first) in
  value (debounce_timer (debounce_counts (cfg := example_config) (Z.to_nat 5000) first)) = 27000
  /\ value (debounce_timer second) = 32000
  /\ notifications (trace (debounce_counts (cfg := example_config) (Z.to_nat 27000) second)) = []
  /\ notifications (trace (debounce_counts (cfg := example_config) (Z.to_nat 32000) second)) = [1]
  /\ notifications (trace (debounce_counts (cfg := example_config) (Z.to_nat 64000) released)) = [].
Proof. vm_compute. repeat split. Qed.

(** ** The properties on the example board *)

(** A new-block command for X and Z direction with an X step: the
    direction pins take the pattern, shifted into place. *)
Lemma direction_written_example :
  outputs_disjoint (cfg := example_config)
  /\ dir_pins (cfg := example_config)
       (snd (stepper_pulse_start (cfg := example_config) Immediate
               (mkStepper true 5 1) world_reset)) = 80.
Proof.
  assert (Hd : outputs_disjoint (cfg := example_config)) by (right; reflexivity).
  split; [exact Hd|].
  destruct (direction_written_iff_new_block (cfg := example_config) Immediate
              (mkStepper true 5 1) world_reset) as (_ & _ & _ & _ & _ & H).
  destruct (H Hd) as [Hp _]. exact Hp.
Defined.

(** Delayed mode, X and Y step: the pins show the pattern only after the
    match interrupt. *)
Lemma delayed_pulse_example :
  3 <> 0
  /\ step_pins (cfg := example_config)
       (stepper_run (cfg := example_config) Delayed
          [Command (mkStepper true 5 3); PulseInterrupt TIMER_TIMA_MATCH] world_reset) = 6.
Proof.
  assert (H3 : 3 <> 0) by discriminate.
  split; [exact H3|].
  destruct (delayed_pulse_buffered_then_applied (cfg := example_config)
              (mkStepper true 5 3) world_reset H3) as (_ & _ & H & _).
  exact H.
Defined.

(** A new-block command without step bits: the direction write is the
    only peripheral call. *)
Lemma empty_step_bits_example :
  0 = 0
  /\ trace (snd (stepper_pulse_start (cfg := example_config) Delayed
                   (mkStepper true 5 0) world_reset)) =
     [EGPIOPinWrite 1073770496 112 80].
Proof.
  split; [reflexivity|].
  destruct (empty_step_bits_no_pulse (cfg := example_config) Delayed
              (mkStepper true 5 0) world_reset eq_refl) as (_ & H & _).
  exact H.
Defined.

(** Clearing the bits 1010 of 1100 leaves 0100 and returns 1100. *)
Lemma atomic_helpers_example :
  0 <= 12 < 2 ^ FAST16_BITS
  /\ 0 <= 10 < 2 ^ FAST16_BITS
  /\ fst (fst (bitsClearAtomic 12 10 world_reset)) = 12
  /\ Z.testbit (snd (fst (bitsClearAtomic 12 10 world_reset))) 2 = true.
Proof.
  assert (H1 : 0 <= 12 < 2 ^ FAST16_BITS) by (unfold FAST16_BITS; lia).
  assert (H2 : 0 <= 10 < 2 ^ FAST16_BITS) by (unfold FAST16_BITS; lia).
  split; [exact H1|]. split; [exact H2|].
  destruct (atomic_helpers_exact 12 10 0 world_reset H1 H2) as (_ & (Hp & Hb) & _).
  split; [exact Hp|].
  exact (Hb 2 ltac:(lia)).
Defined.

(** Overwriting the cache does not change the answer of [probeGetState]. *)
Lemma probe_state_example :
  gpio_data (set_probeState false probe_edge_world) = gpio_data probe_edge_world
  /\ probe_invert (set_probeState false probe_edge_world) = probe_invert probe_edge_world
  /\ probeGetState (cfg := example_config) (set_probeState false probe_edge_world) =
     probeGetState (cfg := example_config) probe_edge_world.
Proof.
  split; [reflexivity|]. split; [reflexivity|].
  destruct (probe_state_is_polled (cfg := example_config) probe_edge_world)
    as (_ & _ & H & _).
  exact (H (set_probeState false probe_edge_world) eq_refl eq_refl).
Defined.

(** The first tick after reset finds the 1 ms start-up delay run out and
    no ramp: the handler switches the tick source off. *)
Lemma systick_self_disables_example :
  ms (delay (systick_isr (cfg := example_config) PWM_RAMPED (set_systick true world_reset))) = 0
  /\ systick (systick_isr (cfg := example_config) PWM_RAMPED (set_systick true world_reset))
     = false.
Proof.
  split; [reflexivity|].
  destruct (systick_self_disables (cfg := example_config) PWM_RAMPED
              (set_systick true world_reset)) as (H & _).
  exact (H eq_refl (fun _ => eq_refl)).
Defined.

(** A 3 ms delay with a callback: invoked once, on the third tick. *)
Lemma delay_request_example :
  0 < 3 < 2 ^ 32
  /\ 77 <> NULL
  /\ exists w1,
       driver_delay_ms (cfg := example_config) PWM_DIRECT 0 3 77 world_reset = Some w1
       /\ invocations 77 (trace (systick_ticks (cfg := example_config) PWM_DIRECT 2 w1)) = O
       /\ invocations 77 (trace (systick_ticks (cfg := example_config) PWM_DIRECT 3 w1)) = 1%nat.
Proof.
  assert (H1 : 0 < 3 < 2 ^ 32) by lia.
  assert (H2 : 77 <> NULL) by discriminate.
  split; [exact H1|]. split; [exact H2|].
  destruct (delay_request_behaviour (cfg := example_config) PWM_DIRECT 3 77 world_reset H1)
    as (_ & H).
  destruct (H H2 O) as (w1 & Hcall & Htr & _ & Hbefore & Hafter).
  exists w1. split; [exact Hcall|].
  injection Hcall as <-.
  split.
  - exact (proj1 (Hbefore 2%nat ltac:(simpl; lia))).
  - exact (proj1 (Hafter 3%nat ltac:(simpl; lia))).
Defined.

(** From duty 0 to 1000 in steps of 20 every 2 ms: 50 ramp steps, 100 ms. *)
Lemma ramp_converges_example :
  0 <= 1000 < 2 ^ 31 - 20
  /\ 0 <= ramp_ms (pwm_ramp (set_pwmEnabled true world_reset)) < SPINDLE_RAMP_STEP_TIME
  /\ pwm_current
       (pwm_ramp
          (systick_ticks (cfg := example_config) PWM_RAMPED 100
             (snd (Ramped.spindle_set_speed (cfg := example_config) 1000
                     (set_pwmEnabled true world_reset))))) = 1000.
Proof.
  assert (H1 : 0 <= 1000 < 2 ^ 31 - 20) by lia.
  assert (H2 : 0 <= ramp_ms (pwm_ramp (set_pwmEnabled true world_reset)) < SPINDLE_RAMP_STEP_TIME)
    by (simpl; unfold SPINDLE_RAMP_STEP_TIME; lia).
  split; [exact H1|]. split; [exact H2|].
  destruct (ramp_converges (cfg := example_config) 1000 (set_pwmEnabled true world_reset)
              H1 H2 ltac:(simpl; lia)) as (_ & _ & H & _).
  exact H.
Defined.

(** Two edges 5 ms apart, X limit asserted: one report, 32 ms after the
    second edge. *)
Lemma debounce_window_example :
  Forall (fun e : Z * Z * nat =>
            Z.land (snd (fst e)) (HWLIMIT_MASK (driver_config := example_config)) <> 0
            /\ (snd e < window)%nat) [(1, 1, Z.to_nat 5000)]
  /\ Z.land 1 (HWLIMIT_MASK (driver_config := example_config)) <> 0
  /\ notifications
       (trace (debounce_counts (cfg := example_config) window
                 (limit_edge (cfg := example_config) 1 1
                    (burst (cfg := example_config) [(1, 1, Z.to_nat 5000)] world_reset)))) = [1].
Proof.
  assert (H1 : Forall (fun e : Z * Z * nat =>
                         Z.land (snd (fst e)) (HWLIMIT_MASK (driver_config := example_config)) <> 0
                         /\ (snd e < window)%nat) [(1, 1, Z.to_nat 5000)]).
  { constructor; [|constructor]. split; [discriminate|unfold window; simpl; lia]. }
  assert (H2 : Z.land 1 (HWLIMIT_MASK (driver_config := example_config)) <> 0) by discriminate.
  split; [exact H1|]. split; [exact H2|].
  destruct (debounce_window_restarts (cfg := example_config) world_reset
              [(1, 1, Z.to_nat 5000)] 1 1 H1 H2) as (_ & _ & _ & H).
  destruct (H window (Nat.le_refl _)) as [Hn _].
  etransitivity; [exact Hn|]. vm_compute. reflexivity.
Defined.

(** * Further properties of the driver *)

(** ** Delay requests that overlap or are empty *)

Section DelayFacts.

Context {cfg : driver_config}.

Lemma tick_counting_null b w :
  counting 1 NULL w ->
  forall g, invocations g (trace (systick_tick b w)) = invocations g (trace w).
Proof.
  intros (Hms & Hcb & Hon) g. unfold systick_tick. rewrite Hon.
  destruct b; simpl.
  - rewrite ramped_isr_invocations. unfold delay_fires. rewrite Hms, Hcb. simpl. lia.
  - unfold Direct.systick_isr. simpl. rewrite Hms, Hcb. simpl.
    rewrite invocations_app. simpl. lia.
Qed.

Lemma delay_call_with_callback b fuel n fn w :
  n <> 0 -> fn <> NULL ->
  exists w1,
    driver_delay_ms b fuel n fn w = Some w1
    /\ counting n fn w1
    /\ trace w1 =
         trace w ++
         (if nonzero (callback (delay w)) then [Edelay_callback (callback (delay w))] else []) ++
         [ESysTickEnable].
Proof.
  intros Hn Hf. apply nonzero_true in Hn. apply nonzero_true in Hf.
  unfold driver_delay_ms. rewrite Hn, Hf. simpl. eexists. split; [reflexivity|].
  split; [by repeat split|].
  destruct (nonzero (callback (delay w))); simpl; rewrite <- ?app_assoc; reflexivity.
Qed.

(** A delay request with a callback that arrives while an earlier one is
    still counting: the earlier callback is invoked by the call itself,
    at once, and replaced; the ticks that follow never invoke it again
    and invoke the new callback once, when the new time has run out. *)
Theorem delay_request_superseded (b : build) (n1 n2 fn1 fn2 : Z) (j : nat) (w w1 w2 : world) :
  0 < n1 < 2 ^ 32 -> 0 < n2 < 2 ^ 32 ->
  fn1 <> NULL -> fn2 <> NULL -> fn1 <> fn2 ->
  (j < Z.to_nat n1)%nat ->
  driver_delay_ms b 0 n1 fn1 w = Some w1 ->
  driver_delay_ms b 0 n2 fn2 (systick_ticks b j w1) = Some w2 ->
  trace w2 = trace (systick_ticks b j w1) ++ [Edelay_callback fn1; ESysTickEnable]
  /\ invocations fn1 (trace w2) = S (invocations fn1 (trace w1))
  /\ invocations fn2 (trace w2) = invocations fn2 (trace w1)
  /\ (forall k, invocations fn1 (trace (systick_ticks b k w2)) = invocations fn1 (trace w2))
  /\ (forall k, (k < Z.to_nat n2)%nat ->
        invocations fn2 (trace (systick_ticks b k w2)) = invocations fn2 (trace w2))
  /\ (forall k, (Z.to_nat n2 <= k)%nat ->
        invocations fn2 (trace (systick_ticks b k w2)) = S (invocations fn2 (trace w2))).
Proof.
  intros Hn1 Hn2 Hf1 Hf2 Hne Hj Hcall1 Hcall2.
  destruct (delay_call_with_callback b O n1 fn1 w) as (w1' & E1 & Hc1 & _); [lia|assumption|].
  rewrite E1 in Hcall1. injection Hcall1 as ->.
  destruct (ticks_counting b fn1 j n1 w1) as [Hcj Hij]; [lia|assumption|].
  set (wj := systick_ticks b j w1) in *.
  destruct (delay_call_with_callback b O n2 fn2 wj) as (w2' & E2 & Hc2 & Ht2); [lia|assumption|].
  rewrite E2 in Hcall2. injection Hcall2 as ->.
  destruct Hcj as (_ & Hcb & _). rewrite Hcb in Ht2.
  apply nonzero_true in Hf1 as Hf1'. rewrite Hf1' in Ht2. simpl in Ht2.
  assert (Hne' : (fn1 =? fn2) = false) by (by apply Z.eqb_neq).
  assert (Hne'' : (fn2 =? fn1) = false) by (apply Z.eqb_neq; congruence).
  assert (Hexp : forall k, (Z.to_nat n2 <= k)%nat ->
            forall g, invocations g (trace (systick_ticks b k w2)) =
                      (invocations g (trace w2) + if (fn2 =? g)%Z then 1 else 0)%nat).
  { intros k Hk g.
    replace k with (Z.to_nat n2 + (k - Z.to_nat n2))%nat by lia.
    rewrite systick_ticks_add.
    destruct (ticks_to_expiry b fn2 (Z.to_nat n2) w2) as [He Hi]; [assumption|lia|lia| |].
    { by rewrite Z2Nat.id by lia. }
    destruct (ticks_expired b (k - Z.to_nat n2) _ He) as [_ Hi'].
    by rewrite Hi', Hi. }
  assert (Hrun : forall k, (k < Z.to_nat n2)%nat ->
            forall g, invocations g (trace (systick_ticks b k w2)) = invocations g (trace w2)).
  { intros k Hk g.
    destruct (ticks_counting b fn2 k n2 w2) as [_ Hi]; [lia|assumption|]. apply Hi. }
  split; [exact Ht2|]. split; [|split; [|split; [|split]]].
  - rewrite Ht2, invocations_app, Hij. simpl. rewrite Z.eqb_refl. lia.
  - rewrite Ht2, invocations_app, Hij. simpl. rewrite Hne'. lia.
  - intros k. destruct (Nat.lt_ge_cases k (Z.to_nat n2)) as [Hk|Hk].
    + by apply Hrun.
    + rewrite Hexp by assumption. rewrite Hne''. lia.
  - intros k Hk. by apply Hrun.
  - intros k Hk. rewrite Hexp by assumption. rewrite Z.eqb_refl. lia.
Qed.

(** A request for zero milliseconds never waits and never touches the
    tick source.  It invokes the pending callback, if any, and then its
    own; a countdown still running is cut to one tick with no callback
    stored, so the next tick ends it and invokes nothing. *)
Theorem delay_request_zero (b : build) (fuel : nat) (fn : Z) (w : world) :
  exists w',
    driver_delay_ms b fuel 0 fn w = Some w'
    /\ trace w' =
         trace w ++
         (if nonzero (callback (delay w)) then [Edelay_callback (callback (delay w))] else []) ++
         (if nonzero fn then [Edelay_callback fn] else [])
    /\ systick w' = systick w
    /\ (ms (delay w) = 0 -> delay w' = delay w)
    /\ (ms (delay w) <> 0 ->
        delay w' = mkDelay 1 NULL
        /\ (systick w = true ->
            ms (delay (systick_tick b w')) = 0
            /\ forall g, invocations g (trace (systick_tick b w')) = invocations g (trace w'))).
Proof.
  unfold driver_delay_ms. simpl. eexists. split; [reflexivity|].
  set (w0 := if nonzero (callback (delay w))
             then emit (Edelay_callback (callback (delay w))) w else w).
  assert (H0 : delay w0 = delay w /\ systick w0 = systick w
               /\ trace w0 = trace w ++
                    (if nonzero (callback (delay w))
                     then [Edelay_callback (callback (delay w))] else []))
    by (unfold w0; destruct (nonzero (callback (delay w))); simpl;
        rewrite ?app_nil_r; repeat split).
  destruct H0 as (Hd0 & Hs0 & Ht0). rewrite Hd0.
  destruct (nonzero (ms (delay w))) eqn:Hms.
  - apply nonzero_true in Hms.
    split; [|split; [|split; [contradiction|]]].
    + destruct (nonzero fn); simpl; rewrite Ht0, <- ?app_assoc, ?app_nil_r; reflexivity.
    + destruct (nonzero fn); simpl; exact Hs0.
    + intros _. split; [by destruct (nonzero fn)|]. intros Hon.
      set (w' := if nonzero fn then _ else _).
      assert (Hc : counting 1 NULL w').
      { unfold w'. destruct (nonzero fn); repeat split; simpl; by rewrite Hs0. }
      split; [by apply (tick_last b NULL)|by apply tick_counting_null].
  - apply nonzero_false in Hms.
    split; [|split; [|split; [|contradiction]]].
    + destruct (nonzero fn); simpl; rewrite Ht0, <- ?app_assoc, ?app_nil_r; reflexivity.
    + destruct (nonzero fn); simpl; exact Hs0.
    + intros _. destruct (nonzero fn); simpl; exact Hd0.
Qed.

(** The two builds differ when the handler runs with the countdown
    already at zero: the ramped handler leaves [delay] as it is, the
    direct handler decrements through zero to 2^32 - 1, keeps the tick
    source running and invokes nothing. *)
Theorem systick_at_zero_countdown (w : world) :
  ms (delay w) = 0 ->
  delay (Ramped.systick_isr w) = delay w
  /\ ms (delay (Direct.systick_isr w)) = 2 ^ 32 - 1
  /\ callback (delay (Direct.systick_isr w)) = callback (delay w)
  /\ systick (Direct.systick_isr w) = systick w
  /\ trace (Direct.systick_isr w) = trace w.
Proof.
  intros Hms. split.
  - rewrite ramped_isr_delay. unfold delay_next. by rewrite Hms.
  - unfold Direct.systick_isr. simpl. rewrite Hms. simpl. repeat split.
Qed.

End DelayFacts.

(** ** Limit inputs without debounce *)

Section LimitFacts.

Context {cfg : driver_config}.

(** [limit_isr] clears every flag it found pending on the limit port.
    With a limit flag among them it reports the limit state once, as
    sampled in the handler and also when that state is zero, and leaves
    [probeState] alone, so a probe edge pending together with a limit
    edge is acknowledged without being recorded.  Without a limit flag it
    reports nothing. *)
Theorem limit_isr_dispatch (w : world) :
  let iflags := GPIOIntStatus LIMIT_PORT w in
  let w' := limit_isr w in
  GPIOIntStatus LIMIT_PORT w' = 0
  /\ gpio_data w' = gpio_data w
  /\ (Z.land iflags HWLIMIT_MASK <> 0 ->
      notifications (trace w') = notifications (trace w) ++ [limitsGetState w]
      /\ probeState w' = probeState w)
  /\ (Z.land iflags HWLIMIT_MASK = 0 ->
      notifications (trace w') = notifications (trace w)).
Proof.
  cbv zeta. unfold limit_isr.
  set (w1 := GPIOIntClear LIMIT_PORT (GPIOIntStatus LIMIT_PORT w) w).
  assert (H1 : GPIOIntStatus LIMIT_PORT w1 = 0).
  { unfold w1, GPIOIntStatus, GPIOIntClear. simpl. rewrite port_read_insert.
    apply Z.land_lnot_diag. }
  assert (Hs : limitsGetState w1 = limitsGetState w) by (by apply limitsGetState_same_data).
  assert (Hn : notifications (trace w1) = notifications (trace w)).
  { unfold w1, GPIOIntClear, emit. simpl. rewrite notifications_app. simpl. apply app_nil_r. }
  assert (Hg : gpio_data w1 = gpio_data w) by reflexivity.
  assert (Hp : probeState w1 = probeState w) by reflexivity.
  clearbody w1.
  destruct (nonzero (Z.land (GPIOIntStatus LIMIT_PORT w) HWLIMIT_MASK)) eqn:E.
  - apply nonzero_true in E. split; [exact H1|]. split; [exact Hg|].
    split; [|contradiction]. intros _. split; [|exact Hp].
    unfold emit. simpl. by rewrite notifications_app, Hn, Hs.
  - apply nonzero_false in E.
    destruct (nonzero (Z.land (GPIOIntStatus LIMIT_PORT w) PROBE_PIN)).
    + split; [exact H1|]. split; [exact Hg|]. split; [contradiction|]. intros _. exact Hn.
    + split; [exact H1|]. split; [exact Hg|]. split; [contradiction|]. intros _. exact Hn.
Qed.



End LimitFacts.

(** ** The output maps of [settings_changed] *)

Lemma testbit_uint8 x n : 0 <= n -> Z.testbit (uint8 x) n = (n <? 8) && Z.testbit x n.
Proof.
  intros Hn. unfold uint8, wrap. destruct (Z.ltb_spec n 8).
  - by rewrite Z.mod_pow2_bits_low.
  - by rewrite Z.mod_pow2_bits_high.
Qed.

Lemma disjoint_bits a b n : Z.land a b = 0 -> Z.testbit a n && Z.testbit b n = false.
Proof. intros H. rewrite <- Z.land_spec, H. apply Z.bits_0. Qed.

Ltac pin_bits x y z Hxy Hxz Hyz :=
  apply Z.bits_inj'; intros n Hn;
  pose proof (disjoint_bits x y n Hxy);
  pose proof (disjoint_bits x z n Hxz);
  pose proof (disjoint_bits y z n Hyz);
  repeat first [ rewrite testbit_uint8 by assumption | rewrite Z.lxor_spec | rewrite Z.land_spec
               | rewrite Z.lor_spec | rewrite Z.bits_0 ];
  destruct (Z.testbit x n), (Z.testbit y n), (Z.testbit z n), (n <? 8);
  simpl in *; congruence.

(** Evaluate the constant indices and bits of a goal about [axis_map]. *)
Ltac index_consts :=
  repeat match goal with
         | |- context [table _ (Z.lxor ?a ?b)] =>
             let r := eval vm_compute in (Z.lxor a b) in change (Z.lxor a b) with r
         | |- context [Z.testbit ?a ?b] =>
             let r := eval vm_compute in (Z.testbit a b) in
             progress change (Z.testbit a b) with r
         end;
  unfold table;
  repeat match goal with
         | |- context [Z.to_nat ?k] =>
             let r := eval vm_compute in (Z.to_nat k) in change (Z.to_nat k) with r
         end;
  unfold axis_map; cbn [map nth].

Lemma small_cases v :
  0 <= v < 8 -> v = 0 \/ v = 1 \/ v = 2 \/ v = 3 \/ v = 4 \/ v = 5 \/ v = 6 \/ v = 7.
Proof. lia. Qed.

Lemma axis_map_invert x y z v inv :
  Z.land x y = 0 -> Z.land x z = 0 -> Z.land y z = 0 ->
  0 <= v < 8 -> 0 <= inv < 8 ->
  table (map (fun c => Z.lxor c (table (axis_map x y z) inv)) (axis_map x y z)) v =
  table (axis_map x y z) (Z.lxor v inv).
Proof.
  intros Hxy Hxz Hyz Hv Hi.
  destruct (small_cases v Hv) as [->|[->|[->|[->|[->|[->|[->| ->]]]]]]];
    destruct (small_cases inv Hi) as [->|[->|[->|[->|[->|[->|[->| ->]]]]]]];
    index_consts; pin_bits x y z Hxy Hxz Hyz.
Qed.

Lemma axis_map_pin x y z u :
  Z.land x y = 0 -> Z.land x z = 0 -> Z.land y z = 0 ->
  0 <= u < 8 ->
  Z.land (uint8 (table (axis_map x y z) u)) (uint8 x) = (if Z.testbit u 0 then uint8 x else 0)
  /\ Z.land (uint8 (table (axis_map x y z) u)) (uint8 y) = (if Z.testbit u 1 then uint8 y else 0)
  /\ Z.land (uint8 (table (axis_map x y z) u)) (uint8 z) = (if Z.testbit u 2 then uint8 z else 0).
Proof.
  intros Hxy Hxz Hyz Hu.
  destruct (small_cases u Hu) as [->|[->|[->|[->|[->|[->|[->| ->]]]]]]];
    index_consts; repeat split; pin_bits x y z Hxy Hxz Hyz.
Qed.

Lemma masked_write_read_within old pins val sub :
  Z.land (uint8 sub) (uint8 pins) = uint8 sub ->
  Z.land (masked_write old pins val) (uint8 sub) = Z.land (uint8 val) (uint8 sub).
Proof.
  intros Hsub. unfold masked_write. apply Z.bits_inj'. intros n Hn.
  assert (Hb : Z.testbit (Z.land (uint8 sub) (uint8 pins)) n = Z.testbit (uint8 sub) n)
    by (by rewrite Hsub).
  rewrite Z.land_spec in Hb.
  rewrite !Z.land_spec, Z.lor_spec, !Z.land_spec, Z.lnot_spec by assumption.
  destruct (Z.testbit old n), (Z.testbit (uint8 pins) n), (Z.testbit (uint8 val) n),
    (Z.testbit (uint8 sub) n); simpl in *; congruence.
Qed.

Lemma lxor_small v inv : 0 <= v < 8 -> 0 <= inv < 8 -> 0 <= Z.lxor v inv < 8.
Proof.
  intros Hv Hi.
  destruct (small_cases v Hv) as [->|[->|[->|[->|[->|[->|[->| ->]]]]]]];
    destruct (small_cases inv Hi) as [->|[->|[->|[->|[->|[->|[->| ->]]]]]]];
    vm_compute; split; congruence.
Qed.

Lemma axis_map_shift n v inv :
  0 <= n <= 5 -> 0 <= v < 8 -> 0 <= inv < 8 ->
  table (map (fun c => Z.lxor c (table (axis_map (Z.shiftl 1 n) (Z.shiftl 2 n) (Z.shiftl 4 n)) inv))
           (axis_map (Z.shiftl 1 n) (Z.shiftl 2 n) (Z.shiftl 4 n))) v =
  Z.shiftl (Z.lxor v inv) n.
Proof.
  intros Hn Hv Hi.
  assert (Hc : n = 0 \/ n = 1 \/ n = 2 \/ n = 3 \/ n = 4 \/ n = 5) by lia.
  destruct Hc as [->|[->|[->|[->|[->| ->]]]]];
    destruct (small_cases v Hv) as [->|[->|[->|[->|[->|[->|[->| ->]]]]]]];
    destruct (small_cases inv Hi) as [->|[->|[->|[->|[->|[->|[->| ->]]]]]]];
    vm_compute; reflexivity.
Qed.

Section OutputFacts.

Context {cfg : driver_config}.

(** With the lookup table selected for the step outputs and the three
    step pins distinct pins of the step mask, the table
    [settings_changed] fills in holds for a step pattern [v] the pins of
    [v ^ step_invert]: after [set_step_outputs(v)] the step pin of an axis
    is high exactly when the axis's bit of [v ^ step_invert] is set. *)
Theorem step_map_applies_invert (v : Z) (w : world) :
  STEP_OUTMODE = GPIO_MAP ->
  Z.land X_STEP_PIN Y_STEP_PIN = 0 ->
  Z.land X_STEP_PIN Z_STEP_PIN = 0 ->
  Z.land Y_STEP_PIN Z_STEP_PIN = 0 ->
  Z.land (uint8 X_STEP_PIN) (uint8 HWSTEP_MASK) = uint8 X_STEP_PIN ->
  Z.land (uint8 Y_STEP_PIN) (uint8 HWSTEP_MASK) = uint8 Y_STEP_PIN ->
  Z.land (uint8 Z_STEP_PIN) (uint8 HWSTEP_MASK) = uint8 Z_STEP_PIN ->
  0 <= v < 8 ->
  0 <= step_invert settings < 8 ->
  let u := Z.lxor v (step_invert settings) in
  let w' := set_step_outputs v w in
  step_pattern v = table c_step_outmap u
  /\ GPIOPinRead STEP_PORT X_STEP_PIN w' = (if Z.testbit u 0 then uint8 X_STEP_PIN else 0)
  /\ GPIOPinRead STEP_PORT Y_STEP_PIN w' = (if Z.testbit u 1 then uint8 Y_STEP_PIN else 0)
  /\ GPIOPinRead STEP_PORT Z_STEP_PIN w' = (if Z.testbit u 2 then uint8 Z_STEP_PIN else 0).
Proof.
  intros Hmode Hxy Hxz Hyz Hx Hy Hz Hv Hi. cbv zeta.
  assert (Hp : step_pattern v = table c_step_outmap (Z.lxor v (step_invert settings))).
  { unfold step_pattern. rewrite Hmode. by apply axis_map_invert. }
  split; [exact Hp|].
  pose proof (lxor_small v _ Hv Hi) as Hu.
  destruct (axis_map_pin X_STEP_PIN Y_STEP_PIN Z_STEP_PIN _ Hxy Hxz Hyz Hu) as (Px & Py & Pz).
  unfold set_step_outputs, GPIOPinRead, GPIOPinWrite. simpl.
  rewrite port_read_insert, !masked_write_read_within by assumption.
  rewrite Hp. by repeat split.
Qed.

(** The build with the lookup table and the build with the shift agree:
    when the three direction pins are the consecutive pins [1 << n],
    [2 << n] and [4 << n] of the port, the table entry written for a
    direction pattern [v] is [(v ^ dir_invert) << n], the value the shift
    variant of [set_dir_outputs] computes. *)
Theorem dir_map_equals_shift (n v : Z) :
  DIRECTION_OUTMODE = GPIO_MAP ->
  X_DIRECTION_PIN = Z.shiftl 1 n ->
  Y_DIRECTION_PIN = Z.shiftl 2 n ->
  Z_DIRECTION_PIN = Z.shiftl 4 n ->
  0 <= n <= 5 ->
  0 <= v < 8 ->
  0 <= dir_invert settings < 8 ->
  dir_pattern v = Z.shiftl (Z.lxor v (dir_invert settings)) n.
Proof.
  intros Hmode Hx Hy Hz Hn Hv Hi.
  unfold dir_pattern. rewrite Hmode. unfold dir_outmap, c_dir_outmap.
  rewrite Hx, Hy, Hz. by apply axis_map_shift.
Qed.

(** One pulse in immediate mode: [stepperPulseStart] with a non-empty
    step pattern drives the step pins with that pattern and starts the
    pulse timer; [stepper_pulse_isr] then returns them to the empty
    pattern and acknowledges the time-out flag only, and leaves the
    direction pins alone.  Whatever came before, the step pins show the
    empty pattern after every pulse interrupt. *)
Theorem immediate_pulse_cycle (c : stepper_t) (w : world) :
  step_outbits c <> 0 ->
  let w1 := snd (stepperPulseStart c w) in
  let w2 := stepper_pulse_isr w1 in
  step_pins w1 = Z.land (uint8 (step_pattern (step_outbits c))) (uint8 HWSTEP_MASK)
  /\ enabled (pulse_timer w1) = true
  /\ step_pins w2 = Z.land (uint8 (step_pattern 0)) (uint8 HWSTEP_MASK)
  /\ TimerIntStatus PULSE_TIMER_BASE w2 =
       Z.land (TimerIntStatus PULSE_TIMER_BASE w1) (Z.lnot TIMER_TIMA_TIMEOUT)
  /\ (outputs_disjoint -> dir_pins w2 = dir_pins w1)
  /\ (forall es flags w0,
        step_pins (stepper_run Immediate (es ++ [PulseInterrupt flags]) w0) =
        Z.land (uint8 (step_pattern 0)) (uint8 HWSTEP_MASK)).
Proof.
  intros Hs. apply nonzero_true in Hs. cbv zeta.
  assert (Hw1 : snd (stepperPulseStart c w) =
                TimerEnable PULSE_TIMER_BASE
                  (set_step_outputs (step_outbits c)
                     (if new_block c then set_dir_outputs (dir_outbits c) w else w))).
  { unfold stepperPulseStart. destruct c as [[] d s]; simpl in *; by rewrite Hs. }
  rewrite Hw1. split; [|split; [reflexivity|split; [|split; [reflexivity|split]]]].
  - by rewrite step_pins_TimerEnable, step_pins_set_step.
  - unfold stepper_pulse_isr. by rewrite step_pins_set_step.
  - intros Hd. by apply (pulse_handler_dir_pins Immediate).
  - intros es flags w0. revert w0. induction es as [|e es IH]; intros w0; simpl.
    + unfold stepper_pulse_isr. by rewrite step_pins_set_step.
    + apply IH.
Qed.

End OutputFacts.

(** ** Coolant, spindle state, probe and limit set-up *)

Lemma pin_level_written pin (b : bool) :
  uint8 pin <> 0 ->
  nonzero (Z.land (uint8 (if b then pin else 0)) (uint8 pin)) = b.
Proof.
  intros Hp. destruct b.
  - rewrite Z.land_diag. by apply nonzero_true.
  - reflexivity.
Qed.

Section PeripheralFacts.

Context {cfg : driver_config} {io : io_config}.

(** [coolantGetState] after [coolantSetState(mode)] gives back the flood
    and mist bits of [mode], whatever the invert mask, when the two
    coolant outputs are separate pins. *)
Theorem coolant_state_round_trip (mode : coolant_state_t) (w : world) :
  coolant_pins_ok ->
  flood (coolantGetState (coolantSetState mode w)) = flood mode
  /\ mist (coolantGetState (coolantSetState mode w)) = mist mode.
Proof.
  intros (Hf & Hm & Hd). unfold coolantGetState, coolantSetState. simpl.
  rewrite GPIOPinRead_write.
  rewrite GPIOPinRead_write_other
    by (destruct Hd as [Hd|Hd]; [left; congruence|right; by rewrite Z.land_comm]).
  rewrite GPIOPinRead_write.
  rewrite !pin_level_written by assumption.
  split.
  - by destruct (flood mode), (flood coolant_invert).
  - by destruct (mist mode), (mist coolant_invert).
Qed.

(** [spindleGetState] while the PWM is off reports the levels of the
    enable and direction pins: the two exclusive-ors with the invert mask
    cancel.  After [spindleSetState(state)] it therefore reports [on] as
    [state.on] exclusive-or the configured inversion of the enable
    output, and for a state that is on likewise [ccw]; it gives back the
    state that was set when neither output is inverted. *)
Theorem spindle_state_read_back (b : build) (state : spindle_state_t) (w : world) :
  spindle_pins_ok ->
  pwmEnabled w = false ->
  spindle_dir_cap = true ->
  let got := spindleGetState b (spindleSetState state w) in
  on got = xorb (on state) (spindle_invert_on settings)
  /\ (on state = true -> ccw got = xorb (ccw state) spindle_invert_ccw)
  /\ (spindle_invert_on settings = false -> on got = on state)
  /\ (spindle_invert_ccw = false -> on state = true -> ccw got = ccw state).
Proof.
  intros (He & Hdp & Hd) Hpwm Hcap. cbv zeta.
  assert (Hon : on (spindleGetState b (spindleSetState state w)) =
                xorb (on state) (spindle_invert_on settings)).
  { unfold spindleGetState, spindleSetState, spindle_off, spindle_on, spindle_dir.
    rewrite Hcap.
    destruct b, (on state); simpl; rewrite Hpwm; simpl; rewrite GPIOPinRead_write;
      destruct (spindle_invert_on settings); simpl;
      rewrite ?Z.land_diag; try reflexivity;
      apply nonzero_true in He; rewrite He; reflexivity. }
  assert (Hccw : on state = true ->
                 ccw (spindleGetState b (spindleSetState state w)) =
                 xorb (ccw state) spindle_invert_ccw).
  { intros Hs. unfold spindleGetState, spindleSetState, spindle_off, spindle_on, spindle_dir.
    rewrite Hcap, Hs.
    destruct b; simpl; rewrite Hpwm; simpl;
      rewrite (GPIOPinRead_write_other SPINDLE_DIRECTION_PORT SPINDLE_DIRECTION_PIN)
        by (destruct Hd as [Hd|Hd]; [left; congruence|right; by rewrite Z.land_comm]);
      rewrite GPIOPinRead_write, pin_level_written by assumption;
      by destruct (ccw state), spindle_invert_ccw. }
  split; [exact Hon|]. split; [exact Hccw|]. split.
  - intros Hi. rewrite Hon, Hi. by destruct (on state).
  - intros Hi Hs. rewrite (Hccw Hs), Hi. by destruct (ccw state).
Qed.

Lemma uint8_pow2 k : 0 <= k < 8 -> uint8 (2 ^ k) = 2 ^ k.
Proof.
  intros Hk. unfold uint8, wrap. apply Z.mod_small. split; [apply Z.pow_nonneg; lia|].
  apply Z.pow_lt_mono_r; lia.
Qed.

Lemma land_pow2 a k : 0 <= k -> Z.land a (2 ^ k) = if Z.testbit a k then 2 ^ k else 0.
Proof.
  intros Hk. apply Z.bits_inj'. intros n Hn. rewrite Z.land_spec, Z.pow2_bits_eqb by assumption.
  destruct (Z.eqb_spec k n) as [->|Hne].
  - destruct (Z.testbit a n); [by rewrite Z.pow2_bits_true|by rewrite Z.bits_0].
  - rewrite andb_false_r. destruct (Z.testbit a k); [|by rewrite Z.bits_0].
    symmetry. by apply Z.pow2_bits_false.
Qed.

Lemma pow2_nonzero k : 0 <= k -> 2 ^ k <> 0.
Proof. intros Hk. apply Z.pow_nonzero; lia. Qed.

Lemma probe_pin_read (data k : Z) :
  0 <= k < 8 ->
  uint8 (Z.land data (uint8 (2 ^ k))) = if Z.testbit data k then 2 ^ k else 0.
Proof.
  intros Hk. rewrite uint8_pow2, land_pow2 by lia.
  destruct (Z.testbit data k); [by apply uint8_pow2|reflexivity].
Qed.

(** [probeConfigure] for a probe input on pin [k] of its port: it leaves
    [probe_invert] at the pin's mask, or at 0 when exactly one of the
    [invert_probe_pin] setting and the probe-away mode holds.
    [probeGetState] then answers the pin level, inverted unless exactly
    one of the two holds, so that configuring for the other probing
    direction turns the answer round.  The probe interrupt is enabled, on
    the falling edge when [probe_invert] is set and on the rising edge
    otherwise. *)
Theorem probe_configure_polarity (k : Z) (away : bool) (w : world) (q : gpio_irq) :
  0 <= k < 8 ->
  PROBE_PIN = 2 ^ k ->
  let level := Z.testbit (port_read (gpio_data w) PROBE_PORT) k in
  let plain := xorb invert_probe_pin away in
  let w' := fst (probeConfigure away (w, q)) in
  let q' := snd (probeConfigure away (w, q)) in
  probe_invert w' = (if plain then 0 else 2 ^ k)
  /\ probeGetState w' = xorb level (negb plain)
  /\ probeGetState (fst (probeConfigure (negb away) (w, q))) = negb (probeGetState w')
  /\ Z.testbit (port_read (irq_mask q') PROBE_PORT) k = true
  /\ Z.testbit (port_read (irq_falling q') PROBE_PORT) k = negb plain.
Proof.
  intros Hk Hpin. cbv zeta.
  assert (Hinv : forall a, probe_invert (fst (probeConfigure a (w, q))) =
                           if xorb invert_probe_pin a then 0 else 2 ^ k).
  { intros a. unfold probeConfigure. rewrite Hpin.
    destruct invert_probe_pin, a; simpl; rewrite ?uint8_pow2 by lia;
      rewrite ?Z.lxor_nilpotent, ?Z.lxor_0_l, ?uint8_pow2 by lia; reflexivity. }
  assert (Hdata : forall a, gpio_data (fst (probeConfigure a (w, q))) = gpio_data w).
  { intros a. unfold probeConfigure. by destruct invert_probe_pin, a. }
  assert (Hget : forall a, probeGetState (fst (probeConfigure a (w, q))) =
                           xorb (Z.testbit (port_read (gpio_data w) PROBE_PORT) k)
                                (negb (xorb invert_probe_pin a))).
  { intros a. unfold probeGetState, GPIOPinRead. rewrite Hinv, Hdata, Hpin.
    rewrite probe_pin_read by assumption.
    pose proof (pow2_nonzero k ltac:(lia)) as Hnz. apply nonzero_true in Hnz.
    destruct (Z.testbit (port_read (gpio_data w) PROBE_PORT) k), (xorb invert_probe_pin a);
      simpl; rewrite ?Z.lxor_nilpotent, ?Z.lxor_0_l, ?Z.lxor_0_r; try reflexivity;
      by rewrite Hnz. }
  split; [apply Hinv|]. split; [apply Hget|]. split.
  - rewrite !Hget. by destruct invert_probe_pin, away, (Z.testbit _ k).
  - assert (Hni : nonzero (probe_invert (fst (probeConfigure away (w, q)))) =
                  negb (xorb invert_probe_pin away)).
    { rewrite Hinv. pose proof (pow2_nonzero k ltac:(lia)) as Hnz. apply nonzero_true in Hnz.
      destruct (xorb invert_probe_pin away); [reflexivity|exact Hnz]. }
    unfold probeConfigure in *. simpl in *. rewrite Hpin in *.
    set (w1 := if away then _ else _) in *.
    rewrite !port_read_insert. split.
    + rewrite Z.lor_spec, Z.pow2_bits_true by lia. apply orb_true_r.
    + rewrite Hni, uint8_pow2 by assumption.
      destruct (xorb invert_probe_pin away); simpl.
      * rewrite Z.land_spec, Z.lnot_spec, Z.pow2_bits_true by lia. apply andb_false_r.
      * rewrite Z.lor_spec, Z.pow2_bits_true by lia. apply orb_true_r.
Qed.

(** [limitsEnable] sets the interrupt mask of the limit pins when asked
    to and hard limits are enabled in the settings, and clears it
    otherwise.  It changes nothing else: the mask bits of other pins of
    the port, such as a probe input sharing it, the other ports and the
    edge selection stay as they were, and a second call with the same
    arguments changes nothing. *)
Theorem limits_enable_frame (on homing : bool) (q : gpio_irq) :
  let q' := limitsEnable on homing q in
  Z.land (port_read (irq_mask q') LIMIT_PORT) HWLIMIT_MASK =
    (if on && hard_limits_enabled then HWLIMIT_MASK else 0)
  /\ (forall pins, Z.land pins HWLIMIT_MASK = 0 ->
        Z.land (port_read (irq_mask q') LIMIT_PORT) pins =
        Z.land (port_read (irq_mask q) LIMIT_PORT) pins)
  /\ (forall port, port <> LIMIT_PORT ->
        port_read (irq_mask q') port = port_read (irq_mask q) port)
  /\ irq_falling q' = irq_falling q
  /\ limitsEnable on homing q' = q'.
Proof.
  cbv zeta. unfold limitsEnable, GPIOIntEnable, GPIOIntDisable.
  destruct (on && hard_limits_enabled); simpl; rewrite !port_read_insert.
  - split; [|split; [|split; [|split]]].
    + apply Z.bits_inj'. intros n Hn. rewrite Z.land_spec, Z.lor_spec.
      by destruct (Z.testbit HWLIMIT_MASK n), (Z.testbit (port_read (irq_mask q) LIMIT_PORT) n).
    + intros pins Hp. apply Z.bits_inj'. intros n Hn.
      pose proof (disjoint_bits pins HWLIMIT_MASK n Hp).
      rewrite !Z.land_spec, Z.lor_spec.
      destruct (Z.testbit HWLIMIT_MASK n), (Z.testbit pins n),
        (Z.testbit (port_read (irq_mask q) LIMIT_PORT) n); simpl in *; congruence.
    + intros port Hne. by rewrite port_read_insert_ne.
    + reflexivity.
    + f_equal. rewrite insert_insert_eq. f_equal.
      apply Z.bits_inj'. intros n Hn. rewrite !Z.lor_spec.
      by destruct (Z.testbit HWLIMIT_MASK n), (Z.testbit (port_read (irq_mask q) LIMIT_PORT) n).
  - split; [|split; [|split; [|split]]].
    + rewrite <- Z.land_assoc, (Z.land_comm (Z.lnot _)), Z.land_lnot_diag. apply Z.land_0_r.
    + intros pins Hp. apply Z.bits_inj'. intros n Hn.
      pose proof (disjoint_bits pins HWLIMIT_MASK n Hp).
      rewrite !Z.land_spec, Z.lnot_spec by assumption.
      destruct (Z.testbit HWLIMIT_MASK n), (Z.testbit pins n),
        (Z.testbit (port_read (irq_mask q) LIMIT_PORT) n); simpl in *; congruence.
    + intros port Hne. by rewrite port_read_insert_ne.
    + reflexivity.
    + f_equal. rewrite insert_insert_eq. f_equal.
      apply Z.bits_inj'. intros n Hn. rewrite !Z.land_spec, Z.lnot_spec by assumption.
      by destruct (Z.testbit HWLIMIT_MASK n), (Z.testbit (port_read (irq_mask q) LIMIT_PORT) n).
Qed.

End PeripheralFacts.

(** ** Direct PWM: what [spindle_set_speed] loads *)

Lemma split_duty v : 0 <= v -> Z.shiftr v 16 * 65536 + Z.land v 65535 = v.
Proof.
  intros Hv. change 65535 with (Z.ones 16). rewrite Z.land_ones, Z.shiftr_div_pow2 by lia.
  change (2 ^ 16) with 65536. pose proof (Z.div_mod v 65536 ltac:(lia)). lia.
Qed.

Lemma shiftr_small v : 0 <= v < 2 ^ 24 -> 0 <= Z.shiftr v 16 < 256.
Proof.
  intros Hv. rewrite Z.shiftr_div_pow2 by lia. split; [apply Z.div_pos; lia|].
  apply Z.div_lt_upper_bound; lia.
Qed.

Lemma land_small v : 0 <= v -> 0 <= Z.land v 65535 < 65536.
Proof.
  intros Hv. change 65535 with (Z.ones 16). rewrite Z.land_ones by lia.
  change (2 ^ 16) with 65536. apply Z.mod_pos_bound. lia.
Qed.

Section DirectFacts.

Context {cfg : driver_config}.

(** Direct PWM, a speed other than the off value, below 2^24 (the
    16-bit timer with its 8-bit prescaler): the value is split over the
    match and the prescale-match register without loss, and the PWM is
    marked enabled.  On a PWM already enabled nothing else is written:
    pins, period, level and run state of the timer stay. *)
Theorem direct_speed_loads_duty (v : Z) (w : world) :
  v <> off_value spindle_pwm ->
  0 <= v < 2 ^ 24 ->
  let w' := Direct.spindle_set_speed v w in
  prescale_match (pwm_timer w') * 65536 + matchv (pwm_timer w') = v
  /\ 0 <= matchv (pwm_timer w') < 65536
  /\ 0 <= prescale_match (pwm_timer w') < 256
  /\ pwmEnabled w' = true
  /\ (pwmEnabled w = true ->
      gpio_data w' = gpio_data w
      /\ load (pwm_timer w') = load (pwm_timer w)
      /\ prescale (pwm_timer w') = prescale (pwm_timer w)
      /\ level (pwm_timer w') = level (pwm_timer w)
      /\ enabled (pwm_timer w') = enabled (pwm_timer w)
      /\ trace w' =
           trace w ++
           [ETimerPrescaleMatchSet SPINDLE_PWM_TIMER_BASE (Z.shiftr v 16);
            ETimerMatchSet SPINDLE_PWM_TIMER_BASE (Z.land v 65535)]).
Proof.
  intros Hv Hr. cbv zeta. apply Z.eqb_neq in Hv.
  pose proof (shiftr_small v Hr) as Hs. pose proof (land_small v ltac:(lia)) as Hl.
  unfold Direct.spindle_set_speed. rewrite Hv.
  destruct (pwmEnabled w) eqn:Hp; simpl; rewrite ?Hp; simpl;
    rewrite !uint32_small by lia;
    (split; [by apply split_duty; lia|]); (split; [exact Hl|]); (split; [exact Hs|]);
    (split; [first [reflexivity | exact Hp]|]);
    intros Hq; [|discriminate].
  repeat split. by rewrite <- app_assoc.
Qed.

(** Direct PWM, off and on again.  The off value clears [pwmEnabled] and
    leaves the timer running only in the always-on configuration; the
    enable pin goes to its off level when the settings ask for it and is
    not written otherwise.  A speed set after that brings everything
    back: enable pin at its on level, period loaded, level set, timer
    running, and the value in the match registers. *)
Theorem direct_off_then_on (v : Z) (w : world) :
  v <> off_value spindle_pwm ->
  0 <= v < 2 ^ 24 ->
  0 <= period spindle_pwm < 2 ^ 24 ->
  let w1 := Direct.spindle_set_speed (off_value spindle_pwm) w in
  let w2 := Direct.spindle_set_speed v w1 in
  (pwmEnabled w1 = false
   /\ enabled (pwm_timer w1) = always_on spindle_pwm
   /\ (disable_with_zero_speed settings = false -> gpio_data w1 = gpio_data w)
   /\ (disable_with_zero_speed settings = true ->
       GPIOPinRead SPINDLE_ENABLE_PORT SPINDLE_ENABLE_PIN w1 =
       if spindle_invert_on settings then uint8 SPINDLE_ENABLE_PIN else 0))
  /\ (pwmEnabled w2 = true
      /\ enabled (pwm_timer w2) = true
      /\ GPIOPinRead SPINDLE_ENABLE_PORT SPINDLE_ENABLE_PIN w2 =
           (if spindle_invert_on settings then 0 else uint8 SPINDLE_ENABLE_PIN)
      /\ prescale (pwm_timer w2) * 65536 + load (pwm_timer w2) = period spindle_pwm
      /\ level (pwm_timer w2) = negb (spindle_invert_pwm settings)
      /\ prescale_match (pwm_timer w2) * 65536 + matchv (pwm_timer w2) = v).
Proof.
  intros Hv Hr Hper. cbv zeta.
  set (w1 := Direct.spindle_set_speed (off_value spindle_pwm) w).
  assert (H1 : pwmEnabled w1 = false
               /\ enabled (pwm_timer w1) = always_on spindle_pwm
               /\ (disable_with_zero_speed settings = false -> gpio_data w1 = gpio_data w)
               /\ (disable_with_zero_speed settings = true ->
                   GPIOPinRead SPINDLE_ENABLE_PORT SPINDLE_ENABLE_PIN w1 =
                   if spindle_invert_on settings then uint8 SPINDLE_ENABLE_PIN else 0)).
  { unfold w1, Direct.spindle_set_speed. rewrite Z.eqb_refl.
    destruct (disable_with_zero_speed settings), (always_on spindle_pwm); simpl;
      repeat split; try discriminate; intros _;
      unfold GPIOPinRead; simpl; rewrite port_read_insert, masked_write_read;
      destruct (spindle_invert_on settings); by rewrite ?Z.land_diag. }
  split; [exact H1|]. destruct H1 as (Hp1 & _). clearbody w1.
  apply Z.eqb_neq in Hv.
  pose proof (shiftr_small v Hr) as Hs. pose proof (land_small v ltac:(lia)) as Hl.
  pose proof (shiftr_small _ Hper) as Hps.
  assert (Hpl : 0 <= Z.land (period spindle_pwm) 65535 < 65536) by (apply land_small; lia).
  unfold Direct.spindle_set_speed. rewrite Hv. simpl. rewrite Hp1. simpl.
  rewrite !uint32_small by lia.
  split; [reflexivity|]. split; [reflexivity|]. split.
  - unfold GPIOPinRead. simpl. rewrite port_read_insert, masked_write_read.
    destruct (spindle_invert_on settings); by rewrite ?Z.land_diag.
  - split; [apply split_duty; lia|]. split; [reflexivity|]. apply split_duty; lia.
Qed.

End DirectFacts.

(** ** Ramped PWM: what the ramp does to the timer and the enable pin *)

Section RampHardware.

Context {cfg : driver_config}.

Lemma spindle_hw_fields w w' :
  spindle_hw w' = spindle_hw w ->
  pwmEnabled w' = pwmEnabled w /\ pwm_timer w' = pwm_timer w /\ gpio_data w' = gpio_data w.
Proof. unfold spindle_hw. intros H. by inversion H. Qed.

Lemma ramped_isr_hw w :
  spindle_hw (Ramped.systick_isr w) =
  spindle_hw (if nonzero (ms_cfg (pwm_ramp w)) then Ramped.ramp_step w else w).
Proof.
  unfold Ramped.systick_isr.
  set (w1 := if nonzero (ms_cfg (pwm_ramp w)) then Ramped.ramp_step w else w).
  clearbody w1. unfold Ramped.delay_step. case_ifs; reflexivity.
Qed.

(** A tick that only counts, or finds the ramp halted, leaves the
    spindle hardware alone. *)
Lemma tick_hw_idle w :
  ms_cfg (pwm_ramp w) = 0
  \/ (ms_cfg (pwm_ramp w) = SPINDLE_RAMP_STEP_TIME /\ ramp_ms (pwm_ramp w) = 0) ->
  spindle_hw (systick_tick PWM_RAMPED w) = spindle_hw w.
Proof.
  intros H. unfold systick_tick. destruct (systick w); [|reflexivity]. simpl.
  rewrite ramped_isr_hw. destruct H as [H | [H1 H2]].
  - by rewrite H.
  - rewrite H1. simpl. unfold Ramped.ramp_step. rewrite H1, H2. reflexivity.
Qed.

(** The tick that moves the ramp: either the stop sequence or a new
    match value. *)
Lemma tick_hw_moves w cur t step :
  systick w = true ->
  pwm_ramp w = mkRamp SPINDLE_RAMP_STEP_TIME 1 cur t step ->
  - 2 ^ 31 <= cur + step < 2 ^ 31 ->
  let new := if step <? 0 then Z.max t (cur + step) else Z.min t (cur + step) in
  let w' := systick_tick PWM_RAMPED w in
  if (step <? 0) && (new =? 0) then
    pwmEnabled w' = false
    /\ enabled (pwm_timer w') = false
    /\ load (pwm_timer w') = uint32 (period spindle_pwm + 20000)
    /\ (pwmEnabled w = true -> level (pwm_timer w') = true)
    /\ (disable_with_zero_speed settings = false -> gpio_data w' = gpio_data w)
    /\ (disable_with_zero_speed settings = true ->
        GPIOPinRead SPINDLE_ENABLE_PORT SPINDLE_ENABLE_PIN w' =
        if spindle_invert_on settings then uint8 SPINDLE_ENABLE_PIN else 0)
  else
    pwmEnabled w' = pwmEnabled w
    /\ gpio_data w' = gpio_data w
    /\ matchv (pwm_timer w') = uint32 (period spindle_pwm - new)
    /\ enabled (pwm_timer w') = enabled (pwm_timer w)
    /\ load (pwm_timer w') = load (pwm_timer w)
    /\ level (pwm_timer w') = level (pwm_timer w).
Proof.
  intros Hon H Hr. cbv zeta. unfold systick_tick. rewrite Hon. simpl.
  destruct (spindle_hw_fields _ _ (ramped_isr_hw w)) as (-> & -> & Hg).
  unfold GPIOPinRead. rewrite Hg. clear Hg.
  rewrite H. simpl. unfold Ramped.ramp_step. rewrite H. simpl.
  rewrite int32_small by assumption.
  destruct (step <? 0) eqn:Hs; simpl.
  - assert (Hm : (if cur + step <? t then t else cur + step) = Z.max t (cur + step))
      by (destruct (Z.ltb_spec (cur + step) t); lia).
    rewrite Hm. destruct (Z.max t (cur + step) =? 0) eqn:Hz; simpl.
    + destruct (disable_with_zero_speed settings), (pwmEnabled w) eqn:Hp; simpl;
        rewrite ?Hp; simpl; repeat split; try discriminate; intros _;
        rewrite port_read_insert, masked_write_read;
        destruct (spindle_invert_on settings); by rewrite ?Z.land_diag.
    + repeat split.
  - assert (Hm : (if cur + step >? t then t else cur + step) = Z.min t (cur + step))
      by (destruct (Z.gtb_spec (cur + step) t); lia).
    rewrite Hm. simpl. repeat split.
Qed.

(** Two ticks from a point between ramp steps: the first changes nothing
    on the hardware, the second is the ramp step. *)
Lemma ramp_hw_step c0 t step k w :
  pwm_range c0 -> pwm_range t -> ramp_dir c0 t step ->
  ramp_at c0 t step k w ->
  let w1 := systick_tick PWM_RAMPED w in
  let w2 := systick_tick PWM_RAMPED w1 in
  spindle_hw w1 = spindle_hw w
  /\ (ramp_cfg c0 t (Z.of_nat k) = 0 -> spindle_hw w2 = spindle_hw w)
  /\ (ramp_cfg c0 t (Z.of_nat k) = SPINDLE_RAMP_STEP_TIME ->
      let new := ramp_value c0 t (Z.of_nat (S k)) in
      if (step <? 0) && (new =? 0) then
        pwmEnabled w2 = false
        /\ enabled (pwm_timer w2) = false
        /\ load (pwm_timer w2) = uint32 (period spindle_pwm + 20000)
        /\ (pwmEnabled w = true -> level (pwm_timer w2) = true)
        /\ (disable_with_zero_speed settings = false -> gpio_data w2 = gpio_data w)
        /\ (disable_with_zero_speed settings = true ->
            GPIOPinRead SPINDLE_ENABLE_PORT SPINDLE_ENABLE_PIN w2 =
            if spindle_invert_on settings then uint8 SPINDLE_ENABLE_PIN else 0)
      else
        pwmEnabled w2 = pwmEnabled w
        /\ gpio_data w2 = gpio_data w
        /\ matchv (pwm_timer w2) = uint32 (period spindle_pwm - new)
        /\ enabled (pwm_timer w2) = enabled (pwm_timer w)
        /\ load (pwm_timer w2) = load (pwm_timer w)
        /\ level (pwm_timer w2) = level (pwm_timer w)).
Proof.
  intros Hc Ht Hdir Hat. cbv zeta.
  assert (H1 : spindle_hw (systick_tick PWM_RAMPED w) = spindle_hw w).
  { apply tick_hw_idle. destruct Hat as [Hr _]. rewrite Hr. simpl.
    destruct (ramp_cfg_cases c0 t (Z.of_nat k)); auto. }
  split; [exact H1|]. split.
  - intros Hhalt. rewrite <- H1. apply tick_hw_idle. left.
    rewrite tick_ramp_halted; destruct Hat as [Hr _]; by rewrite Hr.
  - intros Hrun.
    destruct (ramp_at_half _ _ _ _ _ Hrun Hat) as (Hr & _ & Hs).
    pose proof (ramp_value_range c0 t (Z.of_nat k) ltac:(lia)) as Hrange.
    assert (Hbound : - 2 ^ 31 <= ramp_value c0 t (Z.of_nat k) + step < 2 ^ 31).
    { unfold pwm_range, ramp_dir, SPINDLE_RAMP_STEP_INCR in *.
      destruct Hdir as (_ & _ & [->| ->]); lia. }
    pose proof (tick_hw_moves _ _ _ _ Hs Hr Hbound) as Hmv. cbv zeta in Hmv.
    rewrite (ramp_value_next c0 t step (Z.of_nat k)) in Hmv by (assumption || lia).
    replace (Z.of_nat k + 1) with (Z.of_nat (S k)) in Hmv by lia.
    destruct (spindle_hw_fields _ _ H1) as (Hp1 & Ht1 & Hg1).
    rewrite Hp1, Ht1, Hg1 in Hmv. exact Hmv.
Qed.

Lemma ramp_value_start c0 t : ramp_value c0 t (Z.of_nat 0) = c0.
Proof. unfold ramp_value, SPINDLE_RAMP_STEP_INCR. simpl. destruct (Z.ltb_spec t c0); lia. Qed.

Lemma ramp_cfg_halted c0 t k :
  0 <= k -> ramp_cfg c0 t k = 0 ->
  0 < k /\ ramp_value c0 t k = t /\ ramp_value c0 t (k + 1) = t.
Proof.
  intros Hk. unfold ramp_cfg, SPINDLE_RAMP_STEP_TIME.
  destruct (Z.ltb_spec 0 k), (Z.eqb_spec (ramp_value c0 t k) t); simpl; try lia.
  intros _. split; [assumption|]. split; [assumption|].
  revert e. unfold ramp_value, SPINDLE_RAMP_STEP_INCR. destruct (Z.ltb_spec t c0); lia.
Qed.

Lemma ramp_cfg_after c0 t k :
  0 < k -> ramp_cfg c0 t k = if ramp_value c0 t k =? t then 0 else SPINDLE_RAMP_STEP_TIME.
Proof. intros Hk. unfold ramp_cfg. by replace (0 <? k) with true by (symmetry; apply Z.ltb_lt; lia). Qed.

(** The falling ramp to 0 in numbers. *)
Lemma ramp_value_stop c0 k :
  0 <= c0 -> 0 <= k ->
  let n := Z.max ((c0 + SPINDLE_RAMP_STEP_INCR - 1) / SPINDLE_RAMP_STEP_INCR) 1 in
  (k < n -> ramp_cfg c0 0 k = SPINDLE_RAMP_STEP_TIME
            /\ (1 <= k -> ramp_value c0 0 k = c0 - SPINDLE_RAMP_STEP_INCR * k
                          /\ 0 < c0 - SPINDLE_RAMP_STEP_INCR * k))
  /\ (n <= k -> ramp_value c0 0 k = 0 /\ ramp_cfg c0 0 k = 0).
Proof.
  intros Hc Hk. cbv zeta. unfold SPINDLE_RAMP_STEP_INCR.
  replace (c0 + 20 - 1) with (c0 + 19) by lia.
  assert (Hq : 20 * ((c0 + 19) / 20) - 19 <= c0 <= 20 * ((c0 + 19) / 20))
    by (Z.div_mod_to_equations; lia).
  set (q := (c0 + 19) / 20) in *. clearbody q.
  split.
  - intros Hlt.
    assert (Hval : 1 <= k -> ramp_value c0 0 k = c0 - 20 * k /\ 0 < c0 - 20 * k).
    { intros H1. unfold ramp_value, SPINDLE_RAMP_STEP_INCR. destruct (Z.ltb_spec 0 c0); lia. }
    split; [|exact Hval].
    destruct (Z.ltb_spec 0 k) as [Hpos|Hz].
    + rewrite ramp_cfg_after by assumption. destruct (Hval ltac:(lia)) as [-> Hgt].
      destruct (Z.eqb_spec (c0 - 20 * k) 0); [lia|reflexivity].
    + unfold ramp_cfg. by replace (0 <? k) with false by (symmetry; apply Z.ltb_ge; lia).
  - intros Hge.
    assert (Hval : ramp_value c0 0 k = 0).
    { unfold ramp_value, SPINDLE_RAMP_STEP_INCR. destruct (Z.ltb_spec 0 c0); lia. }
    split; [exact Hval|]. rewrite ramp_cfg_after by lia. by rewrite Hval.
Qed.

Lemma ramped_stop_steps (w : world) :
  pwmEnabled w = true ->
  0 <= pwm_current (pwm_ramp w) < 2 ^ 31 - 20 ->
  let c0 := pwm_current (pwm_ramp w) in
  let n := Z.max ((c0 + SPINDLE_RAMP_STEP_INCR - 1) / SPINDLE_RAMP_STEP_INCR) 1 in
  let w1 := snd (Ramped.spindle_set_speed (off_value spindle_pwm) w) in
  forall k : nat,
    let wk := systick_ticks PWM_RAMPED (2 * k) w1 in
    ramp_at c0 0 (- SPINDLE_RAMP_STEP_INCR) k wk
    /\ (Z.of_nat k < n ->
        pwmEnabled wk = true
        /\ enabled (pwm_timer wk) = enabled (pwm_timer w)
        /\ load (pwm_timer wk) = load (pwm_timer w)
        /\ level (pwm_timer wk) = level (pwm_timer w)
        /\ gpio_data wk = gpio_data w
        /\ (1 <= Z.of_nat k ->
            matchv (pwm_timer wk) =
            uint32 (period spindle_pwm - (c0 - SPINDLE_RAMP_STEP_INCR * Z.of_nat k))))
    /\ (n <= Z.of_nat k ->
        pwmEnabled wk = false
        /\ enabled (pwm_timer wk) = false
        /\ load (pwm_timer wk) = uint32 (period spindle_pwm + 20000)
        /\ level (pwm_timer wk) = true
        /\ (disable_with_zero_speed settings = false -> gpio_data wk = gpio_data w)
        /\ (disable_with_zero_speed settings = true ->
            Z.land (port_read (gpio_data wk) SPINDLE_ENABLE_PORT) (uint8 SPINDLE_ENABLE_PIN) =
            if spindle_invert_on settings then uint8 SPINDLE_ENABLE_PIN else 0)).
Proof.
  intros Hp Hc. cbv zeta.
  set (c0 := pwm_current (pwm_ramp w)) in *.
  set (n := Z.max ((c0 + SPINDLE_RAMP_STEP_INCR - 1) / SPINDLE_RAMP_STEP_INCR) 1).
  assert (Hn : 1 <= n) by (unfold n; lia).
  assert (Hrc : pwm_range c0) by (unfold pwm_range; lia).
  assert (Hrt : pwm_range 0) by (unfold pwm_range; lia).
  assert (Hdir : ramp_dir c0 0 (- SPINDLE_RAMP_STEP_INCR))
    by (unfold ramp_dir, SPINDLE_RAMP_STEP_INCR; lia).
  rewrite ramped_off_starts. fold c0.
  induction k as [|k IH].
  - simpl systick_ticks. split; [|split].
    + split; [|reflexivity]. simpl pwm_ramp. by rewrite ramp_value_start.
    + intros _. simpl. repeat split; try assumption. lia.
    + lia.
  - destruct IH as (Hat & Hlive & Hdead).
    replace (2 * S k)%nat with (2 * k + 2)%nat by lia. rewrite systick_ticks_add.
    set (wk := systick_ticks PWM_RAMPED (2 * k) _) in *. clearbody wk.
    simpl systick_ticks.
    split; [by apply ramp_at_step|].
    destruct (ramp_hw_step c0 0 _ k wk Hrc Hrt Hdir Hat) as (_ & Hhalt & Hrun).
    set (w2 := systick_tick PWM_RAMPED (systick_tick PWM_RAMPED wk)) in *. clearbody w2.
    destruct (ramp_value_stop c0 (Z.of_nat k) ltac:(lia) ltac:(lia)) as [Hlt Hge].
    destruct (ramp_value_stop c0 (Z.of_nat (S k)) ltac:(lia) ltac:(lia)) as [Hlt' Hge'].
    fold n in Hlt, Hge, Hlt', Hge'.
    destruct (Z.lt_ge_cases (Z.of_nat k) n) as [Hk|Hk].
    + destruct (Hlive Hk) as (L1 & L2 & L3 & L4 & L5 & _).
      destruct (Hlt Hk) as [Hcfg _]. specialize (Hrun Hcfg). cbv zeta in Hrun.
      change (- SPINDLE_RAMP_STEP_INCR <? 0) with true in Hrun. simpl andb in Hrun.
      destruct (Z.lt_ge_cases (Z.of_nat (S k)) n) as [Hk'|Hk'].
      * destruct (Hlt' Hk') as [_ Hv]. destruct (Hv ltac:(lia)) as [Hv1 Hv2].
        rewrite Hv1 in Hrun.
        destruct (Z.eqb_spec (c0 - SPINDLE_RAMP_STEP_INCR * Z.of_nat (S k)) 0); [lia|].
        destruct Hrun as (R1 & R2 & R3 & R4 & R5 & R6).
        split; [|lia]. intros _. repeat split; try congruence.
      * destruct (Hge' Hk') as [Hv _]. rewrite Hv in Hrun. simpl in Hrun.
        destruct Hrun as (R1 & R2 & R3 & R4 & R5 & R6).
        split; [lia|]. intros _. unfold GPIOPinRead in R6.
        repeat split; auto. intros Hd. rewrite R5 by assumption. assumption.
    + destruct (Hdead Hk) as (D1 & D2 & D3 & D4 & D5 & D6).
      destruct (Hge Hk) as [_ Hcfg].
      destruct (spindle_hw_fields _ _ (Hhalt Hcfg)) as (-> & -> & ->).
      split; [lia|]. intros _. repeat split; assumption.
Qed.

(** Ramped PWM, switching a running spindle off.  With [c0] the PWM
    value at the request and [n = max(ceil(c0 / 20), 1)], [k = j / 2] ramp
    steps have been made [j] ms after the request.  While [k < n] the PWM
    stays enabled, the timer and the pins are as they were, and from the
    first ramp step on the match register holds [period - (c0 - 20 k)].
    From [k = n] on the PWM is off for good: flag cleared, timer
    disabled with [period + 20000] loaded and the output level inverted,
    and the enable pin at its off level when the settings ask for it
    (the pins untouched otherwise). *)
Theorem ramped_stop_disables (w : world) (j : nat) :
  pwmEnabled w = true ->
  0 <= pwm_current (pwm_ramp w) < 2 ^ 31 - 20 ->
  let c0 := pwm_current (pwm_ramp w) in
  let n := Z.max ((c0 + SPINDLE_RAMP_STEP_INCR - 1) / SPINDLE_RAMP_STEP_INCR) 1 in
  let wj := systick_ticks PWM_RAMPED j (snd (Ramped.spindle_set_speed (off_value spindle_pwm) w)) in
  let k := Z.of_nat (j / 2) in
  (k < n ->
   pwmEnabled wj = true
   /\ enabled (pwm_timer wj) = enabled (pwm_timer w)
   /\ load (pwm_timer wj) = load (pwm_timer w)
   /\ level (pwm_timer wj) = level (pwm_timer w)
   /\ gpio_data wj = gpio_data w
   /\ (1 <= k ->
       matchv (pwm_timer wj) = uint32 (period spindle_pwm - (c0 - SPINDLE_RAMP_STEP_INCR * k))))
  /\ (n <= k ->
      pwmEnabled wj = false
      /\ enabled (pwm_timer wj) = false
      /\ load (pwm_timer wj) = uint32 (period spindle_pwm + 20000)
      /\ level (pwm_timer wj) = true
      /\ (disable_with_zero_speed settings = false -> gpio_data wj = gpio_data w)
      /\ (disable_with_zero_speed settings = true ->
          GPIOPinRead SPINDLE_ENABLE_PORT SPINDLE_ENABLE_PIN wj =
          if spindle_invert_on settings then uint8 SPINDLE_ENABLE_PIN else 0)).
Proof.
  intros Hp Hc. cbv zeta.
  pose proof (ramped_stop_steps w Hp Hc (j / 2)%nat) as Hsteps. cbv zeta in Hsteps.
  destruct Hsteps as (Hat & Hlive & Hdead).
  set (w1 := snd (Ramped.spindle_set_speed (off_value spindle_pwm) w)) in *. clearbody w1.
  set (wk := systick_ticks PWM_RAMPED (2 * (j / 2)) w1) in *.
  assert (Hhw : spindle_hw (systick_ticks PWM_RAMPED j w1) = spindle_hw wk).
  { pose proof (Nat.div_mod_eq j 2) as Hj.
    pose proof (Nat.mod_upper_bound j 2 ltac:(lia)) as Hr.
    destruct (j mod 2)%nat as [|[|r]] eqn:Hm; [| |lia].
    - rewrite Hj at 1. by rewrite Nat.add_0_r.
    - rewrite Hj at 1. rewrite systick_ticks_add. fold wk.
      change (systick_ticks PWM_RAMPED 1 wk) with (systick_tick PWM_RAMPED wk).
      assert (Hrc : pwm_range (pwm_current (pwm_ramp w))) by (unfold pwm_range; lia).
      assert (Hrt : pwm_range 0) by (unfold pwm_range; lia).
      assert (Hdir : ramp_dir (pwm_current (pwm_ramp w)) 0 (- SPINDLE_RAMP_STEP_INCR))
        by (unfold ramp_dir, SPINDLE_RAMP_STEP_INCR; lia).
      by destruct (ramp_hw_step _ _ _ _ _ Hrc Hrt Hdir Hat) as (H1 & _). }
  clearbody wk. destruct (spindle_hw_fields _ _ Hhw) as (Ep & Et & Eg).
  unfold GPIOPinRead. rewrite Ep, Et, Eg. split; assumption.
Qed.

Lemma ramp_at_any_tick c0 t step k w :
  ramp_at c0 t step k w ->
  pwm_current (pwm_ramp w) = ramp_value c0 t (Z.of_nat k)
  /\ pwm_target (pwm_ramp w) = t
  /\ pwm_current (pwm_ramp (systick_tick PWM_RAMPED w)) = ramp_value c0 t (Z.of_nat k)
  /\ pwm_target (pwm_ramp (systick_tick PWM_RAMPED w)) = t.
Proof.
  intros Hat. pose proof Hat as [Hr _].
  split; [by rewrite Hr|]. split; [by rewrite Hr|].
  destruct (ramp_cfg_cases c0 t (Z.of_nat k)) as [Hcfg|Hcfg].
  - rewrite tick_ramp_halted by (by rewrite Hr). by rewrite Hr.
  - destruct (ramp_at_half _ _ _ _ _ Hcfg Hat) as (-> & _). by split.
Qed.

Lemma ramped_start_ticks (v : Z) (w : world) (j : nat) :
  pwmEnabled w = false ->
  v <> off_value spindle_pwm ->
  0 < v < 2 ^ 31 - 20 ->
  0 <= min_value spindle_pwm < 2 ^ 31 - 20 ->
  let c0 := min_value spindle_pwm in
  let wj := systick_ticks PWM_RAMPED j (snd (Ramped.spindle_set_speed v w)) in
  let k := Z.of_nat (j / 2) in
  (pwm_current (pwm_ramp wj) = ramp_value c0 v k /\ pwm_target (pwm_ramp wj) = v)
  /\ pwmEnabled wj = true
  /\ enabled (pwm_timer wj) = true
  /\ load (pwm_timer wj) = uint32 (period spindle_pwm)
  /\ level (pwm_timer wj) = false
  /\ GPIOPinRead SPINDLE_ENABLE_PORT SPINDLE_ENABLE_PIN wj =
     (if spindle_invert_on settings then 0 else uint8 SPINDLE_ENABLE_PIN)
  /\ (k = 0 -> matchv (pwm_timer wj) = uint32 (period spindle_pwm - c0 + 15))
  /\ (1 <= k -> matchv (pwm_timer wj) = uint32 (period spindle_pwm - ramp_value c0 v k)).
Proof.
  intros Hp Hv Hr Hmin. cbv zeta.
  set (c0 := min_value spindle_pwm) in *.
  set (step := if v <? c0 then - SPINDLE_RAMP_STEP_INCR else SPINDLE_RAMP_STEP_INCR).
  assert (Hrc : pwm_range c0) by (unfold pwm_range; lia).
  assert (Hrt : pwm_range v) by (unfold pwm_range; lia).
  assert (Hdir : ramp_dir c0 v step).
  { unfold ramp_dir, step, SPINDLE_RAMP_STEP_INCR. destruct (Z.ltb_spec v c0); lia. }
  set (w1 := snd (Ramped.spindle_set_speed v w)).
  assert (Hw1 : ramp_at c0 v step 0 w1
                /\ pwmEnabled w1 = true
                /\ enabled (pwm_timer w1) = true
                /\ load (pwm_timer w1) = uint32 (period spindle_pwm)
                /\ level (pwm_timer w1) = false
                /\ Z.land (port_read (gpio_data w1) SPINDLE_ENABLE_PORT) (uint8 SPINDLE_ENABLE_PIN) =
                   (if spindle_invert_on settings then 0 else uint8 SPINDLE_ENABLE_PIN)
                /\ matchv (pwm_timer w1) = uint32 (period spindle_pwm - c0 + 15)).
  { unfold w1, Ramped.spindle_set_speed. apply Z.eqb_neq in Hv. rewrite Hv, Hp. simpl.
    rewrite !int32_small by (fold c0; lia). fold c0. fold step.
    split; [|repeat split].
    - split; [|reflexivity]. simpl. by rewrite ramp_value_start.
    - rewrite port_read_insert, masked_write_read.
      destruct (spindle_invert_on settings); by rewrite ?Z.land_diag. }
  clearbody w1.
  assert (Hsteps : forall k : nat,
             let wk := systick_ticks PWM_RAMPED (2 * k) w1 in
             ramp_at c0 v step k wk
             /\ pwmEnabled wk = true
             /\ enabled (pwm_timer wk) = true
             /\ load (pwm_timer wk) = uint32 (period spindle_pwm)
             /\ level (pwm_timer wk) = false
             /\ gpio_data wk = gpio_data w1
             /\ (Z.of_nat k = 0 -> matchv (pwm_timer wk) = uint32 (period spindle_pwm - c0 + 15))
             /\ (1 <= Z.of_nat k ->
                 matchv (pwm_timer wk) = uint32 (period spindle_pwm - ramp_value c0 v (Z.of_nat k)))).
  { destruct Hw1 as (A0 & A1 & A2 & A3 & A4 & A5 & A6).
    induction k as [|k IH]; cbv zeta.
    - simpl systick_ticks. split; [exact A0|].
      repeat split; try assumption; try reflexivity; intros; lia.
    - destruct IH as (Hat & I1 & I2 & I3 & I4 & I5 & I6 & I7).
      replace (2 * S k)%nat with (2 * k + 2)%nat by lia. rewrite systick_ticks_add.
      set (wk := systick_ticks PWM_RAMPED (2 * k) w1) in *. clearbody wk.
      simpl systick_ticks.
      split; [by apply ramp_at_step|].
      destruct (ramp_hw_step c0 v _ k wk Hrc Hrt Hdir Hat) as (_ & Hhalt & Hrun).
      set (w2 := systick_tick PWM_RAMPED (systick_tick PWM_RAMPED wk)) in *. clearbody w2.
      destruct (ramp_cfg_cases c0 v (Z.of_nat k)) as [Hcfg|Hcfg].
      + destruct (spindle_hw_fields _ _ (Hhalt Hcfg)) as (-> & -> & ->).
        destruct (ramp_cfg_halted c0 v (Z.of_nat k) ltac:(lia) Hcfg) as (Hk & Hv1 & Hv2).
        replace (Z.of_nat (S k)) with (Z.of_nat k + 1) by lia.
        repeat split; try assumption; [lia|]. intros _. rewrite Hv2, <- Hv1. apply I7. lia.
      + specialize (Hrun Hcfg). cbv zeta in Hrun.
        pose proof (ramp_value_range c0 v (Z.of_nat (S k)) ltac:(lia)) as Hrange.
        assert (Hns : (step <? 0) && (ramp_value c0 v (Z.of_nat (S k)) =? 0) = false).
        { destruct (Z.ltb_spec step 0) as [Hneg|]; [|reflexivity]. simpl.
          apply Z.eqb_neq. intros H0.
          assert (Hlt : v < c0).
          { unfold step, SPINDLE_RAMP_STEP_INCR in Hneg. destruct (Z.ltb_spec v c0); lia. }
          lia. }
        rewrite Hns in Hrun. destruct Hrun as (R1 & R2 & R3 & R4 & R5 & R6).
        repeat split; try congruence. lia. }
  pose proof (Hsteps (j / 2)%nat) as Hk. cbv zeta in Hk.
  destruct Hk as (Hat & K1 & K2 & K3 & K4 & K5 & K6 & K7).
  set (wk := systick_ticks PWM_RAMPED (2 * (j / 2)) w1) in *.
  destruct (ramp_at_any_tick _ _ _ _ _ Hat) as (C1 & C2 & C3 & C4).
  assert (Hhw : spindle_hw (systick_ticks PWM_RAMPED j w1) = spindle_hw wk
                /\ pwm_current (pwm_ramp (systick_ticks PWM_RAMPED j w1)) =
                   ramp_value c0 v (Z.of_nat (j / 2))
                /\ pwm_target (pwm_ramp (systick_ticks PWM_RAMPED j w1)) = v).
  { pose proof (Nat.div_mod_eq j 2) as Hj.
    pose proof (Nat.mod_upper_bound j 2 ltac:(lia)) as Hm2.
    set (k := (j / 2)%nat) in *. clearbody k.
    destruct (j mod 2)%nat as [|[|r]]; [| |lia]; subst j.
    - rewrite Nat.add_0_r. fold wk. by repeat split.
    - rewrite systick_ticks_add. fold wk.
      change (systick_ticks PWM_RAMPED 1 wk) with (systick_tick PWM_RAMPED wk).
      split; [|by split].
      by destruct (ramp_hw_step _ _ _ _ _ Hrc Hrt Hdir Hat) as (H1 & _). }
  clearbody wk. destruct Hhw as (Hhw & Hcur & Htgt).
  destruct (spindle_hw_fields _ _ Hhw) as (Ep & Et & Eg).
  destruct Hw1 as (_ & _ & _ & _ & _ & A5 & _).
  unfold GPIOPinRead. rewrite Ep, Et, Eg, K5.
  repeat split; assumption.
Qed.

(** Ramped PWM, starting a stopped spindle at a speed [v > 0] other than
    the off value.  The request itself puts the enable pin at its on
    level, loads the period, starts the timer and sets the match
    register to [period - min_value + 15]; the output level is set
    non-inverted whatever the settings say.  None of that changes
    afterwards; [j] ms later, after [k = j / 2 >= 1] ramp steps, the match
    register holds [period - ramp_value min_value v k], which is
    [period - v] once [k] reaches [max(ceil(|v - min_value| / 20), 1)]. *)
Theorem ramped_start_follows (v : Z) (w : world) (j : nat) :
  pwmEnabled w = false ->
  v <> off_value spindle_pwm ->
  0 < v < 2 ^ 31 - 20 ->
  0 <= min_value spindle_pwm < 2 ^ 31 - 20 ->
  let c0 := min_value spindle_pwm in
  let n := Z.max ((Z.abs (v - c0) + SPINDLE_RAMP_STEP_INCR - 1) / SPINDLE_RAMP_STEP_INCR) 1 in
  let wj := systick_ticks PWM_RAMPED j (snd (Ramped.spindle_set_speed v w)) in
  let k := Z.of_nat (j / 2) in
  pwmEnabled wj = true
  /\ enabled (pwm_timer wj) = true
  /\ load (pwm_timer wj) = uint32 (period spindle_pwm)
  /\ level (pwm_timer wj) = false
  /\ GPIOPinRead SPINDLE_ENABLE_PORT SPINDLE_ENABLE_PIN wj =
     (if spindle_invert_on settings then 0 else uint8 SPINDLE_ENABLE_PIN)
  /\ (k = 0 -> matchv (pwm_timer wj) = uint32 (period spindle_pwm - c0 + 15))
  /\ (1 <= k -> matchv (pwm_timer wj) = uint32 (period spindle_pwm - ramp_value c0 v k))
  /\ (n <= k -> matchv (pwm_timer wj) = uint32 (period spindle_pwm - v)).
Proof.
  intros Hp Hv Hr Hmin. cbv zeta.
  pose proof (ramped_start_ticks v w j Hp Hv Hr Hmin) as H. cbv zeta in H.
  destruct H as (_ & K1 & K2 & K3 & K4 & K5 & K6 & K7).
  repeat split; try assumption.
  intros Hn. rewrite K7 by lia. f_equal. f_equal.
  unfold ramp_value, SPINDLE_RAMP_STEP_INCR in *.
  assert (Hd : Z.abs (v - min_value spindle_pwm) <= 20 * Z.of_nat (j / 2)).
  { assert (Hq : (Z.abs (v - min_value spindle_pwm) + 20 - 1) / 20 <= Z.of_nat (j / 2)) by lia.
    revert Hq. generalize (Z.of_nat (j / 2)). intros z Hq. Z.div_mod_to_equations. lia. }
  destruct (Z.ltb_spec v (min_value spindle_pwm)); lia.
Qed.

End RampHardware.

(** ** What [spindleGetState] reports for a variable spindle *)

Section SpindleReport.

Context {cfg : driver_config} {io : io_config}.

Lemma spindle_report_on b w :
  pwmEnabled w = true -> on (spindleGetState b w) = negb (spindle_invert_on settings).
Proof.
  intros Hp. unfold spindleGetState. rewrite Hp.
  destruct b, spindle_dir_cap; simpl;
    destruct (nonzero _), (spindle_invert_on settings); reflexivity.
Qed.

Lemma spindle_report_at_speed w :
  at_speed (spindleGetState PWM_RAMPED w) = (pwm_current (pwm_ramp w) =? pwm_target (pwm_ramp w)).
Proof. reflexivity. Qed.

(** Ramped PWM, the state reported while a stopped spindle is brought
    to the speed [v]: [j] ms after the request [spindleGetState] reports
    [at_speed] exactly when [j / 2] has reached
    [ceil(|v - min_value| / 20)], the number of ramp steps to the
    target.  It reports [on] as the complement of the configured
    inversion of the enable output: on for a plain output, off for an
    inverted one, because the PWM flag is or-ed in between the two
    exclusive-ors with the invert mask. *)
Theorem ramped_at_speed_report (v : Z) (w : world) (j : nat) :
  pwmEnabled w = false ->
  v <> off_value spindle_pwm ->
  0 < v < 2 ^ 31 - 20 ->
  0 <= min_value spindle_pwm < 2 ^ 31 - 20 ->
  let n := (Z.abs (v - min_value spindle_pwm) + SPINDLE_RAMP_STEP_INCR - 1)
           / SPINDLE_RAMP_STEP_INCR in
  let wj := systick_ticks PWM_RAMPED j (snd (Ramped.spindle_set_speed v w)) in
  let got := spindleGetState PWM_RAMPED wj in
  (at_speed got = true <-> n <= Z.of_nat (j / 2))
  /\ on got = negb (spindle_invert_on settings).
Proof.
  intros Hp Hv Hr Hmin. cbv zeta.
  pose proof (ramped_start_ticks v w j Hp Hv Hr Hmin) as H. cbv zeta in H.
  destruct H as ((Hcur & Htgt) & K1 & _).
  split; [|by apply spindle_report_on].
  rewrite spindle_report_at_speed, Hcur, Htgt, Z.eqb_eq.
  unfold ramp_value, SPINDLE_RAMP_STEP_INCR.
  generalize (Z.of_nat (j / 2)) (Nat2Z.is_nonneg (j / 2)). intros k Hk.
  set (c0 := min_value spindle_pwm) in *. clearbody c0.
  assert (Hq : 20 * ((Z.abs (v - c0) + 20 - 1) / 20) - 19 <= Z.abs (v - c0)
               <= 20 * ((Z.abs (v - c0) + 20 - 1) / 20))
    by (Z.div_mod_to_equations; lia).
  set (q := (Z.abs (v - c0) + 20 - 1) / 20) in *. clearbody q.
  destruct (Z.ltb_spec v c0); lia.
Qed.


End SpindleReport.

(** ** The further properties on the example boards *)

(** A 5 ms delay replaced after 2 ms by a 3 ms delay: the first callback
    runs at the second request, the second one 3 ms later. *)
Lemma delay_request_superseded_example :
  exists w1 w2,
    driver_delay_ms (cfg := example_config) PWM_DIRECT 0 5 77 world_reset = Some w1
    /\ driver_delay_ms (cfg := example_config) PWM_DIRECT 0 3 88
         (systick_ticks (cfg := example_config) PWM_DIRECT 2 w1) = Some w2
    /\ invocations 77 (trace w2) = 1%nat
    /\ invocations 88 (trace (systick_ticks (cfg := example_config) PWM_DIRECT 2 w2)) = O
    /\ invocations 88 (trace (systick_ticks (cfg := example_config) PWM_DIRECT 3 w2)) = 1%nat.
Proof.
  eexists. eexists. split; [reflexivity|]. split; [reflexivity|].
  destruct (delay_request_superseded (cfg := example_config) PWM_DIRECT 5 3 77 88 2
              world_reset _ _ ltac:(lia) ltac:(lia) ltac:(discriminate) ltac:(discriminate)
              ltac:(discriminate) ltac:(simpl; lia) eq_refl eq_refl)
    as (_ & H1 & _ & _ & H2 & H3).
  split; [exact H1|]. split.
  - exact (H2 2%nat ltac:(simpl; lia)).
  - exact (H3 3%nat ltac:(simpl; lia)).
Defined.

(** A tick that finds [delay.ms] at 0 wraps it in the direct build. *)
Lemma systick_at_zero_countdown_example :
  ms (delay (set_delay (mkDelay 0 NULL) world_reset)) = 0
  /\ ms (delay (Direct.systick_isr (set_delay (mkDelay 0 NULL) world_reset))) = 4294967295.
Proof.
  split; [reflexivity|].
  destruct (systick_at_zero_countdown (cfg := example_config)
              (set_delay (mkDelay 0 NULL) world_reset) eq_refl) as (_ & H & _).
  exact H.
Defined.


(** Step bits X and Y with X and Z inverted: Y and Z pins high. *)
Lemma step_map_applies_invert_example :
  step_pattern (cfg := inverted_config) 3 = 12
  /\ GPIOPinRead 1073770496 2 (set_step_outputs (cfg := inverted_config) 3 world_reset) = 0
  /\ GPIOPinRead 1073770496 4 (set_step_outputs (cfg := inverted_config) 3 world_reset) = 4.
Proof.
  destruct (step_map_applies_invert (cfg := inverted_config) 3 world_reset
              eq_refl eq_refl eq_refl eq_refl eq_refl eq_refl eq_refl
              ltac:(lia) ltac:(simpl; lia)) as (Hp & Hx & Hy & _).
  split; [exact Hp|]. split; [exact Hx|exact Hy].
Defined.

(** Direction pins 4 to 6: the lookup table is a shift by 4. *)
Lemma dir_map_equals_shift_example :
  dir_pattern (cfg := inverted_config) 5 = 112.
Proof.
  exact (dir_map_equals_shift (cfg := inverted_config) 4 5
           eq_refl eq_refl eq_refl eq_refl ltac:(lia) ltac:(lia) ltac:(simpl; lia)).
Defined.

(** An X and Y step: pins high after the command, low after the timer
    interrupt. *)
Lemma immediate_pulse_cycle_example :
  3 <> 0
  /\ step_pins (cfg := example_config)
       (snd (stepperPulseStart (cfg := example_config) (mkStepper false 0 3) world_reset)) = 6
  /\ step_pins (cfg := example_config)
       (stepper_pulse_isr (cfg := example_config)
          (snd (stepperPulseStart (cfg := example_config) (mkStepper false 0 3) world_reset))) = 0.
Proof.
  assert (H3 : 3 <> 0) by discriminate.
  split; [exact H3|].
  destruct (immediate_pulse_cycle (cfg := example_config) (mkStepper false 0 3) world_reset H3)
    as (H1 & _ & H2 & _).
  split; [exact H1|exact H2].
Defined.

(** Flood on, mist off, flood output inverted. *)
Lemma coolant_state_round_trip_example :
  coolant_pins_ok (io := example_io)
  /\ flood (coolantGetState (io := example_io)
              (coolantSetState (io := example_io) (mkCoolant true false 0) world_reset)) = true.
Proof.
  assert (Hok : coolant_pins_ok (io := example_io)).
  { split; [discriminate|]. split; [discriminate|]. left. discriminate. }
  split; [exact Hok|].
  destruct (coolant_state_round_trip (io := example_io) (mkCoolant true false 0) world_reset Hok)
    as (H & _).
  exact H.
Defined.

(** Spindle on, counter-clockwise, plain outputs: read back as set. *)
Lemma spindle_state_read_back_example :
  spindle_pins_ok (cfg := example_config) (io := example_io)
  /\ on (spindleGetState (cfg := example_config) (io := example_io) PWM_DIRECT
           (spindleSetState (cfg := example_config) (io := example_io)
              (mkSpindle true true false false) world_reset)) = true
  /\ ccw (spindleGetState (cfg := example_config) (io := example_io) PWM_DIRECT
            (spindleSetState (cfg := example_config) (io := example_io)
               (mkSpindle true true false false) world_reset)) = true.
Proof.
  assert (Hok : spindle_pins_ok (cfg := example_config) (io := example_io)).
  { split; [discriminate|]. split; [discriminate|]. right. reflexivity. }
  split; [exact Hok|].
  destruct (spindle_state_read_back (cfg := example_config) (io := example_io) PWM_DIRECT
              (mkSpindle true true false false) world_reset Hok eq_refl eq_refl)
    as (H1 & H2 & _).
  split; [exact H1|exact (H2 eq_refl)].
Defined.

(** Probe pin high, plain polarity, probing towards the workpiece: not
    triggered; probing away from it: triggered. *)
Lemma probe_configure_polarity_example :
  0 <= 5 < 8
  /\ PROBE_PIN (driver_config := example_config) = 2 ^ 5
  /\ probeGetState (cfg := example_config)
       (fst (probeConfigure (cfg := example_config) (io := example_io) false
               (probe_edge_world, irq_reset))) = false
  /\ probeGetState (cfg := example_config)
       (fst (probeConfigure (cfg := example_config) (io := example_io) true
               (probe_edge_world, irq_reset))) = true.
Proof.
  assert (H1 : 0 <= 5 < 8) by lia.
  assert (H2 : PROBE_PIN (driver_config := example_config) = 2 ^ 5) by reflexivity.
  split; [exact H1|]. split; [exact H2|].
  destruct (probe_configure_polarity (cfg := example_config) (io := example_io) 5 false
              probe_edge_world irq_reset H1 H2) as (_ & Ha & Hb & _).
  assert (Hv : probeGetState (cfg := example_config)
                 (fst (probeConfigure (cfg := example_config) (io := example_io) false
                         (probe_edge_world, irq_reset))) = false).
  { etransitivity; [exact Ha|]. vm_compute. reflexivity. }
  split; [exact Hv|].
  etransitivity; [exact Hb|]. by rewrite Hv.
Defined.

(** A PWM value above 16 bits: prescaler 1, match 4464. *)
Lemma direct_speed_loads_duty_example :
  70000 <> off_value (spindle_pwm (driver_config := example_config))
  /\ prescale_match (pwm_timer (Direct.spindle_set_speed (cfg := example_config) 70000 world_reset))
     * 65536
     + matchv (pwm_timer (Direct.spindle_set_speed (cfg := example_config) 70000 world_reset))
     = 70000.
Proof.
  assert (H1 : 70000 <> off_value (spindle_pwm (driver_config := example_config)))
    by discriminate.
  split; [exact H1|].
  destruct (direct_speed_loads_duty (cfg := example_config) 70000 world_reset H1 ltac:(lia))
    as (H & _).
  exact H.
Defined.

(** Off and on again at 500: the PWM timer stops and runs again. *)
Lemma direct_off_then_on_example :
  enabled (pwm_timer (Direct.spindle_set_speed (cfg := example_config) 0 world_reset)) = false
  /\ enabled (pwm_timer
                (Direct.spindle_set_speed (cfg := example_config) 500
                   (Direct.spindle_set_speed (cfg := example_config) 0 world_reset))) = true.
Proof.
  destruct (direct_off_then_on (cfg := example_config) 500 world_reset
              ltac:(discriminate) ltac:(lia) ltac:(simpl; lia))
    as ((_ & H1 & _) & (_ & H2 & _)).
  split; [exact H1|exact H2].
Defined.

(** From PWM value 100: five ramp steps, off after 10 ms and not before. *)
Lemma ramped_stop_disables_example :
  pwmEnabled
    (systick_ticks (cfg := example_config) PWM_RAMPED 9
       (snd (Ramped.spindle_set_speed (cfg := example_config) 0
               (set_pwm_ramp (mkRamp 0 0 100 100 20) (set_pwmEnabled true world_reset))))) = true
  /\ pwmEnabled
       (systick_ticks (cfg := example_config) PWM_RAMPED 10
          (snd (Ramped.spindle_set_speed (cfg := example_config) 0
                  (set_pwm_ramp (mkRamp 0 0 100 100 20) (set_pwmEnabled true world_reset))))) = false.
Proof.
  destruct (ramped_stop_disables (cfg := example_config)
              (set_pwm_ramp (mkRamp 0 0 100 100 20) (set_pwmEnabled true world_reset)) 9
              eq_refl ltac:(simpl; lia)) as (H9 & _).
  destruct (ramped_stop_disables (cfg := example_config)
              (set_pwm_ramp (mkRamp 0 0 100 100 20) (set_pwmEnabled true world_reset)) 10
              eq_refl ltac:(simpl; lia)) as (_ & H10).
  split.
  - exact (proj1 (H9 ltac:(vm_compute; reflexivity))).
  - exact (proj1 (H10 ltac:(vm_compute; discriminate))).
Defined.

(** From the minimum 80 to 1000: 46 ramp steps, the match register at
    [8000 - 1000] after 92 ms. *)
Lemma ramped_start_follows_example :
  1000 <> off_value (spindle_pwm (driver_config := example_config))
  /\ matchv (pwm_timer
               (systick_ticks (cfg := example_config) PWM_RAMPED 92
                  (snd (Ramped.spindle_set_speed (cfg := example_config) 1000 world_reset)))) = 7000.
Proof.
  assert (H1 : 1000 <> off_value (spindle_pwm (driver_config := example_config)))
    by discriminate.
  split; [exact H1|].
  destruct (ramped_start_follows (cfg := example_config) 1000 world_reset 92
              eq_refl H1 ltac:(lia) ltac:(simpl; lia)) as (_ & _ & _ & _ & _ & _ & _ & H).
  exact (H ltac:(vm_compute; discriminate)).
Defined.

(** The same start: [at_speed] is reported after 92 ms. *)
Lemma ramped_at_speed_report_example :
  at_speed (spindleGetState (cfg := example_config) (io := example_io) PWM_RAMPED
              (systick_ticks (cfg := example_config) PWM_RAMPED 92
                 (snd (Ramped.spindle_set_speed (cfg := example_config) 1000 world_reset)))) = true.
Proof.
  destruct (ramped_at_speed_report (cfg := example_config) (io := example_io) 1000 world_reset 92
              eq_refl ltac:(discriminate) ltac:(lia) ltac:(simpl; lia)) as ((_ & H) & _).
  exact (H ltac:(vm_compute; discriminate)).
Defined.

